(** * ieee754toy: a shallow embedding of the decimal-to-IEEE754 pipeline

    The development follows the two headers of the repository:
    - [IEEE754.h]: the format traits, the bit-pattern constructors
      ([number], [zero], [infinity], [nan]), the shared narrowing primitive
      [divideBy], the exponent-base conversion ([decreaseTenExponent],
      [increaseTenExponent], [convertTwobase]) and the packer [toIEEE754];
    - [NumericalParser.h]: the lexer ([parseMantissa], [parseExponent],
      [parseMantissaExponent]) and the full conversion [toAnyDouble].

    Conventions of the embedding.
    - An unsigned w-bit integer is a [Z] in [0, 2^w); every operation that can
      leave the range is followed by [wrapU w].
    - The signed [Exponent] type is a [Z] in [-2^(w-1), 2^(w-1)).  C++
      evaluates every arithmetic expression on it in [int] (32 bits): an
      [int] result out of range is undefined behaviour ([Undefined]); the
      result is then converted back to [Exponent], which wraps when
      [Exponent] is narrower than [int] (as it is for [float]).
    - [assert] is a check: a failing one ends the run with [AssertFailed].
    - Every [while] loop takes fuel; a loop that is not entered needs none. *)

From Stdlib Require Import ZArith Lia List Bool String Ascii.
Import ListNotations.
Local Open Scope Z_scope.

(** ** Outcomes of a run *)

Inductive outcome (A : Type) : Type :=
| Done (a : A)        (* the function returned [a] *)
| Undefined           (* signed overflow in an [int] expression *)
| AssertFailed        (* an [assert] did not hold *)
| OutOfFuel.          (* a loop did not finish within the fuel given *)

Arguments Done {A} a.
Arguments Undefined {A}.
Arguments AssertFailed {A}.
Arguments OutOfFuel {A}.

Definition bind {A B : Type} (m : outcome A) (k : A -> outcome B) : outcome B :=
  match m with
  | Done a => k a
  | Undefined => Undefined
  | AssertFailed => AssertFailed
  | OutOfFuel => OutOfFuel
  end.

Notation "x <- m ;; k" := (bind m (fun x => k))
  (at level 61, m at next level, right associativity).
Notation "' pat <- m ;; k" := (bind m (fun x => match x with pat => k end))
  (at level 61, pat pattern, m at next level, right associativity).

Definition assert (b : bool) : outcome unit :=
  if b then Done tt else AssertFailed.

(** ** Machine integers *)

(** Conversion to an unsigned type of [w] bits. *)
Definition wrapU (w z : Z) : Z := z mod 2 ^ w.

(** Conversion to a signed type of [w] bits (two's complement). *)
Definition wrapS (w z : Z) : Z := (z + 2 ^ (w - 1)) mod 2 ^ w - 2 ^ (w - 1).

Definition intBits : Z := 32.
Definition INT_MIN : Z := - 2 ^ (intBits - 1).
Definition INT_MAX : Z := 2 ^ (intBits - 1) - 1.

(** The value of an [int] expression: defined only inside the range of [int]. *)
Definition int_arith (z : Z) : outcome Z :=
  if (INT_MIN <=? z) && (z <=? INT_MAX) then Done z else Undefined.

(** ** IEEE754Traits *)

Record IEEE754Traits : Type := mkTraits {
  integerWidth  : Z;   (* bits of IntegerType *)
  mantissaWidth : Z;   (* bits of Mantissa *)
  exponentWidth : Z;   (* bits of Exponent *)
  reducedWidth  : Z;   (* bits of ReducedMantissa *)
  mantissaBits  : Z;
  exponentBits  : Z
}.

(** [IEEE754Traits<float>]: uint32_t, uint32_t, int16_t, uint64_t, 23, 8. *)
Definition Traits_float : IEEE754Traits := mkTraits 32 32 16 64 23 8.

(** [IEEE754Traits<double>]: uint64_t, uint64_t, int32_t, __uint128_t, 52, 11. *)
Definition Traits_double : IEEE754Traits := mkTraits 64 64 32 128 52 11.

(** Conversion of an [int] value to [Exponent]. *)
Definition toExponent (T : IEEE754Traits) (z : Z) : Z := wrapS (exponentWidth T) z.

(** [a + b] on [Exponent] operands, stored into an [Exponent]. *)
Definition eadd (T : IEEE754Traits) (a b : Z) : outcome Z :=
  r <- int_arith (a + b) ;; Done (toExponent T r).

(** [std::numeric_limits<U>::max()] of an unsigned type of [w] bits. *)
Definition umax (w : Z) : Z := 2 ^ w - 1.

(** [std::numeric_limits<Exponent>::max()]. *)
Definition Exponent_max (T : IEEE754Traits) : Z := 2 ^ (exponentWidth T - 1) - 1.
Definition Exponent_min (T : IEEE754Traits) : Z := - 2 ^ (exponentWidth T - 1).

(** ** IEEE754BinaryNumber: constants and bit-pattern constructors *)

Definition exponentBase (T : IEEE754Traits) : Z := Z.shiftl 1 (exponentBits T - 1) - 1.
Definition exponentMax (T : IEEE754Traits) : Z :=
  Z.shiftl 1 (exponentBits T) - exponentBase T - 2.
Definition exponentMin (T : IEEE754Traits) : Z := 1 - exponentBase T.
Definition exponentSubnormalBase (T : IEEE754Traits) : Z := 1 - exponentBase T.
Definition exponentSubnormalMin (T : IEEE754Traits) : Z :=
  exponentSubnormalBase T - mantissaBits T.

(** [number(negative, mantissa, exponent)]: [sign | exponent | mantissa]. *)
Definition number (T : IEEE754Traits) (negative : bool) (mantissa exponent : Z)
  : outcome Z :=
  let W := integerWidth T in
  let negativePart :=
    if negative then wrapU W (Z.shiftl 1 (mantissaBits T + exponentBits T)) else 0 in
  let exponentPart := wrapU W (Z.shiftl (wrapU W exponent) (mantissaBits T)) in
  let mantissaPart := wrapU W mantissa in
  _ <- assert (mantissaPart <? wrapU W (Z.shiftl 1 (mantissaBits T))) ;;
  Done (Z.lor (Z.lor negativePart exponentPart) mantissaPart).

Definition zero (T : IEEE754Traits) (negative : bool) : outcome Z :=
  number T negative 0 0.

Definition infinity (T : IEEE754Traits) (negative : bool) : outcome Z :=
  number T negative 0 (toExponent T (Z.shiftl 1 (exponentBits T) - 1)).

Definition nan (T : IEEE754Traits) : outcome Z :=
  number T false 1 (toExponent T (Z.shiftl 1 (exponentBits T) - 1)).

(** The three fields of a bit pattern. *)
Definition signField (T : IEEE754Traits) (bits : Z) : Z :=
  Z.shiftr bits (mantissaBits T + exponentBits T).
Definition exponentField (T : IEEE754Traits) (bits : Z) : Z :=
  Z.shiftr bits (mantissaBits T) mod 2 ^ exponentBits T.
Definition mantissaField (T : IEEE754Traits) (bits : Z) : Z :=
  bits mod 2 ^ mantissaBits T.

(** ** IEEE754Number *)

(** [IEEE754Number<N, Base>]: the base is a phantom parameter of the C++
    template, so decimal and binary numbers share one record. *)
Record IEEE754Number : Type := mkNumber {
  negative : bool;
  mantissa : Z;
  exponent : Z
}.

(** ** divideBy *)

(** [divideBy(number, divisor)] on an unsigned type of [w] bits; returns the
    new value of [number]. *)
Definition divideBy (w : Z) (number divisor : Z) : Z :=
  if negb (number mod divisor =? divisor / 2) then number / divisor
  else
    let q := number / divisor in
    if negb (Z.land q 1 =? 0) then wrapU w (q + 1) else q.

(** Round-half-to-even as the glossary words it: the integer nearest to
    [n / d], a value exactly halfway between two integers going to the even
    one. *)
Definition roundHalfEven (n d : Z) : Z :=
  let q := n / d in
  let r := n mod d in
  if 2 * r <? d then q
  else if d <? 2 * r then q + 1
  else if Z.even q then q else q + 1.

(** [power(t, exp)] on an unsigned type of [w] bits. *)
Fixpoint power (w : Z) (t : Z) (exp : nat) : Z :=
  match exp with
  | O => 1
  | S e => wrapU w (power w t e * t)
  end.

(** ** toIEEE754 *)

Definition toIEEE754 (T : IEEE754Traits) (n : IEEE754Number) : outcome Z :=
  let mb := mantissaBits T in
  let leading := wrapU (mantissaWidth T) (Z.shiftl 1 mb) in
  if (mantissa n =? 0) || (exponent n <? exponentSubnormalMin T) then
    zero T (negative n)
  else if exponentMax T <? exponent n then
    infinity T (negative n)
  else if negb (Z.land (mantissa n) leading =? 0) then
    let normalizedMantissa :=
      Z.land (mantissa n) (wrapU (mantissaWidth T) (Z.lnot leading)) in
    _ <- assert (exponent n <=? exponentMax T) ;;
    _ <- assert (exponentMin T <=? exponent n) ;;
    biased <- int_arith (exponent n + exponentBase T) ;;
    _ <- assert (negb (biased =? 0)) ;;
    number T (negative n) normalizedMantissa (toExponent T biased)
  else
    _ <- assert (exponent n =? exponentSubnormalBase T) ;;
    number T (negative n) (mantissa n) 0.

(** ** Exponent-base conversion *)

(** The three variables the conversion loops update in place. *)
Record ConvState : Type := mkConv {
  varmantissa : Z;   (* ReducedMantissa *)
  tenexponent : Z;   (* Exponent *)
  twoexponent : Z    (* Exponent *)
}.

(** [decreaseTenExponent<tenFactor, twoFactor>]. *)
Fixpoint decreaseTenExponent (T : IEEE754Traits) (tenFactor twoFactor : Z)
    (fuel : nat) (s : ConvState) : outcome ConvState :=
  let R := reducedWidth T in
  let tenMultiplier := power R 10 (Z.to_nat tenFactor) in
  let twoMultiplier := wrapU R (Z.shiftl 1 twoFactor) in
  if tenFactor <=? tenexponent s then
    match fuel with
    | O => OutOfFuel
    | S fuel' =>
        let multiply (v two : Z) : outcome ConvState :=
          ten' <- eadd T (tenexponent s) (- tenFactor) ;;
          decreaseTenExponent T tenFactor twoFactor fuel'
            (mkConv (wrapU R (v * tenMultiplier)) ten' two) in
        if umax R / twoMultiplier <? varmantissa s then
          reach <- int_arith (twoexponent s + twoFactor) ;;
          if exponentMax T <? reach then
            inf <- eadd T (exponentMax T) 1 ;;
            Done (mkConv 1 0 inf)
          else
            two' <- eadd T (twoexponent s) twoFactor ;;
            multiply (divideBy R (varmantissa s) twoMultiplier) two'
        else multiply (varmantissa s) (twoexponent s)
    end
  else Done s.

(** How the inner loop of [increaseTenExponent] ends: its condition became
    false, or the function returned from inside it. *)
Inductive loopExit : Type :=
| Fallthrough (v two : Z)
| Returned (s : ConvState).

(** The inner [while] of [increaseTenExponent]: make room on the left. *)
Fixpoint increaseRoom (T : IEEE754Traits) (twoFactor : Z)
    (fuel : nat) (v two : Z) : outcome loopExit :=
  let R := reducedWidth T in
  let twoMultiplier := wrapU R (Z.shiftl 1 twoFactor) in
  if v <=? umax R / twoMultiplier then
    match fuel with
    | O => OutOfFuel
    | S fuel' =>
        floor <- int_arith (exponentSubnormalMin T - reducedWidth T) ;;
        bound <- int_arith (floor + two) ;;
        if two <? bound then Done (Returned (mkConv 0 0 0))
        else
          two' <- eadd T two (- twoFactor) ;;
          increaseRoom T twoFactor fuel' (wrapU R (v * twoMultiplier)) two'
    end
  else Done (Fallthrough v two).

(** [increaseTenExponent<tenFactor, twoFactor>]. *)
Fixpoint increaseTenExponent (T : IEEE754Traits) (tenFactor twoFactor : Z)
    (fuel : nat) (s : ConvState) : outcome ConvState :=
  let R := reducedWidth T in
  let tenMultiplier := power R 10 (Z.to_nat tenFactor) in
  if tenexponent s <=? - tenFactor then
    match fuel with
    | O => OutOfFuel
    | S fuel' =>
        room <- increaseRoom T twoFactor fuel (varmantissa s) (twoexponent s) ;;
        match room with
        | Returned s' => Done s'
        | Fallthrough v two =>
            ten' <- eadd T (tenexponent s) tenFactor ;;
            increaseTenExponent T tenFactor twoFactor fuel'
              (mkConv (divideBy R v tenMultiplier) ten' two)
        end
    end
  else Done s.

(** First normalization loop of [convertTwobase]: keep at most
    [mantissaBits + 1] bits. *)
Fixpoint reduceMantissa (T : IEEE754Traits) (fuel : nat) (v position : Z)
  : outcome (Z * Z) :=
  let R := reducedWidth T in
  if wrapU R (Z.shiftl 1 (mantissaBits T + 1)) <=? v then
    match fuel with
    | O => OutOfFuel
    | S fuel' =>
        position' <- eadd T position 1 ;;
        reduceMantissa T fuel' (divideBy R v 2) position'
    end
  else Done (v, position).

(** Second normalization loop: bring the leading bit to position
    [mantissaBits], unless the exponent limit is hit first. *)
Fixpoint alignMantissa (T : IEEE754Traits) (fuel : nat) (two v position : Z)
  : outcome (Z * Z) :=
  let R := reducedWidth T in
  let topBit := wrapU (mantissaWidth T) (Z.shiftl 1 (mantissaBits T)) in
  if v <? topBit then
    reach <- int_arith (two + position) ;;
    if exponentMin T <? reach then
      match fuel with
      | O => OutOfFuel
      | S fuel' =>
          position' <- eadd T position (- 1) ;;
          alignMantissa T fuel' two (wrapU R (v * 2)) position'
      end
    else Done (v, position)
  else Done (v, position).

(** Third normalization loop: shift right up to the minimum exponent. *)
Fixpoint raiseExponent (T : IEEE754Traits) (fuel : nat) (v two : Z)
  : outcome (Z * Z) :=
  let R := reducedWidth T in
  if two <? exponentMin T then
    match fuel with
    | O => OutOfFuel
    | S fuel' =>
        two' <- eadd T two 1 ;;
        raiseExponent T fuel' (divideBy R v 2) two'
    end
  else Done (v, two).

(** [IEEE754Number<N, 10>::convertTwobase]. *)
Definition convertTwobase (T : IEEE754Traits) (fuel : nat) (d : IEEE754Number)
  : outcome IEEE754Number :=
  let s0 := mkConv (wrapU (reducedWidth T) (mantissa d)) (exponent d) 0 in
  s <- (if 0 <? tenexponent s0 then
          s1 <- decreaseTenExponent T 9 30 fuel s0 ;;
          s2 <- decreaseTenExponent T 6 20 fuel s1 ;;
          s3 <- decreaseTenExponent T 3 10 fuel s2 ;;
          decreaseTenExponent T 1 4 fuel s3
        else if tenexponent s0 <? 0 then
          s1 <- increaseTenExponent T 9 30 fuel s0 ;;
          s2 <- increaseTenExponent T 6 20 fuel s1 ;;
          s3 <- increaseTenExponent T 3 10 fuel s2 ;;
          increaseTenExponent T 1 4 fuel s3
        else Done s0) ;;
  _ <- assert (tenexponent s =? 0) ;;
  if varmantissa s =? 0 then Done (mkNumber (negative d) 0 0)
  else
    '(v1, position1) <- reduceMantissa T fuel (varmantissa s) (mantissaBits T) ;;
    '(v2, position2) <- alignMantissa T fuel (twoexponent s) v1 position1 ;;
    two <- eadd T (twoexponent s) position2 ;;
    '(v3, two3) <- raiseExponent T fuel v2 two ;;
    Done (mkNumber (negative d) (wrapU (mantissaWidth T) v3) two3).

(** ** NumericalParser *)

(** The parser is generic over the character type; only the numeric codes of
    the characters are inspected, so a text is the list of its codes. *)
Definition text : Type := list Z.

Definition codes (s : string) : text :=
  map (fun a => Z.of_N (N_of_ascii a)) (list_ascii_of_string s).

Definition isDigit (c : Z) : bool := (48 <=? c) && (c <=? 57).
Definition isSign (c : Z) : bool := (c =? 43) || (c =? 45).

(** [operator[](i)] inside the span, the sentinel 0 at its end. *)
Definition charAt (s : text) (i : nat) : Z := nth i s 0.

(** What one round of a scanning loop does: go on, or return. *)
Inductive step (St Res : Type) : Type :=
| Continue (s : St)
| Return (r : Res).
Arguments Continue {St Res} s.
Arguments Return {St Res} r.

(** The local variables of [parseMantissa]. *)
Record MantissaState : Type := mkMState {
  m_mantissa : Z;
  m_exponent : Z;
  m_negative : bool;
  stopExponent : bool;
  stopMantissa : bool;
  digits : bool
}.

Definition parseError : nat * IEEE754Number := (O, mkNumber false 0 0).

(** The [case '0' ... '9'] block of [parseMantissa]. *)
Definition parseMantissa_digit (T : IEEE754Traits) (c : Z) (st : MantissaState)
  : outcome MantissaState :=
  let M := mantissaWidth T in
  let digit := c - 48 in
  let tooLarge :=
    negb (stopMantissa st) && (umax M / 10 <=? m_mantissa st) &&
    ((umax M / 10 <? m_mantissa st) ||
     ((m_mantissa st =? umax M / 10) &&
      ((umax M - digit) / 10 <? m_mantissa st))) in
  let justStoppedMantissa := tooLarge in
  let stop := stopMantissa st || tooLarge in
  '(mantissa1, exponent1) <-
    (if negb stop then
       Done (wrapU M (wrapU M (m_mantissa st * 10) + digit), m_exponent st)
     else
       e1 <- eadd T (m_exponent st) 1 ;;
       if justStoppedMantissa &&
          ((5 <? digit) ||
           ((digit =? 5) && negb (Z.land (m_mantissa st) 1 =? 0)))
       then
         let incremented := wrapU M (m_mantissa st + 1) in
         if incremented =? 0 then
           e2 <- eadd T e1 1 ;;
           Done (if 5 <=? umax M mod 10 + 1
                 then wrapU M (umax M / 10 + 1) else umax M / 10, e2)
         else Done (incremented, e1)
       else Done (m_mantissa st, e1)) ;;
  exponent2 <- (if stopExponent st then eadd T exponent1 (- 1) else Done exponent1) ;;
  Done (mkMState mantissa1 exponent2 (m_negative st) (stopExponent st) stop true).

(** One round of the [for] loop of [parseMantissa], at index [i] on
    character [c]. *)
Definition parseMantissa_step (T : IEEE754Traits) (i : nat) (c : Z)
    (st : MantissaState) : outcome (step MantissaState (nat * IEEE754Number)) :=
  if isDigit c then
    st' <- parseMantissa_digit T c st ;; Done (Continue st')
  else if isSign c then
    if negb (Nat.eqb i 0) then Done (Return parseError)
    else Done (Continue (mkMState (m_mantissa st) (m_exponent st) (c =? 45)
                           (stopExponent st) (stopMantissa st) (digits st)))
  else if c =? 46 then
    if stopExponent st then Done (Return parseError)
    else Done (Continue (mkMState (m_mantissa st) (m_exponent st) (m_negative st)
                           true (stopMantissa st) (digits st)))
  else
    if negb (digits st) then Done (Return parseError)
    else Done (Return (i, mkNumber (m_negative st) (m_mantissa st) (m_exponent st))).

(** The [for (i = 0; i <= size(); i++)] loop of [parseMantissa], from index
    [i] with [rest] the characters still ahead; falling out of the loop
    reaches [assert(!"Unreachable code")]. *)
Fixpoint parseMantissa_from (T : IEEE754Traits) (i : nat) (rest : text)
    (st : MantissaState) : outcome (nat * IEEE754Number) :=
  match rest with
  | [] =>
      r <- parseMantissa_step T i 0 st ;;
      match r with
      | Return x => Done x
      | Continue _ => AssertFailed
      end
  | c :: rest' =>
      r <- parseMantissa_step T i c st ;;
      match r with
      | Return x => Done x
      | Continue st' => parseMantissa_from T (S i) rest' st'
      end
  end.

Definition parseMantissa (T : IEEE754Traits) (s : text)
  : outcome (nat * IEEE754Number) :=
  parseMantissa_from T O s (mkMState 0 0 false false false false).

(** One round of the [for] loop of [parseExponent]; the state is
    [(exponent, negative)]. *)
Definition parseExponent_step (T : IEEE754Traits) (i : nat) (c : Z)
    (st : Z * bool) : outcome (step (Z * bool) (nat * Z)) :=
  let '(exponent, negative) := st in
  if isDigit c then
    let digit := c - 48 in
    limit <- int_arith (Exponent_max T / 10 - 1) ;;
    overflow <-
      (if limit <=? exponent then
         if Exponent_max T / 10 <? exponent then Done true
         else
           scaled <- int_arith (exponent * 10) ;;
           room <- int_arith (Exponent_max T - digit) ;;
           Done (room <? scaled)
       else Done false) ;;
    if overflow : bool then Done (Return (O, 0))
    else
      e1 <- int_arith (exponent * 10) ;;
      e2 <- eadd T (toExponent T e1) digit ;;
      Done (Continue (e2, negative))
  else if isSign c then
    if negb (Nat.eqb i 0) then Done (Return (O, 0))
    else Done (Continue (exponent, c =? 45))
  else
    if negb negative then Done (Return (i, exponent))
    else
      opposite <- int_arith (- exponent) ;;
      Done (Return (i, toExponent T opposite)).

Fixpoint parseExponent_from (T : IEEE754Traits) (i : nat) (rest : text)
    (st : Z * bool) : outcome (nat * Z) :=
  match rest with
  | [] =>
      r <- parseExponent_step T i 0 st ;;
      match r with
      | Return x => Done x
      | Continue _ => AssertFailed
      end
  | c :: rest' =>
      r <- parseExponent_step T i c st ;;
      match r with
      | Return x => Done x
      | Continue st' => parseExponent_from T (S i) rest' st'
      end
  end.

Definition parseExponent (T : IEEE754Traits) (s : text) : outcome (nat * Z) :=
  parseExponent_from T O s (0, false).

(** [parseMantissaExponent]. *)
Definition parseMantissaExponent (T : IEEE754Traits) (s : text)
  : outcome (nat * IEEE754Number) :=
  '(parsed, number) <- parseMantissa T s ;;
  if Nat.eqb parsed 0 then Done parseError
  else
    let c := charAt s parsed in
    if (c =? 101) || (c =? 69) then
      let parsed1 := S parsed in
      '(parsedExponent, explicitExponent) <- parseExponent T (skipn parsed1 s) ;;
      if Nat.eqb parsedExponent 0 then Done parseError
      else
        e <- eadd T (exponent number) explicitExponent ;;
        Done ((parsed1 + parsedExponent)%nat,
              mkNumber (negative number) (mantissa number) e)
    else Done (parsed, number).

(** [toLower]. *)
Definition toLower (c : Z) : Z :=
  if (65 <=? c) && (c <=? 90) then c + 97 - 65 else c.

(** [operator==(const char (&str)[N])]: same length and equal characters
    once both sides are lowered. *)
Fixpoint equalsLowered (s str : text) : bool :=
  match s, str with
  | [], [] => true
  | c :: s', d :: str' => (toLower c =? toLower d) && equalsLowered s' str'
  | _, _ => false
  end.

Definition equalsIgnoreCase (s : text) (str : string) : bool :=
  equalsLowered s (codes str).

(** [toAnyDouble]: the value is the bit pattern that [toFloat] reinterprets,
    paired with the final content of the [error] out-parameter. *)
Definition toAnyDouble (T : IEEE754Traits) (fuel : nat) (s : text)
  : outcome (Z * bool) :=
  '(parsed, number) <- parseMantissaExponent T s ;;
  let error := negb (Nat.eqb parsed (List.length s)) in
  if negb error then
    b <- convertTwobase T fuel number ;;
    bits <- toIEEE754 T b ;;
    Done (bits, error)
  else if equalsIgnoreCase s "Inf" || equalsIgnoreCase s "+Inf" then
    bits <- infinity T false ;; Done (bits, false)
  else if equalsIgnoreCase s "-Inf" then
    bits <- infinity T true ;; Done (bits, false)
  else if equalsIgnoreCase s "NaN" then
    bits <- nan T ;; Done (bits, false)
  else Done (0, error).

(** [toDouble(bool& error)] at the default [N = double]. *)
Definition toDouble (fuel : nat) (s : text) : outcome (Z * bool) :=
  toAnyDouble Traits_double fuel s.

(** [toDouble(double defaultValue)]: the value of [toDouble(error)], or
    [defaultValue] when the error flag is set.  Values are bit patterns. *)
Definition toDoubleOr (fuel : nat) (s : text) (defaultValue : Z) : outcome Z :=
  '(value, error) <- toDouble fuel s ;;
  Done (if negb error then value else defaultValue).

(** ** The test helpers of [IEEE754Tests.h] *)

(** [toMantissaExponent]: the parsed number, the consumed length dropped. *)
Definition toMantissaExponent (s : string) : outcome IEEE754Number :=
  '(_, number) <- parseMantissaExponent Traits_double (codes s) ;; Done number.

(** [toIEEE754Double]: [toMantissaExponent(s).convertTwobase().toIEEE754()]. *)
Definition toIEEE754Double (fuel : nat) (s : string) : outcome Z :=
  d <- toMantissaExponent s ;;
  b <- convertTwobase Traits_double fuel d ;;
  toIEEE754 Traits_double b.

(** ** Notions used to state the properties *)

(** The static assertions of [IEEE754BinaryNumber], with the room the
    conversion needs in [Mantissa], [ReducedMantissa] and [Exponent]. *)
Record wfTraits (T : IEEE754Traits) : Prop := mkWf {
  wf_mantissaBits : 0 < mantissaBits T;
  wf_exponentBits : 1 < exponentBits T;
  wf_integer : integerWidth T = mantissaBits T + exponentBits T + 1;
  wf_mantissa : mantissaBits T + 1 <= mantissaWidth T;
  wf_mantissa_integer : mantissaWidth T <= integerWidth T;
  wf_reduced : mantissaWidth T < reducedWidth T;
  wf_exponent : exponentBits T < exponentWidth T <= intBits;
  wf_subnormal : mantissaBits T + 2 ^ (exponentBits T - 1) <= 2 ^ (exponentWidth T - 1)
}.

(** The pattern [sign | exponentField | mantissaField] written as a sum. *)
Definition encode (T : IEEE754Traits) (neg : bool) (E M : Z) : Z :=
  (if neg then 1 else 0) * 2 ^ (mantissaBits T + exponentBits T)
  + E * 2 ^ mantissaBits T + M.

(** The invariant of the numbers the packer is meant for. *)
Record normalized (T : IEEE754Traits) (n : IEEE754Number) : Prop := mkNormalized {
  norm_mantissa : 0 <= mantissa n < 2 ^ (mantissaBits T + 1);
  norm_exponent : exponentMin T <= exponent n;
  norm_subnormal :
    Z.testbit (mantissa n) (mantissaBits T) = false ->
    mantissa n = 0 \/ exponent n = exponentSubnormalBase T
}.

(** The numbers on which no assertion of the packer is in play (zero,
    underflow, overflow) or all of them hold (normalized numbers). *)
Definition packable (T : IEEE754Traits) (n : IEEE754Number) : Prop :=
  mantissa n = 0 \/ exponent n < exponentSubnormalMin T \/
  exponentMax T < exponent n \/ normalized T n.

(** The case analysis of the packer: the exponent field and the mantissa
    field it is to produce. *)
Definition packedFields (T : IEEE754Traits) (n : IEEE754Number) : Z * Z :=
  if (mantissa n =? 0) || (exponent n <? exponentSubnormalMin T) then (0, 0)
  else if exponentMax T <? exponent n then (2 ^ exponentBits T - 1, 0)
  else if Z.testbit (mantissa n) (mantissaBits T)
       then (exponent n + exponentBase T, mantissa n - 2 ^ mantissaBits T)
  else (0, mantissa n).

(** The spellings [toAnyDouble] falls back to. *)
Definition isInfinityLiteral (s : text) : bool :=
  equalsIgnoreCase s "Inf" || equalsIgnoreCase s "+Inf".
Definition isNegativeInfinityLiteral (s : text) : bool := equalsIgnoreCase s "-Inf".
Definition isNaNLiteral (s : text) : bool := equalsIgnoreCase s "NaN".
Definition isLiteral (s : text) : bool :=
  isInfinityLiteral s || isNegativeInfinityLiteral s || isNaNLiteral s.

(** The pattern the claim expects for each spelling. *)
Definition literalPattern (T : IEEE754Traits) (s : text) : Z :=
  if isInfinityLiteral s then encode T false (2 ^ exponentBits T - 1) 0
  else if isNegativeInfinityLiteral s then encode T true (2 ^ exponentBits T - 1) 0
  else encode T false (2 ^ exponentBits T - 1) 1.

(** The numeric grammar consumes the whole input. *)
Definition consumesAll (T : IEEE754Traits) (s : text) : Prop :=
  exists n, parseMantissaExponent T s = Done (List.length s, n).

(** [a] is of strictly smaller magnitude than [b], both read in base 10. *)
Definition decimalLess (a b : IEEE754Number) : bool :=
  let e := Z.min (exponent a) (exponent b) in
  mantissa a * 10 ^ (exponent a - e) <? mantissa b * 10 ^ (exponent b - e).

(** The value of a run of digit characters read after the value [acc]. *)
Definition digitsValue (acc : Z) (ds : text) : Z :=
  fold_left (fun a c => a * 10 + (c - 48)) ds acc.

(** The shape of a decimal literal: an optional sign, the digits before the
    point, an optional point and the digits after it. *)
Definition signText (sg : option bool) : text :=
  match sg with
  | None => []
  | Some false => [43]
  | Some true => [45]
  end.

Definition isNegativeSign (sg : option bool) : bool :=
  match sg with
  | Some true => true
  | _ => false
  end.

Definition dotText (hasDot : bool) : text := if hasDot then [46] else [].

Definition decimalText (sg : option bool) (intPart : text) (hasDot : bool)
    (fracPart : text) : text :=
  signText sg ++ intPart ++ dotText hasDot ++ fracPart.

(** A character that ends the mantissa: no digit, no sign, no point. *)
Definition terminator (c : Z) : bool :=
  negb (isDigit c) && negb (isSign c) && negb (c =? 46).

(** The text ends, or goes on with a terminator. *)
Definition terminated (tail : text) : bool :=
  match tail with
  | [] => true
  | c :: _ => terminator c
  end.

(** The range of the variables the conversion loops work on:
    [varmantissa] in [ReducedMantissa], [twoexponent] in [Exponent]. *)
Definition inRange (T : IEEE754Traits) (s : ConvState) : Prop :=
  0 <= varmantissa s < 2 ^ reducedWidth T /\
  - 2 ^ (exponentWidth T - 1) <= twoexponent s < 2 ^ (exponentWidth T - 1).

(** What the loops of [increaseTenExponent] keep of the decimal number
    [m * 10 ^ e] they started from, with [K] the decimal exponent already
    taken and [N] the binary exponent given: the extended mantissa stays
    nonzero and in its type, it is at most [m * 2 ^ N / 10 ^ K] up to a
    relative error of [2 * K / 2 ^ (reducedWidth - 60)], and [2 ^ N] is at
    most [16 ^ K] times it. *)
Definition tracks (T : IEEE754Traits) (m e : Z) (s : ConvState) : Prop :=
  let Q := 2 ^ (reducedWidth T - 60) in
  let K := tenexponent s - e in
  let N := - twoexponent s in
  e <= tenexponent s <= 0 /\ 0 <= N /\
  1 <= varmantissa s < 2 ^ reducedWidth T /\
  varmantissa s * 10 ^ K * Q <= m * 2 ^ N * (Q + 2 * K) /\
  2 ^ N <= varmantissa s * 2 ^ (4 * K) /\
  (K = 0 \/ Q <= varmantissa s).

(** * Properties *)

(** ** The outcome monad *)

Lemma bind_Done {A B : Type} (m : outcome A) (k : A -> outcome B) (b : B) :
  bind m k = Done b -> exists a, m = Done a /\ k a = Done b.
Proof. destruct m; simpl; intros H; try discriminate. eauto. Qed.

Lemma assert_Done (b : bool) (u : unit) : assert b = Done u -> b = true.
Proof. destruct b; simpl; [reflexivity | discriminate]. Qed.

Lemma int_arith_Done (z r : Z) :
  int_arith z = Done r -> r = z /\ INT_MIN <= z <= INT_MAX.
Proof.
  unfold int_arith. destruct (andb _ _) eqn:E; intros H; inversion H; subst.
  apply andb_true_iff in E. destruct E as [E1 E2].
  apply Z.leb_le in E1. apply Z.leb_le in E2. auto.
Qed.

Lemma int_arith_in_range (z : Z) :
  INT_MIN <= z <= INT_MAX -> int_arith z = Done z.
Proof.
  intros [H1 H2]. unfold int_arith.
  apply Z.leb_le in H1. apply Z.leb_le in H2. now rewrite H1, H2.
Qed.

Lemma wrapU_small (w z : Z) : 0 <= z < 2 ^ w -> wrapU w z = z.
Proof. intros H. unfold wrapU. now apply Z.mod_small. Qed.

Lemma pow2_pos (k : Z) : 0 <= k -> 0 < 2 ^ k.
Proof. intros H. apply Z.pow_pos_nonneg; lia. Qed.

Lemma pow2_lt (a b : Z) : 0 <= a < b -> 2 ^ a < 2 ^ b.
Proof. intros H. apply Z.pow_lt_mono_r; lia. Qed.

Lemma pow2_le (a b : Z) : 0 <= a <= b -> 2 ^ a <= 2 ^ b.
Proof. intros H. apply Z.pow_le_mono_r; lia. Qed.

Lemma pow2_succ (k : Z) : 0 <= k -> 2 ^ (k + 1) = 2 * 2 ^ k.
Proof. intros H. rewrite Z.pow_add_r by lia. lia. Qed.

(** ** C1: divideBy *)

(** Away from the half-way remainder [divideBy] is the truncating division. *)
Lemma divideBy_off_half (w n d : Z) :
  n mod d <> d / 2 -> divideBy w n d = n / d.
Proof.
  intros H. unfold divideBy.
  destruct (n mod d =? d / 2) eqn:E; [apply Z.eqb_eq in E; contradiction | reflexivity].
Qed.

(** Every remainder above the half is truncated, where round-half-to-even
    goes up. *)
Lemma divideBy_above_half (w n d : Z) :
  0 < d -> d < 2 * (n mod d) ->
  divideBy w n d = n / d /\ roundHalfEven n d = n / d + 1.
Proof.
  intros Hd Hr. split.
  - apply divideBy_off_half. Z.div_mod_to_equations. lia.
  - unfold roundHalfEven.
    replace (2 * (n mod d) <? d) with false by (symmetry; apply Z.ltb_ge; lia).
    replace (d <? 2 * (n mod d)) with true by (symmetry; apply Z.ltb_lt; lia).
    reflexivity.
Qed.

Lemma land_1_even (q : Z) : (Z.land q 1 =? 0) = Z.even q.
Proof.
  change 1 with (Z.ones 1). rewrite Z.land_ones by lia.
  change (2 ^ 1) with 2.
  destruct (Z.even q) eqn:E.
  - apply Z.even_spec in E. destruct E as [k ->].
    apply Z.eqb_eq. Z.div_mod_to_equations. lia.
  - rewrite <- Z.negb_odd in E. apply negb_false_iff in E.
    apply Z.odd_spec in E. destruct E as [k ->].
    apply Z.eqb_neq. Z.div_mod_to_equations. lia.
Qed.

(** With an even divisor and a remainder of at most the half, [divideBy]
    is round-half-to-even. *)
Lemma divideBy_at_most_half (w n d : Z) :
  0 <= n < 2 ^ w -> 0 < d -> Z.even d = true -> 2 * (n mod d) <= d ->
  divideBy w n d = roundHalfEven n d.
Proof.
  intros Hn Hd Heven Hr.
  apply Z.even_spec in Heven. destruct Heven as [h Hh].
  assert (Hhalf : d / 2 = h) by (Z.div_mod_to_equations; lia).
  unfold divideBy, roundHalfEven. rewrite Hhalf.
  destruct (n mod d =? h) eqn:E; cbn [negb].
  - apply Z.eqb_eq in E.
    replace (2 * (n mod d) <? d) with false by (symmetry; apply Z.ltb_ge; lia).
    replace (d <? 2 * (n mod d)) with false by (symmetry; apply Z.ltb_ge; lia).
    rewrite land_1_even.
    destruct (Z.even (n / d)); cbn [negb]; [reflexivity |].
    apply wrapU_small. Z.div_mod_to_equations. nia.
  - apply Z.eqb_neq in E.
    replace (2 * (n mod d) <? d) with true by (symmetry; apply Z.ltb_lt; lia).
    reflexivity.
Qed.

(** C1 (failing input): on [number = 3], [divisor = 4] the quotient 3/4 is
    nearer to 1 than to 0, and round-half-to-even gives 1; [divideBy] returns
    0, because every remainder other than [divisor / 2] is truncated.  On
    the odd divisor 3 the remainder [1 = 3 / 2] is taken for a half and 4/3
    goes up to 2. *)
Theorem divideBy_not_nearest :
  divideBy 128 3 4 = 0 /\ roundHalfEven 3 4 = 1 /\
  divideBy 128 4 3 = 2 /\ roundHalfEven 4 3 = 1.
Proof. repeat split; reflexivity. Qed.

(** ** The mantissa overflow boundary of the lexer: a tie *)

(** A dropped digit 5 after an even mantissa leaves the mantissa as it is. *)
Lemma parseMantissaExponent_tie_to_even :
  parseMantissaExponent Traits_double (codes "100000000000000011105")
    = Done (21%nat, mkNumber false 10000000000000001110 1).
Proof. vm_compute; reflexivity. Qed.

(** ** C10: the empty input *)

(** C10: on the empty input the lexer returns consumed length 0, which is
    also the length of the input, so the full conversion reports no error
    and returns the pattern of +0.0, whatever the fuel. *)
Theorem toDouble_empty (fuel : nat) :
  parseMantissaExponent Traits_double [] = Done (O, mkNumber false 0 0) /\
  toDouble fuel [] = Done (0, false) /\
  toAnyDouble Traits_float fuel [] = Done (0, false).
Proof. repeat split; reflexivity. Qed.

(** ** C3: parseExponent *)

(** C3 (failing input): a sign with no digit after it is accepted as the
    exponent 0, with consumed length 1; the literal [1e+] is consumed whole
    and converted to 1.0 without error. *)
Theorem parseExponent_sign_without_digits (T : IEEE754Traits) :
  parseExponent T (codes "+") = Done (1%nat, 0) /\
  parseExponent Traits_double (codes "-") = Done (1%nat, 0) /\
  parseExponent Traits_float (codes "-") = Done (1%nat, 0) /\
  parseMantissaExponent Traits_double (codes "1e+")
    = Done (3%nat, mkNumber false 1 0) /\
  toDouble 64 (codes "1e+") = Done (0x3FF0000000000000, false).
Proof. repeat split; vm_compute; reflexivity. Qed.

(** The other half of the claim holds at the boundary of [int32_t]: the
    largest exponent is read, the next one is refused. *)
Lemma parseExponent_range_boundary :
  parseExponent Traits_double (codes "2147483647") = Done (10%nat, 2147483647) /\
  parseExponent Traits_double (codes "2147483648") = Done (O, 0) /\
  parseExponent Traits_double (codes "-2147483648") = Done (O, 0) /\
  parseExponent Traits_float (codes "32767") = Done (5%nat, 32767) /\
  parseExponent Traits_float (codes "32768") = Done (O, 0).
Proof. repeat split; vm_compute; reflexivity. Qed.

(** ** C6: the NaN constructor *)

(** C6 (counterexample): the most significant bit of the mantissa field of
    [nan()], the quiet bit, is clear. *)
Lemma nan_quiet_bit_clear :
  exists bits, nan Traits_double = Done bits /\
    Z.testbit bits (mantissaBits Traits_double - 1) = false.
Proof. eexists; split; [vm_compute; reflexivity | reflexivity]. Qed.

(** C6 (amended): [nan()] returns one pattern, with the sign clear, the
    exponent field all ones and the mantissa field equal to 1: its least
    significant bit is the only one set. *)
Theorem nan_pattern :
  nan Traits_double = Done 0x7FF0000000000001 /\
  signField Traits_double 0x7FF0000000000001 = 0 /\
  exponentField Traits_double 0x7FF0000000000001 = 2 ^ exponentBits Traits_double - 1 /\
  mantissaField Traits_double 0x7FF0000000000001 = 1 /\
  nan Traits_float = Done 0x7F800001 /\
  signField Traits_float 0x7F800001 = 0 /\
  exponentField Traits_float 0x7F800001 = 2 ^ exponentBits Traits_float - 1 /\
  mantissaField Traits_float 0x7F800001 = 1.
Proof. repeat split; vm_compute; reflexivity. Qed.

(** ** C4: the minimal positive subnormal double *)

(** C4 (counterexample): the literal [4E-324] is of strictly smaller
    positive magnitude than [4.9406564584124654E-324], and it is converted
    to the pattern 0x1 all the same, not to 0x0. *)
Lemma smaller_literal_not_zero :
  exists small least,
    toMantissaExponent "4E-324" = Done small /\
    toMantissaExponent "4.9406564584124654E-324" = Done least /\
    0 < mantissa small /\ negative small = false /\
    decimalLess small least = true /\
    toIEEE754Double 256 "4E-324" = Done 0x1.
Proof.
  do 2 eexists.
  split; [vm_compute; reflexivity |].
  split; [vm_compute; reflexivity |].
  repeat split; vm_compute; reflexivity.
Qed.

(** ** C2: termination of the conversion *)

Lemma increaseRoom_unfold (T : IEEE754Traits) (twoFactor : Z) (fuel : nat) (v two : Z) :
  increaseRoom T twoFactor (S fuel) v two =
  if v <=? umax (reducedWidth T) / wrapU (reducedWidth T) (Z.shiftl 1 twoFactor) then
    floor <- int_arith (exponentSubnormalMin T - reducedWidth T) ;;
    bound <- int_arith (floor + two) ;;
    if two <? bound then Done (Returned (mkConv 0 0 0))
    else
      two' <- eadd T two (- twoFactor) ;;
      increaseRoom T twoFactor fuel
        (wrapU (reducedWidth T) (v * wrapU (reducedWidth T) (Z.shiftl 1 twoFactor))) two'
  else Done (Fallthrough v two).
Proof. reflexivity. Qed.

Lemma increaseTenExponent_unfold (T : IEEE754Traits) (tenFactor twoFactor : Z)
    (fuel : nat) (s : ConvState) :
  increaseTenExponent T tenFactor twoFactor (S fuel) s =
  if tenexponent s <=? - tenFactor then
    room <- increaseRoom T twoFactor (S fuel) (varmantissa s) (twoexponent s) ;;
    match room with
    | Returned s' => Done s'
    | Fallthrough v two =>
        ten' <- eadd T (tenexponent s) tenFactor ;;
        increaseTenExponent T tenFactor twoFactor fuel
          (mkConv (divideBy (reducedWidth T) v
                     (power (reducedWidth T) 10 (Z.to_nat tenFactor))) ten' two)
    end
  else Done s.
Proof. reflexivity. Qed.

(** The underflow test of [increaseRoom] compares [twoexponent] with itself
    plus a negative constant: it never holds. *)
Lemma underflow_test_never_holds (T : IEEE754Traits) (two floor bound : Z) :
  exponentSubnormalMin T - reducedWidth T <= 0 ->
  int_arith (exponentSubnormalMin T - reducedWidth T) = Done floor ->
  int_arith (floor + two) = Done bound ->
  (two <? bound) = false.
Proof.
  intros Hneg Hf Hb.
  apply int_arith_Done in Hf. destruct Hf as [-> _].
  apply int_arith_Done in Hb. destruct Hb as [-> _].
  apply Z.ltb_ge. lia.
Qed.

(** With a zero mantissa the inner loop keeps its room for ever: whatever
    the fuel, it does not return. *)
Lemma increaseRoom_zero_never_returns (T : IEEE754Traits) (twoFactor : Z) :
  exponentSubnormalMin T - reducedWidth T <= 0 ->
  0 <= umax (reducedWidth T) / wrapU (reducedWidth T) (Z.shiftl 1 twoFactor) ->
  forall (fuel : nat) (two : Z) (r : loopExit),
    increaseRoom T twoFactor fuel 0 two <> Done r.
Proof.
  intros Hneg Hroom fuel.
  induction fuel as [| fuel IH]; intros two r.
  - simpl. apply Z.leb_le in Hroom. rewrite Hroom. discriminate.
  - rewrite increaseRoom_unfold.
    apply Z.leb_le in Hroom. rewrite Hroom.
    destruct (int_arith (exponentSubnormalMin T - reducedWidth T)) as [floor | | |] eqn:Hf;
      simpl; try discriminate.
    destruct (int_arith (floor + two)) as [bound | | |] eqn:Hb; simpl; try discriminate.
    rewrite (underflow_test_never_holds T two floor bound Hneg Hf Hb).
    destruct (eadd T two (- twoFactor)) as [two' | | |]; simpl; try discriminate.
    apply IH.
Qed.

(** So [increaseTenExponent] on a zero mantissa returns only when its outer
    loop is not entered. *)
Lemma increaseTenExponent_zero (T : IEEE754Traits) (tenFactor twoFactor : Z) :
  exponentSubnormalMin T - reducedWidth T <= 0 ->
  0 <= umax (reducedWidth T) / wrapU (reducedWidth T) (Z.shiftl 1 twoFactor) ->
  forall (fuel : nat) (s r : ConvState),
    varmantissa s = 0 ->
    increaseTenExponent T tenFactor twoFactor fuel s = Done r ->
    r = s /\ - tenFactor < tenexponent s.
Proof.
  intros Hneg Hroom fuel s r Hv H.
  destruct fuel as [| fuel].
  - simpl in H. destruct (tenexponent s <=? - tenFactor) eqn:E; [discriminate |].
    apply Z.leb_gt in E. inversion H; subst. split; [reflexivity | exact E].
  - rewrite increaseTenExponent_unfold in H.
    destruct (tenexponent s <=? - tenFactor) eqn:E.
    + apply bind_Done in H. destruct H as [room [Hroom' _]].
      rewrite Hv in Hroom'.
      exfalso. exact (increaseRoom_zero_never_returns T twoFactor Hneg Hroom _ _ _ Hroom').
    + apply Z.leb_gt in E. inversion H; subst. split; [reflexivity | exact E].
Qed.

(** A loop of [increaseTenExponent] that is not entered changes nothing. *)
Lemma increaseTenExponent_skip (T : IEEE754Traits) (tenFactor twoFactor : Z)
    (fuel : nat) (s : ConvState) :
  - tenFactor < tenexponent s ->
  increaseTenExponent T tenFactor twoFactor fuel s = Done s.
Proof.
  intros H. apply Z.leb_gt in H.
  destruct fuel; simpl; rewrite H; reflexivity.
Qed.

(** For [float] the exponent arithmetic stays inside [int]: the loop on a
    zero mantissa is a plain endless loop. *)
Lemma increaseRoom_float_spins (fuel : nat) :
  forall two, Exponent_min Traits_float <= two <= Exponent_max Traits_float ->
    increaseRoom Traits_float 4 fuel 0 two = OutOfFuel.
Proof.
  induction fuel as [| fuel IH]; intros two Htwo; [reflexivity |].
  rewrite increaseRoom_unfold.
  change (0 <=? umax (reducedWidth Traits_float) /
                wrapU (reducedWidth Traits_float) (Z.shiftl 1 4)) with true.
  change (exponentSubnormalMin Traits_float - reducedWidth Traits_float) with (-213).
  change (int_arith (-213)) with (Done (-213)).
  cbv [Exponent_min Exponent_max exponentWidth Traits_float] in Htwo.
  cbn [bind].
  rewrite (int_arith_in_range (-213 + two)) by (cbv [INT_MIN INT_MAX intBits]; lia).
  cbn [bind].
  replace (two <? -213 + two) with false by (symmetry; apply Z.ltb_ge; lia).
  unfold eadd.
  rewrite (int_arith_in_range (two + - (4))) by (cbv [INT_MIN INT_MAX intBits]; lia).
  cbn [bind].
  change (wrapU (reducedWidth Traits_float)
            (0 * wrapU (reducedWidth Traits_float) (Z.shiftl 1 4))) with 0.
  apply IH.
  unfold toExponent, wrapS, Exponent_min, Exponent_max.
  change (exponentWidth Traits_float) with 16.
  pose proof (Z.mod_pos_bound (two + - (4) + 2 ^ (16 - 1)) (2 ^ 16) ltac:(lia)).
  lia.
Qed.

(** C2 (failing input): the decimal number of mantissa 0 and exponent -1,
    the one the literal [0.0] is parsed to.  For [float] the conversion
    runs out of any fuel; for every format and every negative exponent a
    zero mantissa never makes [convertTwobase] return. *)
Theorem convertTwobase_zero_mantissa_never_returns
    (T : IEEE754Traits) (fuel : nat) (neg : bool) (e : Z) :
  T = Traits_float \/ T = Traits_double ->
  e < 0 ->
  parseMantissaExponent T (codes "0.0") = Done (3%nat, mkNumber false 0 (-1)) /\
  convertTwobase Traits_float fuel (mkNumber false 0 (-1)) = OutOfFuel /\
  (forall r, convertTwobase T fuel (mkNumber neg 0 e) <> Done r).
Proof.
  intros HT He.
  split; [destruct HT as [-> | ->]; vm_compute; reflexivity |].
  split.
  - destruct fuel as [| fuel]; [reflexivity |].
    unfold convertTwobase.
    cbn [mantissa exponent tenexponent].
    change (0 <? -1) with false. change (-1 <? 0) with true.
    cbv iota.
    change (wrapU (reducedWidth Traits_float) 0) with 0.
    do 3 (rewrite increaseTenExponent_skip by (cbn [tenexponent]; lia); cbn [bind]).
    rewrite increaseTenExponent_unfold.
    cbn [tenexponent varmantissa twoexponent].
    replace (-1 <=? - (1)) with true by reflexivity.
    rewrite (increaseRoom_float_spins (S fuel) 0) by (vm_compute; split; discriminate).
    reflexivity.
  - intros r H.
    assert (Hneg : exponentSubnormalMin T - reducedWidth T <= 0)
      by (destruct HT as [-> | ->]; vm_compute; discriminate).
    assert (Hroom : forall w, In w [30; 20; 10; 4] ->
              0 <= umax (reducedWidth T) / wrapU (reducedWidth T) (Z.shiftl 1 w)).
    { intros w Hw. simpl in Hw.
      destruct HT as [-> | ->];
        destruct Hw as [<- | [<- | [<- | [<- | []]]]]; vm_compute; discriminate. }
    unfold convertTwobase in H.
    cbn [mantissa exponent tenexponent negative] in H.
    replace (0 <? e) with false in H by (symmetry; apply Z.ltb_ge; lia).
    replace (e <? 0) with true in H by (symmetry; apply Z.ltb_lt; lia).
    apply bind_Done in H. destruct H as [s [Hs _]].
    apply bind_Done in Hs. destruct Hs as [s1 [H1 Hs]].
    apply bind_Done in Hs. destruct Hs as [s2 [H2 Hs]].
    apply bind_Done in Hs. destruct Hs as [s3 [H3 H4]].
    assert (Hz : wrapU (reducedWidth T) 0 = 0) by reflexivity.
    apply (increaseTenExponent_zero T 9 30 Hneg) in H1;
      [| apply Hroom; simpl; auto | exact Hz].
    destruct H1 as [-> _].
    apply (increaseTenExponent_zero T 6 20 Hneg) in H2;
      [| apply Hroom; simpl; auto | exact Hz].
    destruct H2 as [-> _].
    apply (increaseTenExponent_zero T 3 10 Hneg) in H3;
      [| apply Hroom; simpl; auto | exact Hz].
    destruct H3 as [-> _].
    apply (increaseTenExponent_zero T 1 4 Hneg) in H4;
      [| apply Hroom; simpl; auto 6 | exact Hz].
    destruct H4 as [_ H4]. cbn [tenexponent] in H4. lia.
Qed.

Lemma convertTwobase_zero_mantissa_never_returns_witness :
  (Traits_double = Traits_float \/ Traits_double = Traits_double) /\ -1 < 0 /\
  (forall r, convertTwobase Traits_double 8 (mkNumber false 0 (-1)) <> Done r).
Proof.
  split; [right; reflexivity |].
  split; [lia |].
  apply (convertTwobase_zero_mantissa_never_returns Traits_double 8 false (-1));
    [right; reflexivity | lia].
Defined.

(** ** Bit patterns as sums *)

(** Below [2 ^ k] no bit at or above [k] is set. *)
Lemma testbit_high (k n lo : Z) : 0 <= lo < 2 ^ k -> 0 <= k <= n -> Z.testbit lo n = false.
Proof.
  intros Hlo Hk.
  rewrite <- (Z.mod_small lo (2 ^ k)) by exact Hlo.
  apply Z.mod_pow2_bits_high. exact Hk.
Qed.

(** A low part below [2 ^ k] and a multiple of [2 ^ k] share no bit, so
    their bitwise or is their sum. *)
Lemma lor_disjoint (k hi lo : Z) :
  0 <= k -> 0 <= lo < 2 ^ k -> Z.lor (hi * 2 ^ k) lo = hi * 2 ^ k + lo.
Proof.
  intros Hk Hlo.
  assert (Hand : Z.land (hi * 2 ^ k) lo = 0).
  { apply Z.bits_inj'. intros n Hn.
    rewrite Z.land_spec, Z.bits_0.
    destruct (Z.lt_ge_cases n k) as [Hlt | Hge].
    - rewrite Z.mul_pow2_bits_low by exact Hlt. reflexivity.
    - rewrite (testbit_high k n lo) by (try exact Hlo; lia).
      apply andb_false_r. }
  rewrite (Z.add_nocarry_lxor _ _ Hand).
  symmetry. apply Z.lxor_lor. exact Hand.
Qed.

(** The mask [2 ^ k] selects bit [k]. *)
Lemma land_pow2 (m k : Z) :
  0 <= k -> Z.land m (2 ^ k) = if Z.testbit m k then 2 ^ k else 0.
Proof.
  intros Hk. apply Z.bits_inj'. intros n Hn.
  rewrite Z.land_spec, Z.pow2_bits_eqb by exact Hk.
  destruct (Z.eqb_spec k n) as [<- | Hne].
  - destruct (Z.testbit m k) eqn:E; simpl.
    + rewrite Z.pow2_bits_eqb by exact Hk. now rewrite Z.eqb_refl.
    + now rewrite Z.bits_0.
  - rewrite andb_false_r.
    destruct (Z.testbit m k).
    + rewrite Z.pow2_bits_eqb by exact Hk.
      symmetry. apply Z.eqb_neq. exact Hne.
    + now rewrite Z.bits_0.
Qed.

(** Bit [k] of a value in [[2^k, 2^(k+1))] is set; below [2^k] it is clear. *)
Lemma testbit_top (m k : Z) :
  0 <= k -> 0 <= m < 2 ^ (k + 1) -> Z.testbit m k = (2 ^ k <=? m).
Proof.
  intros Hk Hm.
  pose proof (pow2_pos k Hk) as Hp.
  rewrite pow2_succ in Hm by exact Hk.
  destruct (Z.leb_spec (2 ^ k) m) as [Hge | Hlt].
  - apply Z.testbit_true; [exact Hk |].
    assert (m / 2 ^ k = 1) as ->
      by (symmetry; apply Z.div_unique with (r := m - 2 ^ k); lia).
    reflexivity.
  - apply (testbit_high k k m); lia.
Qed.

(** Masking bit [k] out of a value in [[2^k, 2^(k+1))] subtracts [2^k]. *)
Lemma land_clear_top (m k w : Z) :
  0 <= k < w -> 2 ^ k <= m < 2 ^ (k + 1) ->
  Z.land m (wrapU w (Z.lnot (2 ^ k))) = m - 2 ^ k.
Proof.
  intros Hk Hm.
  pose proof (pow2_pos k ltac:(lia)) as Hp.
  assert (Hlow : 0 <= m - 2 ^ k < 2 ^ k) by (rewrite pow2_succ in Hm; lia).
  apply Z.bits_inj'. intros n Hn.
  unfold wrapU.
  rewrite Z.land_spec.
  destruct (Z.lt_ge_cases n w) as [Hnw | Hnw].
  - rewrite Z.mod_pow2_bits_low by exact Hnw.
    rewrite Z.lnot_spec by exact Hn.
    rewrite Z.pow2_bits_eqb by lia.
    destruct (Z.eqb_spec k n) as [<- | Hne]; cbn [negb].
    + rewrite andb_false_r. symmetry. apply (testbit_high k k); lia.
    + rewrite andb_true_r.
      destruct (Z.lt_ge_cases n k) as [Hlt | Hge].
      * rewrite <- (Z.mod_pow2_bits_low m k n) by exact Hlt.
        replace m with ((m - 2 ^ k) + 1 * 2 ^ k) at 1 by lia.
        rewrite Z.mod_add by lia.
        rewrite Z.mod_small by exact Hlow. reflexivity.
      * rewrite (testbit_high (k + 1) n) by lia.
        symmetry. apply (testbit_high k n); lia.
  - rewrite Z.mod_pow2_bits_high by lia.
    rewrite andb_false_r. symmetry.
    apply (testbit_high k n); lia.
Qed.

(** ** The packer on well-formed traits *)

Section Packer.

Variable T : IEEE754Traits.
Hypothesis Hwf : wfTraits T.

Let mb := mantissaBits T.
Let eb := exponentBits T.

Lemma traits_bounds :
  0 < mb /\ 1 < eb /\ integerWidth T = mb + eb + 1 /\
  mb + 1 <= mantissaWidth T /\ mantissaWidth T <= integerWidth T /\
  mantissaWidth T < reducedWidth T /\ eb < exponentWidth T <= 32.
Proof. destruct Hwf. unfold mb, eb, intBits in *. repeat split; lia. Qed.

Lemma exponentBase_eq : exponentBase T = 2 ^ (eb - 1) - 1.
Proof. unfold exponentBase. rewrite Z.shiftl_1_l. reflexivity. Qed.

Lemma exponentMax_eq : exponentMax T = 2 ^ (eb - 1) - 1.
Proof.
  unfold exponentMax. rewrite exponentBase_eq, Z.shiftl_1_l.
  destruct traits_bounds as (_ & Heb & _).
  fold eb. replace eb with ((eb - 1) + 1) at 1 by lia.
  rewrite pow2_succ by lia. lia.
Qed.

Lemma exponentMin_eq : exponentMin T = 2 - 2 ^ (eb - 1).
Proof. unfold exponentMin. rewrite exponentBase_eq. lia. Qed.

(** The powers of two the proofs compare. *)
Lemma traits_powers :
  2 <= 2 ^ (eb - 1) /\ 2 ^ eb = 2 * 2 ^ (eb - 1) /\
  2 ^ eb <= 2 ^ (exponentWidth T - 1) /\
  2 ^ (exponentWidth T - 1) <= 2 ^ 31 /\
  2 ^ (exponentWidth T) = 2 * 2 ^ (exponentWidth T - 1) /\
  0 < 2 ^ mb /\
  2 ^ (mb + eb) = 2 ^ eb * 2 ^ mb /\
  2 ^ (integerWidth T) = 2 * 2 ^ (mb + eb) /\
  2 ^ (mb + 1) <= 2 ^ (mantissaWidth T) /\
  2 ^ (mantissaWidth T) <= 2 ^ (integerWidth T) /\
  2 ^ (mantissaWidth T) <= 2 ^ (reducedWidth T).
Proof.
  destruct traits_bounds as (Hmb & Heb & HW & Hmw & HmW & Hmr & Hew).
  repeat split.
  - change 2 with (2 ^ 1) at 1. apply pow2_le. lia.
  - replace eb with ((eb - 1) + 1) at 1 by lia. apply pow2_succ. lia.
  - apply pow2_le. lia.
  - apply pow2_le. lia.
  - replace (exponentWidth T) with ((exponentWidth T - 1) + 1) at 1 by lia.
    apply pow2_succ. lia.
  - apply pow2_pos. lia.
  - rewrite Z.pow_add_r by lia. lia.
  - rewrite HW. apply pow2_succ. lia.
  - apply pow2_le. lia.
  - apply pow2_le. lia.
  - apply pow2_le. lia.
Qed.

Lemma toExponent_small (z : Z) :
  - 2 ^ (exponentWidth T - 1) <= z < 2 ^ (exponentWidth T - 1) -> toExponent T z = z.
Proof.
  intros Hz. unfold toExponent, wrapS.
  destruct traits_powers as (_ & _ & _ & _ & Hw & _).
  rewrite Z.mod_small by lia. lia.
Qed.

Lemma toExponent_range (z : Z) :
  - 2 ^ (exponentWidth T - 1) <= toExponent T z < 2 ^ (exponentWidth T - 1).
Proof.
  unfold toExponent, wrapS.
  destruct traits_powers as (_ & _ & _ & _ & Hw & _).
  destruct traits_bounds as (_ & Heb & _ & _ & _ & _ & Hew).
  pose proof (Z.mod_pos_bound (z + 2 ^ (exponentWidth T - 1)) (2 ^ exponentWidth T)
                ltac:(apply pow2_pos; lia)).
  lia.
Qed.

(** [number] on fields that fit: the pattern is the sum of the fields. *)
Lemma number_encode (neg : bool) (E M : Z) :
  0 <= E < 2 ^ eb -> 0 <= M < 2 ^ mb ->
  number T neg M E = Done (encode T neg E M).
Proof.
  intros HE HM.
  destruct traits_bounds as (Hmb & Heb & HW & _).
  destruct traits_powers as (_ & _ & _ & _ & _ & Hpm & Hpme & HpW & _).
  assert (Hpe : 0 < 2 ^ eb) by (apply pow2_pos; lia).
  unfold number, encode. fold mb eb.
  rewrite !Z.shiftl_1_l.
  assert (HEW : wrapU (integerWidth T) E = E) by (apply wrapU_small; nia).
  rewrite HEW, Z.shiftl_mul_pow2 by lia.
  rewrite (wrapU_small _ (E * 2 ^ mb)) by nia.
  rewrite (wrapU_small _ M) by nia.
  rewrite (wrapU_small _ (2 ^ mb)) by nia.
  replace (M <? 2 ^ mb) with true by (symmetry; apply Z.ltb_lt; lia).
  cbn [assert bind]. f_equal.
  rewrite <- Z.lor_assoc.
  rewrite (lor_disjoint mb E M) by lia.
  destruct neg.
  - rewrite (wrapU_small _ (2 ^ (mb + eb))) by nia.
    replace (2 ^ (mb + eb)) with (1 * 2 ^ (mb + eb)) at 1 by lia.
    rewrite (lor_disjoint (mb + eb) 1 (E * 2 ^ mb + M)) by nia. lia.
  - rewrite Z.lor_0_l. lia.
Qed.

(** Reading the fields back. *)
Lemma encode_fields (neg : bool) (E M : Z) :
  0 <= E < 2 ^ eb -> 0 <= M < 2 ^ mb ->
  signField T (encode T neg E M) = (if neg then 1 else 0) /\
  exponentField T (encode T neg E M) = E /\
  mantissaField T (encode T neg E M) = M.
Proof.
  intros HE HM.
  destruct traits_bounds as (Hmb & Heb & HW & _).
  destruct traits_powers as (_ & _ & _ & _ & _ & Hpm & Hpme & HpW & _).
  assert (Hpe : 0 < 2 ^ eb) by (apply pow2_pos; lia).
  unfold signField, exponentField, mantissaField, encode. fold mb eb.
  rewrite !Z.shiftr_div_pow2 by lia.
  set (s := if neg then 1 else 0).
  assert (Hs : 0 <= s <= 1) by (subst s; destruct neg; lia).
  repeat split.
  - symmetry. apply Z.div_unique with (r := E * 2 ^ mb + M); nia.
  - assert ((s * 2 ^ (mb + eb) + E * 2 ^ mb + M) / 2 ^ mb = s * 2 ^ eb + E) as ->
      by (symmetry; apply Z.div_unique with (r := M); nia).
    symmetry. apply Z.mod_unique with (q := s); nia.
  - symmetry. apply Z.mod_unique with (q := s * 2 ^ eb + E); nia.
Qed.

(** The fields of the case analysis fit their widths. *)
Lemma packedFields_range (n : IEEE754Number) :
  packable T n ->
  0 <= fst (packedFields T n) < 2 ^ eb /\ 0 <= snd (packedFields T n) < 2 ^ mb.
Proof.
  intros Hpack.
  destruct traits_bounds as (Hmb & Heb & HW & Hmw & HmW & Hmr & Hew).
  destruct traits_powers as (Hp1 & Hp2 & Hp3 & Hp4 & Hp5 & Hpm & Hpme & HpW & Hpmw & _).
  unfold packedFields. fold mb eb.
  destruct ((mantissa n =? 0) || (exponent n <? exponentSubnormalMin T)) eqn:Hzero;
    [cbn [fst snd]; lia |].
  destruct (exponentMax T <? exponent n) eqn:Hinf; [cbn [fst snd]; lia |].
  apply orb_false_iff in Hzero. destruct Hzero as [Hm0 Hfloor].
  apply Z.eqb_neq in Hm0. apply Z.ltb_ge in Hfloor. apply Z.ltb_ge in Hinf.
  destruct Hpack as [H | [H | [H | [Hm He Hsub]]]]; try lia.
  fold mb in Hm, Hsub.
  rewrite (testbit_top (mantissa n) mb) in * by lia.
  rewrite exponentMax_eq in Hinf. rewrite exponentMin_eq in He.
  rewrite pow2_succ in Hm by lia.
  destruct (2 ^ mb <=? mantissa n) eqn:Htop; cbn [fst snd].
  - apply Z.leb_le in Htop. rewrite exponentBase_eq. lia.
  - apply Z.leb_gt in Htop. lia.
Qed.

(** On a packable number the packer returns, with the fields of its case
    analysis. *)
Lemma toIEEE754_packable (n : IEEE754Number) :
  packable T n ->
  toIEEE754 T n =
    Done (encode T (negative n) (fst (packedFields T n)) (snd (packedFields T n))).
Proof.
  intros Hpack.
  destruct traits_bounds as (Hmb & Heb & HW & Hmw & HmW & Hmr & Hew).
  destruct traits_powers as (Hp1 & Hp2 & Hp3 & Hp4 & Hp5 & Hpm & Hpme & HpW & Hpmw & _).
  assert (Hpe : 0 < 2 ^ eb) by (apply pow2_pos; lia).
  unfold toIEEE754, packedFields. fold mb eb.
  destruct ((mantissa n =? 0) || (exponent n <? exponentSubnormalMin T)) eqn:Hzero.
  { unfold zero. cbn [fst snd]. apply number_encode; lia. }
  apply orb_false_iff in Hzero. destruct Hzero as [Hm0 Hfloor].
  apply Z.eqb_neq in Hm0. apply Z.ltb_ge in Hfloor.
  destruct (exponentMax T <? exponent n) eqn:Hinf.
  { unfold infinity. fold eb. rewrite Z.shiftl_1_l. cbn [fst snd].
    rewrite toExponent_small by lia.
    apply number_encode; lia. }
  apply Z.ltb_ge in Hinf.
  destruct Hpack as [H | [H | [H | [Hm He Hsub]]]]; try lia.
  fold mb in Hm, Hsub.
  rewrite Z.shiftl_1_l.
  rewrite (wrapU_small _ (2 ^ mb)) by (rewrite pow2_succ in Hpmw; lia).
  rewrite land_pow2 by lia.
  rewrite (testbit_top (mantissa n) mb) in * by lia.
  destruct (2 ^ mb <=? mantissa n) eqn:Htop; cbn [fst snd].
  - apply Z.leb_le in Htop.
    replace (2 ^ mb =? 0) with false by (symmetry; apply Z.eqb_neq; lia).
    cbn [negb].
    rewrite land_clear_top by lia.
    rewrite exponentMax_eq in Hinf. rewrite exponentMin_eq in He.
    replace (exponent n <=? exponentMax T) with true
      by (symmetry; apply Z.leb_le; rewrite exponentMax_eq; lia).
    replace (exponentMin T <=? exponent n) with true
      by (symmetry; apply Z.leb_le; rewrite exponentMin_eq; lia).
    cbn [assert bind].
    rewrite int_arith_in_range
      by (rewrite exponentBase_eq; cbv [INT_MIN INT_MAX intBits];
          change (32 - 1) with 31; lia).
    cbn [bind].
    replace (exponent n + exponentBase T =? 0) with false
      by (symmetry; apply Z.eqb_neq; rewrite exponentBase_eq; lia).
    cbn [negb assert bind].
    rewrite toExponent_small by (rewrite exponentBase_eq; lia).
    apply number_encode; [rewrite exponentBase_eq; lia |].
    rewrite pow2_succ in Hm by lia. lia.
  - apply Z.leb_gt in Htop.
    rewrite Z.eqb_refl. cbn [negb].
    destruct (Hsub eq_refl) as [H0 | Hbase]; [contradiction |].
    rewrite Hbase, Z.eqb_refl. cbn [assert bind].
    apply number_encode; lia.
Qed.

End Packer.

Lemma wfTraits_double : wfTraits Traits_double.
Proof. constructor; vm_compute; intuition discriminate. Qed.

Lemma wfTraits_float : wfTraits Traits_float.
Proof. constructor; vm_compute; intuition discriminate. Qed.

(** ** C5: the case analysis of the packer *)

(** C5 (counterexample): the number of mantissa 1 and exponent 0 has a
    nonzero mantissa, an exponent inside the range and a clear leading bit;
    the claim sends it to the subnormal encoding 0x1, the packer stops on
    its assertion that a subnormal has the exponent [exponentSubnormalBase]. *)
Lemma toIEEE754_subnormal_assertion :
  packedFields Traits_double (mkNumber false 1 0) = (0, 1) /\
  toIEEE754 Traits_double (mkNumber false 1 0) = AssertFailed.
Proof. split; reflexivity. Qed.

(** C5 (amended): on every base-2 number that is zero, below the subnormal
    floor, above the maximum exponent or normalized, the packer returns the
    pattern whose sign field is the sign, and whose exponent and mantissa
    fields follow the case analysis: (0, 0) for a zero mantissa or an
    exponent below the floor; (all ones, 0) above the maximum exponent;
    (exponent + bias, mantissa without its leading bit) when bit
    [mantissaBits] is set; (0, mantissa) otherwise. *)
Theorem toIEEE754_case_analysis (T : IEEE754Traits) (n : IEEE754Number) :
  wfTraits T ->
  packable T n ->
  exists bits,
    toIEEE754 T n = Done bits /\
    bits = encode T (negative n) (fst (packedFields T n)) (snd (packedFields T n)) /\
    signField T bits = (if negative n then 1 else 0) /\
    exponentField T bits = fst (packedFields T n) /\
    mantissaField T bits = snd (packedFields T n).
Proof.
  intros Hwf Hpack.
  eexists. split; [apply toIEEE754_packable; assumption |].
  split; [reflexivity |].
  destruct (packedFields_range T Hwf n Hpack) as [HE HM].
  apply encode_fields; assumption.
Qed.

Lemma toIEEE754_case_analysis_witness :
  exists bits,
    toIEEE754 Traits_double (mkNumber true 0x18000000000000 1) = Done bits /\
    bits = 0xC008000000000000 /\
    signField Traits_double bits = 1 /\
    exponentField Traits_double bits = 1024 /\
    mantissaField Traits_double bits = 0x8000000000000.
Proof.
  destruct (toIEEE754_case_analysis Traits_double (mkNumber true 0x18000000000000 1)
              wfTraits_double) as [bits H].
  - right; right; right. constructor; vm_compute; intuition discriminate.
  - exists bits. exact H.
Defined.

(** ** C9: the numbers [convertTwobase] returns *)

Lemma eadd_Done (T : IEEE754Traits) (a b r : Z) :
  eadd T a b = Done r ->
  r = toExponent T (a + b) /\ INT_MIN <= a + b <= INT_MAX.
Proof.
  unfold eadd. intros H. apply bind_Done in H. destruct H as [x [Hx H]].
  apply int_arith_Done in Hx. destruct Hx as [-> Hr]. inversion H. auto.
Qed.

(** Halving with [divideBy] stays between the two halves. *)
Lemma divideBy_2_bounds (R v : Z) :
  1 <= R -> 0 <= v < 2 ^ R -> v / 2 <= divideBy R v 2 <= (v + 1) / 2.
Proof.
  intros HR Hv.
  assert (Hp : 2 ^ R = 2 * 2 ^ (R - 1)).
  { replace R with ((R - 1) + 1) at 1 by lia. apply pow2_succ. lia. }
  unfold divideBy. change (2 / 2) with 1.
  destruct (v mod 2 =? 1) eqn:Hhalf; cbn [negb].
  - apply Z.eqb_eq in Hhalf.
    destruct (Z.land (v / 2) 1 =? 0); cbn [negb].
    + Z.div_mod_to_equations. lia.
    + rewrite wrapU_small by (Z.div_mod_to_equations; lia).
      Z.div_mod_to_equations. lia.
  - Z.div_mod_to_equations. lia.
Qed.

(** [divideBy] stays inside the unsigned type. *)
Lemma divideBy_range (R v d : Z) :
  0 <= R -> 0 <= v < 2 ^ R -> 0 <= d -> 0 <= divideBy R v d < 2 ^ R.
Proof.
  intros HR Hv Hd.
  assert (Hq : 0 <= v / d <= v).
  { destruct (Z.eq_dec d 0) as [-> | Hne].
    - rewrite Z.div_0_r. lia.
    - split; [apply Z.div_pos; lia |].
      apply Z.div_le_upper_bound; [lia | nia]. }
  unfold divideBy.
  destruct (negb (v mod d =? d / 2)); [lia |].
  destruct (negb (Z.land (v / d) 1 =? 0)); [| lia].
  unfold wrapU. apply Z.mod_pos_bound. apply pow2_pos. exact HR.
Qed.

Section Normalization.

Variable T : IEEE754Traits.
Hypothesis Hwf : wfTraits T.

Let mb := mantissaBits T.
Let R := reducedWidth T.

Lemma wrapU_range (z : Z) : 0 <= wrapU R z < 2 ^ R.
Proof.
  unfold wrapU. apply Z.mod_pos_bound. apply pow2_pos.
  destruct (traits_bounds T Hwf) as (? & ? & ? & ? & ? & ? & ?). unfold R. lia.
Qed.

Lemma power_nonneg (t : Z) (k : nat) : 0 <= power R t k.
Proof. destruct k; simpl; [lia | apply wrapU_range]. Qed.

Lemma eadd_range (a b r : Z) : eadd T a b = Done r -> - 2 ^ (exponentWidth T - 1) <= r < 2 ^ (exponentWidth T - 1).
Proof.
  intros H. apply eadd_Done in H. destruct H as [-> _].
  apply toExponent_range. exact Hwf.
Qed.

Lemma decreaseTenExponent_range (tenFactor twoFactor : Z) (fuel : nat) :
  forall s r, inRange T s ->
    decreaseTenExponent T tenFactor twoFactor fuel s = Done r -> inRange T r.
Proof.
  induction fuel as [| fuel IH]; intros s r Hs H; simpl in H;
    destruct (tenFactor <=? tenexponent s); try discriminate;
    try (inversion H; subst; exact Hs).
  destruct (umax (reducedWidth T) / _ <? varmantissa s).
  - apply bind_Done in H. destruct H as [reach [_ H]].
    destruct (exponentMax T <? reach).
    + apply bind_Done in H. destruct H as [inf [Hinf H]].
      inversion H; subst. split; cbn [varmantissa twoexponent].
      * pose proof (wrapU_range 1) as Hw. fold R.
        assert (1 < 2 ^ R); [| lia].
        change 1 with (2 ^ 0) at 1. apply pow2_lt.
        destruct (traits_bounds T Hwf) as (? & ? & ? & ? & ? & ? & ?). unfold R. lia.
      * exact (eadd_range _ _ _ Hinf).
    + apply bind_Done in H. destruct H as [two' [Htwo H]].
      apply bind_Done in H. destruct H as [ten' [_ H]].
      apply (IH _ _) in H; [exact H |].
      split; cbn [varmantissa twoexponent];
        [apply wrapU_range | exact (eadd_range _ _ _ Htwo)].
  - apply bind_Done in H. destruct H as [ten' [_ H]].
    apply (IH _ _) in H; [exact H |].
    split; cbn [varmantissa twoexponent]; [apply wrapU_range | apply Hs].
Qed.

Lemma increaseRoom_range (twoFactor : Z) (fuel : nat) :
  forall v two e, 0 <= v < 2 ^ R -> - 2 ^ (exponentWidth T - 1) <= two < 2 ^ (exponentWidth T - 1) ->
    increaseRoom T twoFactor fuel v two = Done e ->
    match e with
    | Fallthrough v' two' => 0 <= v' < 2 ^ R /\ - 2 ^ (exponentWidth T - 1) <= two' < 2 ^ (exponentWidth T - 1)
    | Returned s' => s' = mkConv 0 0 0
    end.
Proof.
  induction fuel as [| fuel IH]; intros v two e Hv Htwo H; simpl in H;
    destruct (v <=? umax (reducedWidth T) / _); try discriminate;
    try (inversion H; subst; split; assumption).
  apply bind_Done in H. destruct H as [floor [_ H]].
  apply bind_Done in H. destruct H as [bound [_ H]].
  destruct (two <? bound).
  - inversion H. reflexivity.
  - apply bind_Done in H. destruct H as [two' [Htwo' H]].
    apply IH in H; [exact H | apply wrapU_range | exact (eadd_range _ _ _ Htwo')].
Qed.

Lemma increaseTenExponent_range (tenFactor twoFactor : Z) (fuel : nat) :
  forall s r, inRange T s ->
    increaseTenExponent T tenFactor twoFactor fuel s = Done r -> inRange T r.
Proof.
  induction fuel as [| fuel IH]; intros s r Hs H.
  - simpl in H. destruct (tenexponent s <=? - tenFactor); try discriminate.
    inversion H; subst; exact Hs.
  - rewrite increaseTenExponent_unfold in H.
    destruct (tenexponent s <=? - tenFactor); [| inversion H; subst; exact Hs].
    apply bind_Done in H. destruct H as [e [He H]].
    destruct Hs as [Hv Htwo].
    apply increaseRoom_range in He; [| exact Hv | exact Htwo].
    destruct e as [v' two' | s'].
    + apply bind_Done in H. destruct H as [ten' [_ H]].
      apply IH in H; [exact H |].
      destruct He as [Hv' Htwo'].
      split; cbn [varmantissa twoexponent]; [| exact Htwo'].
      apply divideBy_range; [| exact Hv' | apply power_nonneg].
      destruct (traits_bounds T Hwf) as (? & ? & ? & ? & ? & ? & ?). unfold R. lia.
    + inversion H; subst. split; cbn [varmantissa twoexponent].
      * pose proof (wrapU_range 0). change (wrapU R 0) with 0 in *. assumption.
      * destruct (traits_bounds T Hwf) as (? & ? & ? & ? & ? & ? & ?).
        pose proof (pow2_pos (exponentWidth T - 1) ltac:(lia)). lia.
Qed.

(** First loop: at most [mantissaBits + 1] bits are left, and a mantissa the
    loop had to shift keeps its leading bit at [mantissaBits]. *)
Lemma reduceMantissa_spec (fuel : nat) :
  forall v position v' position',
    0 <= v < 2 ^ R ->
    reduceMantissa T fuel v position = Done (v', position') ->
    0 <= v' < 2 ^ (mb + 1) /\
    ((v' = v /\ position' = position) \/ 2 ^ mb <= v').
Proof.
  destruct (traits_bounds T Hwf) as (Hmb & Heb & HW & Hmw & HmW & Hmr & Hew).
  fold mb in Hmb, Hmw.
  assert (Htop : wrapU (reducedWidth T) (Z.shiftl 1 (mantissaBits T + 1)) = 2 ^ (mb + 1)).
  { rewrite Z.shiftl_1_l. fold mb. apply wrapU_small.
    split; [apply Z.lt_le_incl, pow2_pos; lia | apply pow2_lt; lia]. }
  assert (Hsucc : 2 ^ (mb + 1) = 2 * 2 ^ mb) by (apply pow2_succ; lia).
  induction fuel as [| fuel IH]; intros v position v' position' Hv H;
    simpl in H; rewrite Htop in H;
    destruct (2 ^ (mb + 1) <=? v) eqn:Hc; try discriminate;
    try (apply Z.leb_gt in Hc; inversion H; subst; split; [lia | left; auto]).
  apply Z.leb_le in Hc.
  apply bind_Done in H. destruct H as [p [_ H]].
  pose proof (divideBy_2_bounds (reducedWidth T) v ltac:(lia) Hv) as Hd.
  apply IH in H.
  - destruct H as [Hv' [[-> _] | Hge]]; (split; [exact Hv' | right]);
      [| exact Hge].
    Z.div_mod_to_equations. lia.
  - unfold R in *. split; [Z.div_mod_to_equations; lia |].
    assert ((v + 1) / 2 < 2 ^ reducedWidth T); [| lia].
    assert (2 ^ reducedWidth T = 2 * 2 ^ (reducedWidth T - 1)).
    { replace (reducedWidth T) with ((reducedWidth T - 1) + 1) at 1 by lia.
      apply pow2_succ. lia. }
    Z.div_mod_to_equations. lia.
Qed.

(** Second loop: either the leading bit reaches [mantissaBits], or the
    loop stops on the exponent limit with a position that has not gone
    below zero. *)
Lemma alignMantissa_spec (two : Z) (fuel : nat) :
  forall v position v' position',
    1 <= v < 2 ^ (mb + 1) ->
    2 ^ mb <= v \/ (0 <= position <= mb /\ 2 ^ (mb - position) <= v) ->
    alignMantissa T fuel two v position = Done (v', position') ->
    1 <= v' < 2 ^ (mb + 1) /\
    (2 ^ mb <= v' \/ (0 <= position' /\ two + position' <= exponentMin T)).
Proof.
  destruct (traits_bounds T Hwf) as (Hmb & Heb & HW & Hmw & HmW & Hmr & Hew).
  fold mb in Hmb, Hmw.
  assert (Htop : wrapU (mantissaWidth T) (Z.shiftl 1 (mantissaBits T)) = 2 ^ mb).
  { rewrite Z.shiftl_1_l. fold mb. apply wrapU_small.
    split; [apply Z.lt_le_incl, pow2_pos; lia | apply pow2_lt; lia]. }
  assert (Hsucc : 2 ^ (mb + 1) = 2 * 2 ^ mb) by (apply pow2_succ; lia).
  assert (HR : 2 ^ (mb + 1) < 2 ^ R) by (apply pow2_lt; unfold R; lia).
  induction fuel as [| fuel IH]; intros v position v' position' Hv Hpos H;
    simpl in H; rewrite Htop in H;
    (destruct (v <? 2 ^ mb) eqn:Hc;
     [apply Z.ltb_lt in Hc | apply Z.ltb_ge in Hc; inversion H; subst; split; [lia | left; lia]]);
    (apply bind_Done in H; destruct H as [reach [Hreach H]];
     apply int_arith_Done in Hreach; destruct Hreach as [-> _];
     destruct (exponentMin T <? two + position) eqn:Hlim;
     [| apply Z.ltb_ge in Hlim; inversion H; subst; split; [lia | right; lia]]);
    try discriminate.
  destruct Hpos as [Hpos | [Hpos Hlow]]; [lia |].
  assert (Hposition : 0 < position).
  { destruct (Z.eq_dec position 0) as [-> | Hne]; [| lia].
    rewrite Z.sub_0_r in Hlow. lia. }
  apply bind_Done in H. destruct H as [p [Hp H]].
  apply eadd_Done in Hp. destruct Hp as [-> _].
  rewrite (toExponent_small T Hwf) in H.
  - rewrite wrapU_small in H by (fold R; lia).
    apply IH in H; [exact H | lia |].
    right. split; [lia |].
    replace (mb - (position + -1)) with ((mb - position) + 1) by lia.
    rewrite pow2_succ by lia. lia.
  - destruct Hwf as [_ _ _ _ _ _ _ Hsub]. fold mb in Hsub.
    pose proof (pow2_pos (exponentBits T - 1) ltac:(lia)). lia.
Qed.

(** Third loop: the exponent ends at [exponentMin] or above, and exactly at
    [exponentMin] when the loop had to shift. *)
Lemma raiseExponent_spec (fuel : nat) :
  forall v two v' two',
    0 <= v < 2 ^ (mb + 1) ->
    - 2 ^ (exponentWidth T - 1) <= two < 2 ^ (exponentWidth T - 1) ->
    raiseExponent T fuel v two = Done (v', two') ->
    0 <= v' < 2 ^ (mb + 1) /\ exponentMin T <= two' /\
    ((v' = v /\ two' = two) \/ two' = exponentMin T).
Proof.
  destruct (traits_bounds T Hwf) as (Hmb & Heb & HW & Hmw & HmW & Hmr & Hew).
  fold mb in Hmb, Hmw.
  assert (Hsucc : 2 ^ (mb + 1) = 2 * 2 ^ mb) by (apply pow2_succ; lia).
  assert (HR : 2 ^ (mb + 1) < 2 ^ R) by (apply pow2_lt; unfold R; lia).
  assert (Hmin : exponentMin T < 2 ^ (exponentWidth T - 1)).
  { rewrite (exponentMin_eq T).
    destruct (traits_powers T Hwf) as (Hp1 & Hp2 & Hp3 & _). lia. }
  induction fuel as [| fuel IH]; intros v two v' two' Hv Htwo H;
    simpl in H;
    (destruct (two <? exponentMin T) eqn:Hc;
     [apply Z.ltb_lt in Hc
     | apply Z.ltb_ge in Hc; inversion H; subst; split; [lia | split; [lia | left; auto]]]);
    try discriminate.
  apply bind_Done in H. destruct H as [t [Ht H]].
  apply eadd_Done in Ht. destruct Ht as [-> _].
  rewrite (toExponent_small T Hwf) in H by lia.
  pose proof (divideBy_2_bounds (reducedWidth T) v ltac:(lia) ltac:(unfold R in *; lia)) as Hd.
  apply IH in H; [| Z.div_mod_to_equations; lia | lia].
  destruct H as [Hv' [Hmin' [[_ ->] | ->]]];
    (split; [exact Hv' | split; [lia | right; lia]]).
Qed.

(** The conversion returns normalized numbers only. *)
Lemma convertTwobase_returns_normalized (fuel : nat) (d r : IEEE754Number) :
  convertTwobase T fuel d = Done r -> normalized T r.
Proof.
  intros H.
  destruct (traits_bounds T Hwf) as (Hmb & Heb & HW & Hmw & HmW & Hmr & Hew).
  fold mb in Hmb, Hmw.
  assert (Hsucc : 2 ^ (mb + 1) = 2 * 2 ^ mb) by (apply pow2_succ; lia).
  pose proof (pow2_pos mb ltac:(lia)) as Hpm.
  assert (Hmin0 : exponentMin T <= 0).
  { rewrite (exponentMin_eq T). destruct (traits_powers T Hwf) as (Hp1 & _). lia. }
  unfold convertTwobase in H.
  apply bind_Done in H. destruct H as [s [Hs H]].
  assert (Hrange : inRange T s).
  { set (s0 := mkConv (wrapU (reducedWidth T) (mantissa d)) (exponent d) 0) in Hs.
    assert (H0 : inRange T s0).
    { split; cbn [s0 varmantissa twoexponent]; [apply wrapU_range |].
      pose proof (pow2_pos (exponentWidth T - 1) ltac:(lia)). lia. }
    destruct (0 <? tenexponent s0).
    - apply bind_Done in Hs. destruct Hs as [s1 [H1 Hs]].
      apply bind_Done in Hs. destruct Hs as [s2 [H2 Hs]].
      apply bind_Done in Hs. destruct Hs as [s3 [H3 H4]].
      eauto using decreaseTenExponent_range.
    - destruct (tenexponent s0 <? 0); [| inversion Hs; subst; exact H0].
      apply bind_Done in Hs. destruct Hs as [s1 [H1 Hs]].
      apply bind_Done in Hs. destruct Hs as [s2 [H2 Hs]].
      apply bind_Done in Hs. destruct Hs as [s3 [H3 H4]].
      eauto using increaseTenExponent_range. }
  destruct Hrange as [Hv Htwo]. fold R in Hv.
  apply bind_Done in H. destruct H as [_ [_ H]].
  destruct (varmantissa s =? 0) eqn:Hz.
  { inversion H; subst.
    constructor; cbn [mantissa exponent]; fold mb; [lia | exact Hmin0 | auto]. }
  apply Z.eqb_neq in Hz.
  apply bind_Done in H. destruct H as [[v1 p1] [H1 H]].
  apply bind_Done in H. destruct H as [[v2 p2] [H2 H]].
  apply bind_Done in H. destruct H as [two [Htwo' H]].
  apply bind_Done in H. destruct H as [[v3 two3] [H3 H]].
  inversion H; subst; clear H.
  apply reduceMantissa_spec in H1; [| exact Hv].
  destruct H1 as [Hv1 Hcase1].
  apply alignMantissa_spec in H2.
  2: { destruct Hcase1 as [[-> _] | Hge]; lia. }
  2: { destruct Hcase1 as [[-> ->] | Hge]; [right | left; exact Hge].
       fold mb. rewrite Z.sub_diag. change (2 ^ 0) with 1. lia. }
  destruct H2 as [Hv2 Hcase2].
  pose proof (eadd_range _ _ _ Htwo') as Htwo_range.
  apply eadd_Done in Htwo'. destruct Htwo' as [Htwo_eq _].
  apply raiseExponent_spec in H3; [| lia | exact Htwo_range].
  destruct H3 as [Hv3 [Hmin3 Hcase3]].
  assert (Hmant : wrapU (mantissaWidth T) v3 = v3).
  { apply wrapU_small. split; [lia |].
    apply Z.lt_le_trans with (2 ^ (mb + 1)); [lia | apply pow2_le; lia]. }
  constructor; cbn [mantissa exponent]; rewrite ?Hmant; fold mb.
  - exact Hv3.
  - exact Hmin3.
  - intros Hbit. right.
    rewrite (testbit_top v3 mb) in Hbit by lia.
    apply Z.leb_gt in Hbit.
    destruct Hcase3 as [[-> ->] | ->]; [| reflexivity].
    destruct Hcase2 as [Hge | [Hp2 Hlim]]; [lia |].
    rewrite Htwo_eq in Hmin3 |- *.
    rewrite (toExponent_small T Hwf) in Hmin3 |- *.
    + unfold exponentSubnormalBase, exponentMin in *. lia.
    + assert (exponentMin T < 2 ^ (exponentWidth T - 1)); [| lia].
      rewrite (exponentMin_eq T).
      destruct (traits_powers T Hwf) as (Hp1 & Hp2' & Hp3 & _). lia.
    + assert (exponentMin T < 2 ^ (exponentWidth T - 1)); [| lia].
      rewrite (exponentMin_eq T).
      destruct (traits_powers T Hwf) as (Hp1 & Hp2' & Hp3 & _). lia.
Qed.

End Normalization.

(** C9: whatever number [convertTwobase] returns has a mantissa below
    [2 ^ (mantissaBits + 1)] and an exponent of at least [exponentMin]; when
    its leading bit is clear, its mantissa is zero or its exponent is
    [exponentSubnormalBase].  On it no assertion of [toIEEE754] or [number]
    fails: the packer returns a pattern. *)
Theorem convertTwobase_invariant
    (T : IEEE754Traits) (fuel : nat) (d r : IEEE754Number) :
  wfTraits T ->
  convertTwobase T fuel d = Done r ->
  0 <= mantissa r < 2 ^ (mantissaBits T + 1) /\
  exponentMin T <= exponent r /\
  (Z.testbit (mantissa r) (mantissaBits T) = false ->
   mantissa r = 0 \/ exponent r = exponentSubnormalBase T) /\
  exists bits, toIEEE754 T r = Done bits.
Proof.
  intros Hwf H.
  pose proof (convertTwobase_returns_normalized T Hwf fuel d r H) as Hn.
  destruct Hn as [Hm He Hsub].
  repeat split; try assumption; try apply Hm.
  eexists. apply toIEEE754_packable; [exact Hwf |].
  right; right; right. constructor; assumption.
Qed.

Lemma convertTwobase_invariant_witness :
  convertTwobase Traits_double 256 (mkNumber false 3 (-1))
    = Done (mkNumber false 0x13333333333333 (-2)) /\
  0 <= 0x13333333333333 < 2 ^ 53 /\
  exists bits, toIEEE754 Traits_double (mkNumber false 0x13333333333333 (-2)) = Done bits.
Proof.
  assert (H : convertTwobase Traits_double 256 (mkNumber false 3 (-1))
              = Done (mkNumber false 0x13333333333333 (-2)))
    by (vm_compute; reflexivity).
  split; [exact H |].
  destruct (convertTwobase_invariant Traits_double 256 _ _ wfTraits_double H)
    as (Hm & _ & _ & Hbits).
  split; [exact Hm | exact Hbits].
Defined.

(** ** C8: the error flag of the full conversion *)

(** A character that lowers to a letter is no digit, no sign and no dot. *)
Lemma toLower_letter (c x : Z) :
  toLower c = x -> 97 <= x <= 122 ->
  isDigit c = false /\ isSign c = false /\ (c =? 46) = false.
Proof.
  unfold toLower, isDigit, isSign. intros H Hx.
  destruct ((65 <=? c) && (c <=? 90)) eqn:E.
  - apply andb_true_iff in E. destruct E as [E1 E2].
    apply Z.leb_le in E1. apply Z.leb_le in E2.
    repeat split.
    + apply andb_false_iff. right. apply Z.leb_gt. lia.
    + apply orb_false_iff. split; apply Z.eqb_neq; lia.
    + apply Z.eqb_neq. lia.
  - subst x. repeat split.
    + apply andb_false_iff. right. apply Z.leb_gt. lia.
    + apply orb_false_iff. split; apply Z.eqb_neq; lia.
    + apply Z.eqb_neq. lia.
Qed.

(** Only the sign characters lower to a sign. *)
Lemma toLower_sign (c x : Z) : toLower c = x -> x = 43 \/ x = 45 -> c = x.
Proof.
  unfold toLower. intros H Hx.
  destruct ((65 <=? c) && (c <=? 90)) eqn:E; [| exact H].
  apply andb_true_iff in E. destruct E as [E1 E2].
  apply Z.leb_le in E1. apply Z.leb_le in E2. lia.
Qed.

(** The lexer fails on a text that starts with a letter. *)
Lemma parseMantissaExponent_letter_first (T : IEEE754Traits) (c : Z) (rest : text) :
  isDigit c = false -> isSign c = false -> (c =? 46) = false ->
  parseMantissaExponent T (c :: rest) = Done parseError.
Proof.
  intros Hd Hs Hdot.
  unfold parseMantissaExponent, parseMantissa.
  cbn [parseMantissa_from]. unfold parseMantissa_step.
  rewrite Hd, Hs, Hdot. reflexivity.
Qed.

(** The lexer fails on a sign followed by a letter. *)
Lemma parseMantissaExponent_sign_letter (T : IEEE754Traits) (c1 c2 : Z) (rest : text) :
  c1 = 43 \/ c1 = 45 ->
  isDigit c2 = false -> isSign c2 = false -> (c2 =? 46) = false ->
  parseMantissaExponent T (c1 :: c2 :: rest) = Done parseError.
Proof.
  intros Hc1 Hd Hs Hdot.
  unfold parseMantissaExponent, parseMantissa.
  cbn [parseMantissa_from]. unfold parseMantissa_step.
  destruct Hc1 as [-> | ->]; cbn [isDigit isSign Z.leb Z.eqb Z.compare Pos.compare
    Pos.compare_cont andb orb negb Nat.eqb bind digits];
    rewrite Hd, Hs, Hdot; reflexivity.
Qed.

(** The shape of the texts that compare equal to a literal of three or four
    characters. *)
Lemma equalsLowered_3 (s : text) (a b c : Z) :
  equalsLowered s [a; b; c] = true ->
  exists c1 c2 c3, s = [c1; c2; c3] /\ toLower c1 = toLower a.
Proof.
  destruct s as [| c1 [| c2 [| c3 [| c4 rest]]]]; cbn [equalsLowered];
    intros H; try discriminate;
    try (apply andb_true_iff in H; destruct H as [_ H]; try discriminate;
         apply andb_true_iff in H; destruct H as [_ H]; try discriminate;
         apply andb_true_iff in H; destruct H as [_ H]; discriminate).
  apply andb_true_iff in H. destruct H as [H _].
  apply Z.eqb_eq in H. eauto.
Qed.

Lemma equalsLowered_4 (s : text) (a b c d : Z) :
  equalsLowered s [a; b; c; d] = true ->
  exists c1 c2 c3 c4, s = [c1; c2; c3; c4] /\
    toLower c1 = toLower a /\ toLower c2 = toLower b.
Proof.
  destruct s as [| c1 [| c2 [| c3 [| c4 [| c5 rest]]]]]; cbn [equalsLowered];
    intros H; try discriminate;
    try (apply andb_true_iff in H; destruct H as [_ H]; try discriminate;
         apply andb_true_iff in H; destruct H as [_ H]; try discriminate;
         apply andb_true_iff in H; destruct H as [_ H]; try discriminate;
         apply andb_true_iff in H; destruct H as [_ H]; discriminate).
  apply andb_true_iff in H. destruct H as [H1 H].
  apply andb_true_iff in H. destruct H as [H2 _].
  apply Z.eqb_eq in H1. apply Z.eqb_eq in H2. eauto 8.
Qed.

(** The numeric grammar fails on every recognized spelling, and none of
    them is empty. *)
Lemma literal_not_numeric (T : IEEE754Traits) (s : text) :
  isLiteral s = true ->
  parseMantissaExponent T s = Done parseError /\ Nat.eqb O (List.length s) = false.
Proof.
  unfold isLiteral, isInfinityLiteral, isNegativeInfinityLiteral, isNaNLiteral,
    equalsIgnoreCase.
  intros H.
  apply orb_true_iff in H. destruct H as [H | H];
    [apply orb_true_iff in H; destruct H as [H | H];
     [apply orb_true_iff in H; destruct H as [H | H] |] |].
  - apply equalsLowered_3 in H. destruct H as (c1 & c2 & c3 & -> & H1).
    change (toLower 73) with 105 in H1.
    destruct (toLower_letter c1 105 H1 ltac:(lia)) as (Hd & Hs & Hdot).
    split; [apply parseMantissaExponent_letter_first; assumption | reflexivity].
  - apply equalsLowered_4 in H. destruct H as (c1 & c2 & c3 & c4 & -> & H1 & H2).
    change (toLower 43) with 43 in H1. change (toLower 73) with 105 in H2.
    apply toLower_sign in H1; [| auto].
    destruct (toLower_letter c2 105 H2 ltac:(lia)) as (Hd & Hs & Hdot).
    split; [apply parseMantissaExponent_sign_letter; auto | reflexivity].
  - apply equalsLowered_4 in H. destruct H as (c1 & c2 & c3 & c4 & -> & H1 & H2).
    change (toLower 45) with 45 in H1. change (toLower 73) with 105 in H2.
    apply toLower_sign in H1; [| auto].
    destruct (toLower_letter c2 105 H2 ltac:(lia)) as (Hd & Hs & Hdot).
    split; [apply parseMantissaExponent_sign_letter; auto | reflexivity].
  - apply equalsLowered_3 in H. destruct H as (c1 & c2 & c3 & -> & H1).
    change (toLower 78) with 110 in H1.
    destruct (toLower_letter c1 110 H1 ltac:(lia)) as (Hd & Hs & Hdot).
    split; [apply parseMantissaExponent_letter_first; assumption | reflexivity].
Qed.

(** The patterns of the named constructors. *)
Lemma infinity_encode (T : IEEE754Traits) (neg : bool) :
  wfTraits T -> infinity T neg = Done (encode T neg (2 ^ exponentBits T - 1) 0).
Proof.
  intros Hwf.
  destruct (traits_bounds T Hwf) as (Hmb & Heb & _).
  destruct (traits_powers T Hwf) as (Hp1 & Hp2 & Hp3 & Hp4 & Hp5 & Hpm & _).
  unfold infinity. rewrite Z.shiftl_1_l.
  rewrite (toExponent_small T Hwf) by lia.
  apply number_encode; [exact Hwf | lia | lia].
Qed.

Lemma nan_encode (T : IEEE754Traits) :
  wfTraits T -> nan T = Done (encode T false (2 ^ exponentBits T - 1) 1).
Proof.
  intros Hwf.
  destruct (traits_bounds T Hwf) as (Hmb & Heb & _).
  destruct (traits_powers T Hwf) as (Hp1 & Hp2 & Hp3 & Hp4 & Hp5 & Hpm & _).
  unfold nan. rewrite Z.shiftl_1_l.
  rewrite (toExponent_small T Hwf) by lia.
  apply number_encode; [exact Hwf | lia |].
  split; [lia |]. change 1 with (2 ^ 0) at 1. apply pow2_lt. lia.
Qed.

(** C8: the full conversion ends with the error flag set exactly when the
    numeric grammar has not consumed the whole input and the input is none
    of the spellings Inf, +Inf, -Inf, NaN compared without case; in that
    case it returns 0 with the flag set.  On these spellings, which the
    numeric grammar never consumes, it returns the pattern of the infinity
    of that sign or of the NaN, with the flag clear. *)
Theorem toAnyDouble_error_flag (T : IEEE754Traits) (fuel : nat) (s : text) :
  wfTraits T ->
  (isLiteral s = true ->
   ~ consumesAll T s /\ toAnyDouble T fuel s = Done (literalPattern T s, false)) /\
  (forall parsed number,
     parseMantissaExponent T s = Done (parsed, number) ->
     parsed <> List.length s -> isLiteral s = false ->
     toAnyDouble T fuel s = Done (0, true)) /\
  (forall bits error,
     toAnyDouble T fuel s = Done (bits, error) ->
     (error = true <-> ~ consumesAll T s /\ isLiteral s = false)).
Proof.
  intros Hwf. split; [| split].
  - intros Hlit.
    destruct (literal_not_numeric T s Hlit) as [Hparse Hlen].
    split.
    { intros [n Hn]. rewrite Hparse in Hn. unfold parseError in Hn.
      inversion Hn as [[Hl Hnum]]. rewrite <- Hl in Hlen. discriminate. }
    unfold toAnyDouble. rewrite Hparse. unfold parseError. cbn [bind].
    rewrite Hlen. cbn [negb].
    unfold literalPattern.
    unfold isLiteral in Hlit.
    fold (isInfinityLiteral s). fold (isNegativeInfinityLiteral s). fold (isNaNLiteral s).
    destruct (isInfinityLiteral s).
    { rewrite infinity_encode by exact Hwf. reflexivity. }
    destruct (isNegativeInfinityLiteral s).
    { rewrite infinity_encode by exact Hwf. reflexivity. }
    destruct (isNaNLiteral s); [| discriminate].
    rewrite nan_encode by exact Hwf. reflexivity.
  - intros parsed number Hparse Hne Hlit.
    unfold toAnyDouble. rewrite Hparse. cbn [bind].
    apply Nat.eqb_neq in Hne. rewrite Hne. cbn [negb].
    unfold isLiteral in Hlit.
    apply orb_false_iff in Hlit. destruct Hlit as [Hlit Hnan].
    apply orb_false_iff in Hlit. destruct Hlit as [Hinf Hneg].
    fold (isInfinityLiteral s). fold (isNegativeInfinityLiteral s). fold (isNaNLiteral s).
    rewrite Hinf, Hneg, Hnan. reflexivity.
  - intros bits error H.
    unfold toAnyDouble in H.
    apply bind_Done in H. destruct H as [[parsed number] [Hparse H]].
    destruct (Nat.eqb parsed (List.length s)) eqn:Hlen; cbn [negb] in H.
    + apply Nat.eqb_eq in Hlen.
      apply bind_Done in H. destruct H as [b [_ H]].
      apply bind_Done in H. destruct H as [bits' [_ H]].
      inversion H; subst.
      split; [discriminate |].
      intros [Hnot _]. exfalso. apply Hnot. exists number. exact Hparse.
    + apply Nat.eqb_neq in Hlen.
      assert (Hnot : ~ consumesAll T s).
      { intros [n Hn]. rewrite Hparse in Hn. inversion Hn. contradiction. }
      fold (isInfinityLiteral s) in H. fold (isNegativeInfinityLiteral s) in H.
      fold (isNaNLiteral s) in H.
      unfold isLiteral.
      destruct (isInfinityLiteral s).
      { apply bind_Done in H. destruct H as [x [_ H]]. inversion H; subst.
        split; [discriminate | intros [_ Hf]; discriminate]. }
      destruct (isNegativeInfinityLiteral s).
      { apply bind_Done in H. destruct H as [x [_ H]]. inversion H; subst.
        split; [discriminate | intros [_ Hf]; discriminate]. }
      destruct (isNaNLiteral s).
      { apply bind_Done in H. destruct H as [x [_ H]]. inversion H; subst.
        split; [discriminate | intros [_ Hf]; discriminate]. }
      inversion H; subst. split; [intros _; split; [exact Hnot | reflexivity] | reflexivity].
Qed.

Lemma toAnyDouble_error_flag_witness :
  toAnyDouble Traits_double 0 (codes "-iNf") = Done (0xFFF0000000000000, false) /\
  toAnyDouble Traits_double 0 (codes "12x") = Done (0, true) /\
  (forall bits error,
     toAnyDouble Traits_double 64 (codes "1") = Done (bits, error) ->
     (error = true <->
      ~ consumesAll Traits_double (codes "1") /\ isLiteral (codes "1") = false)).
Proof.
  pose proof (toAnyDouble_error_flag Traits_double 0 (codes "-iNf") wfTraits_double)
    as (Hlit & _ & _).
  pose proof (toAnyDouble_error_flag Traits_double 0 (codes "12x") wfTraits_double)
    as (_ & Herr & _).
  pose proof (toAnyDouble_error_flag Traits_double 64 (codes "1") wfTraits_double)
    as (_ & _ & Hflag).
  split; [exact (proj2 (Hlit eq_refl)) |].
  split; [| exact Hflag].
  apply (Herr 2%nat (mkNumber false 12 0)); [reflexivity | discriminate | reflexivity].
Defined.

(** ** C3, the half that holds: exponents out of range are refused *)

Section ExponentRange.

Variable T : IEEE754Traits.
Hypothesis Hwf : wfTraits T.

Lemma Exponent_max_bounds : 3 <= Exponent_max T <= INT_MAX.
Proof.
  destruct (traits_bounds T Hwf) as (Hmb & Heb & _).
  destruct (traits_powers T Hwf) as (Hp1 & Hp2 & Hp3 & Hp4 & _).
  unfold Exponent_max, INT_MAX, intBits. change (32 - 1) with 31. lia.
Qed.

(** One digit more: the loop goes on with the new value when it fits, and
    returns the error otherwise. *)
Lemma parseExponent_step_digit (i : nat) (c e : Z) (neg : bool) :
  isDigit c = true -> 0 <= e <= Exponent_max T ->
  parseExponent_step T i c (e, neg) =
    if Exponent_max T <? e * 10 + (c - 48) then Done (Return (O, 0))
    else Done (Continue (e * 10 + (c - 48), neg)).
Proof.
  intros Hc He.
  pose proof Exponent_max_bounds as HM.
  assert (Hhalf : Exponent_max T = 2 ^ (exponentWidth T - 1) - 1) by reflexivity.
  assert (Hd : 48 <= c <= 57).
  { unfold isDigit in Hc. apply andb_true_iff in Hc. destruct Hc as [H1 H2].
    apply Z.leb_le in H1. apply Z.leb_le in H2. lia. }
  unfold parseExponent_step. rewrite Hc.
  cbv [INT_MAX intBits] in HM. change (2 ^ (32 - 1) - 1) with 2147483647 in HM.
  assert (Hint : forall z, -2147483648 <= z <= 2147483647 -> int_arith z = Done z).
  { intros z Hz. apply int_arith_in_range. cbv [INT_MIN INT_MAX intBits].
    change (- 2 ^ (32 - 1)) with (-2147483648).
    change (2 ^ (32 - 1) - 1) with 2147483647. exact Hz. }
  rewrite Hint by (Z.div_mod_to_equations; lia). cbn [bind].
  destruct (Exponent_max T / 10 - 1 <=? e) eqn:Hlimit.
  - apply Z.leb_le in Hlimit.
    destruct (Exponent_max T / 10 <? e) eqn:Hover.
    + apply Z.ltb_lt in Hover. cbn [bind].
      replace (Exponent_max T <? e * 10 + (c - 48)) with true
        by (symmetry; apply Z.ltb_lt; Z.div_mod_to_equations; lia).
      reflexivity.
    + apply Z.ltb_ge in Hover.
      rewrite (Hint (e * 10)) by (Z.div_mod_to_equations; lia). cbn [bind].
      rewrite (Hint (Exponent_max T - (c - 48))) by lia. cbn [bind].
      destruct (Exponent_max T - (c - 48) <? e * 10) eqn:Hroom.
      * apply Z.ltb_lt in Hroom.
        replace (Exponent_max T <? e * 10 + (c - 48)) with true
          by (symmetry; apply Z.ltb_lt; lia).
        reflexivity.
      * apply Z.ltb_ge in Hroom.
        replace (Exponent_max T <? e * 10 + (c - 48)) with false
          by (symmetry; apply Z.ltb_ge; lia).
        unfold eadd.
        rewrite (toExponent_small T Hwf) by lia.
        rewrite Hint by lia. cbn [bind].
        rewrite (toExponent_small T Hwf) by lia.
        reflexivity.
  - apply Z.leb_gt in Hlimit. cbn [bind].
    replace (Exponent_max T <? e * 10 + (c - 48)) with false
      by (symmetry; apply Z.ltb_ge; Z.div_mod_to_equations; lia).
    rewrite (Hint (e * 10)) by (Z.div_mod_to_equations; lia). cbn [bind].
    unfold eadd.
    rewrite (toExponent_small T Hwf) by (Z.div_mod_to_equations; lia).
    rewrite Hint by (Z.div_mod_to_equations; lia). cbn [bind].
    rewrite (toExponent_small T Hwf) by (Z.div_mod_to_equations; lia).
    reflexivity.
Qed.

(** More digits never make the value smaller. *)
Lemma digitsValue_grows (ds : text) :
  Forall (fun c => isDigit c = true) ds ->
  forall acc, 0 <= acc -> acc <= digitsValue acc ds.
Proof.
  induction 1 as [| c ds Hc _ IH]; intros acc Hacc; [apply Z.le_refl |].
  unfold digitsValue in *. cbn [fold_left].
  unfold isDigit in Hc. apply andb_true_iff in Hc. destruct Hc as [H1 H2].
  apply Z.leb_le in H1. apply Z.leb_le in H2.
  specialize (IH (acc * 10 + (c - 48)) ltac:(lia)). lia.
Qed.

(** A run of digits up to the end of the text: the exponent is returned
    when its magnitude fits the exponent type, and the error otherwise. *)
Lemma parseExponent_from_digits (ds : text) :
  Forall (fun c => isDigit c = true) ds ->
  forall (i : nat) (e : Z) (neg : bool),
    0 <= e <= Exponent_max T ->
    parseExponent_from T i ds (e, neg) =
      if Exponent_max T <? digitsValue e ds then Done (O, 0)
      else Done ((i + List.length ds)%nat,
                 if neg then - digitsValue e ds else digitsValue e ds).
Proof.
  pose proof Exponent_max_bounds as HM.
  cbv [INT_MAX intBits] in HM. change (2 ^ (32 - 1) - 1) with 2147483647 in HM.
  induction 1 as [| c ds Hc Hds IH]; intros i e neg He.
  - cbn [parseExponent_from digitsValue fold_left List.length].
    replace (Exponent_max T <? e) with false by (symmetry; apply Z.ltb_ge; lia).
    rewrite Nat.add_0_r.
    unfold parseExponent_step.
    change (isDigit 0) with false. change (isSign 0) with false. cbv iota.
    destruct neg; cbn [negb]; [| reflexivity].
    rewrite int_arith_in_range
      by (cbv [INT_MIN INT_MAX intBits]; change (32 - 1) with 31; lia).
    cbn [bind].
    rewrite (toExponent_small T Hwf)
      by (change (Exponent_max T) with (2 ^ (exponentWidth T - 1) - 1) in He; lia).
    reflexivity.
  - cbn [parseExponent_from].
    rewrite (parseExponent_step_digit i c e neg Hc He).
    change (digitsValue e (c :: ds)) with (digitsValue (e * 10 + (c - 48)) ds).
    assert (Hd : 48 <= c <= 57).
    { unfold isDigit in Hc. apply andb_true_iff in Hc. destruct Hc as [H1 H2].
      apply Z.leb_le in H1. apply Z.leb_le in H2. lia. }
    destruct (Exponent_max T <? e * 10 + (c - 48)) eqn:Hover; cbn [bind].
    + apply Z.ltb_lt in Hover.
      pose proof (digitsValue_grows ds Hds (e * 10 + (c - 48)) ltac:(lia)).
      replace (Exponent_max T <? digitsValue (e * 10 + (c - 48)) ds) with true
        by (symmetry; apply Z.ltb_lt; lia).
      reflexivity.
    + apply Z.ltb_ge in Hover.
      rewrite IH by lia.
      cbn [List.length]. rewrite Nat.add_succ_r. reflexivity.
Qed.

(** [parseExponent] on an optional sign followed by digits only: overflow
    of the exponent type is an error, never a clamped value. *)
Lemma parseExponent_overflow_is_error (ds : text) :
  Forall (fun c => isDigit c = true) ds ->
  Exponent_max T < digitsValue 0 ds ->
  parseExponent T ds = Done (O, 0) /\
  parseExponent T (43 :: ds) = Done (O, 0) /\
  parseExponent T (45 :: ds) = Done (O, 0).
Proof.
  intros Hds Hover.
  pose proof Exponent_max_bounds as HM.
  apply Z.ltb_lt in Hover.
  unfold parseExponent. cbn [parseExponent_from].
  unfold parseExponent_step.
  change (isDigit 43) with false. change (isDigit 45) with false.
  change (isSign 43) with true. change (isSign 45) with true.
  cbn [Nat.eqb negb bind].
  rewrite !(parseExponent_from_digits ds Hds) by lia.
  rewrite Hover. auto.
Qed.

(** In range, the signed value of the digits is returned. *)
Lemma parseExponent_in_range (ds : text) :
  Forall (fun c => isDigit c = true) ds ->
  digitsValue 0 ds <= Exponent_max T ->
  parseExponent T ds = Done (List.length ds, digitsValue 0 ds) /\
  parseExponent T (43 :: ds) = Done (S (List.length ds), digitsValue 0 ds) /\
  parseExponent T (45 :: ds) = Done (S (List.length ds), - digitsValue 0 ds).
Proof.
  intros Hds Hfit.
  pose proof Exponent_max_bounds as HM.
  apply Z.ltb_ge in Hfit.
  unfold parseExponent. cbn [parseExponent_from].
  unfold parseExponent_step.
  change (isDigit 43) with false. change (isDigit 45) with false.
  change (isSign 43) with true. change (isSign 45) with true.
  cbn [Nat.eqb negb bind].
  rewrite !(parseExponent_from_digits ds Hds) by lia.
  rewrite Hfit. auto.
Qed.

End ExponentRange.

(** * Further properties of the code *)

(** ** power and divideBy *)

Lemma power_mod (w t : Z) (k : nat) :
  0 < w -> power w t k = (t ^ Z.of_nat k) mod 2 ^ w.
Proof.
  intros Hw. induction k as [| k IH].
  - cbn [power]. change (Z.of_nat 0) with 0. rewrite Z.pow_0_r.
    symmetry. apply Z.mod_small.
    split; [lia |]. change 1 with (2 ^ 0). apply pow2_lt. lia.
  - cbn [power]. unfold wrapU. rewrite IH.
    rewrite Z.mul_mod_idemp_l by (apply Z.pow_nonzero; lia).
    rewrite Nat2Z.inj_succ, Z.pow_succ_r by lia.
    f_equal. lia.
Qed.

(** X1: [power(t, exp)] is [t ^ exp] reduced modulo the width of its type;
    it is the exact power whenever that power fits the type. *)
Theorem power_exact (w t : Z) (k : nat) :
  0 < w ->
  power w t k = (t ^ Z.of_nat k) mod 2 ^ w /\
  (0 <= t ^ Z.of_nat k < 2 ^ w -> power w t k = t ^ Z.of_nat k).
Proof.
  intros Hw. split; [apply power_mod; exact Hw |].
  intros Hfit. rewrite power_mod by exact Hw. apply Z.mod_small. exact Hfit.
Qed.

Lemma power_exact_witness :
  0 < 128 /\ power 128 10 9 = 10 ^ 9 mod 2 ^ 128 /\ power 128 10 9 = 1000000000.
Proof.
  split; [lia |].
  destruct (power_exact 128 10 9 ltac:(lia)) as [H1 H2].
  split; [exact H1 |].
  apply H2. vm_compute. split; [discriminate | reflexivity].
Defined.

(** X2: halving with [divideBy], the narrowing step of the three
    normalization loops, is round-half-to-even: with the divisor 2 the only
    nonzero remainder is the half. *)
Theorem divideBy_two_rounds_half_even (w n : Z) :
  0 <= n < 2 ^ w -> divideBy w n 2 = roundHalfEven n 2.
Proof.
  intros Hn.
  unfold divideBy, roundHalfEven. change (2 / 2) with 1.
  destruct (n mod 2 =? 1) eqn:E; cbn [negb].
  - apply Z.eqb_eq in E. rewrite E. cbn [Z.mul Z.ltb Z.compare Pos.mul Pos.compare
      Pos.compare_cont].
    rewrite land_1_even.
    destruct (Z.even (n / 2)); cbn [negb]; [reflexivity |].
    apply wrapU_small. Z.div_mod_to_equations. lia.
  - apply Z.eqb_neq in E.
    replace (2 * (n mod 2) <? 2) with true
      by (symmetry; apply Z.ltb_lt; Z.div_mod_to_equations; lia).
    reflexivity.
Qed.

Lemma divideBy_two_rounds_half_even_witness :
  0 <= 7 < 2 ^ 128 /\ divideBy 128 7 2 = roundHalfEven 7 2 /\ divideBy 128 7 2 = 4.
Proof.
  split; [lia |].
  split; [apply divideBy_two_rounds_half_even; lia | reflexivity].
Defined.

(** X3: whatever the divisor, [divideBy] returns the truncated quotient or
    the next integer, and the next integer only on a remainder equal to
    [divisor / 2] with an odd quotient. *)
Theorem divideBy_floor_or_next (w n d : Z) :
  0 <= n < 2 ^ w -> 2 <= d ->
  (divideBy w n d = n / d \/ divideBy w n d = n / d + 1) /\
  (divideBy w n d = n / d + 1 <-> n mod d = d / 2 /\ Z.odd (n / d) = true).
Proof.
  intros Hn Hd.
  unfold divideBy.
  destruct (n mod d =? d / 2) eqn:E; cbn [negb].
  - apply Z.eqb_eq in E. rewrite land_1_even, <- Z.negb_odd.
    destruct (Z.odd (n / d)); cbn [negb].
    + rewrite wrapU_small by (Z.div_mod_to_equations; nia).
      split; [right; reflexivity |].
      split; [intros _; auto | reflexivity].
    + split; [left; reflexivity |].
      split; [lia | intros [_ Hf]; discriminate].
  - apply Z.eqb_neq in E. split; [left; reflexivity |].
    split; [lia | intros [Hf _]; contradiction].
Qed.

Lemma divideBy_floor_or_next_witness :
  0 <= 30 < 2 ^ 64 /\ 2 <= 20 /\
  (divideBy 64 30 20 = 30 / 20 + 1 <-> 30 mod 20 = 20 / 2 /\ Z.odd (30 / 20) = true).
Proof.
  split; [lia |]. split; [lia |].
  apply (divideBy_floor_or_next 64 30 20); lia.
Defined.

(** ** The named constructors and the packer *)

(** X4: [zero(negative)] is the sign bit alone, and [infinity(negative)]
    the sign bit with the exponent field all ones and an empty mantissa
    field; neither assertion of [number] fails on them. *)
Theorem zero_infinity_fields (T : IEEE754Traits) (neg : bool) :
  wfTraits T ->
  exists z i,
    zero T neg = Done z /\ infinity T neg = Done i /\
    z = (if neg then 2 ^ (mantissaBits T + exponentBits T) else 0) /\
    signField T i = (if neg then 1 else 0) /\
    exponentField T i = 2 ^ exponentBits T - 1 /\
    mantissaField T i = 0.
Proof.
  intros Hwf.
  destruct (traits_bounds T Hwf) as (Hmb & Heb & _).
  destruct (traits_powers T Hwf) as (Hp1 & Hp2 & _ & _ & _ & Hpm & _).
  exists (encode T neg 0 0), (encode T neg (2 ^ exponentBits T - 1) 0).
  split; [unfold zero; apply number_encode; [exact Hwf | lia | lia] |].
  split; [apply infinity_encode; exact Hwf |].
  split; [unfold encode; destruct neg; lia |].
  apply encode_fields; [exact Hwf | lia | lia].
Qed.

Lemma zero_infinity_fields_witness :
  zero Traits_double true = Done 0x8000000000000000 /\
  infinity Traits_double true = Done 0xFFF0000000000000 /\
  exponentField Traits_double 0xFFF0000000000000 = 2047.
Proof.
  destruct (zero_infinity_fields Traits_double true wfTraits_double)
    as (z & i & Hz & Hi & Hzv & _ & He & _).
  rewrite Hz, Hi.
  assert (Hi' : i = 0xFFF0000000000000) by (vm_compute in Hi; congruence).
  subst z i. repeat split; first [reflexivity | exact He].
Defined.

(** A set bit [k] of a value of [w] bits is cleared by the mask
    [~(1 << k)]. *)
Lemma land_clear_bit (m k w : Z) :
  0 <= k < w -> 0 <= m < 2 ^ w -> Z.testbit m k = true ->
  Z.land m (wrapU w (Z.lnot (2 ^ k))) = m - 2 ^ k /\ 2 ^ k <= m.
Proof.
  intros Hk Hm Hbit.
  assert (Hge : 2 ^ k <= m).
  { destruct (Z.le_gt_cases (2 ^ k) m) as [H | H]; [exact H |].
    rewrite (testbit_high k k m) in Hbit by lia. discriminate. }
  split; [| exact Hge].
  assert (Hdiff : Z.ldiff (2 ^ k) m = 0).
  { apply Z.bits_inj'. intros n Hn.
    rewrite Z.ldiff_spec, Z.bits_0, Z.pow2_bits_eqb by lia.
    destruct (Z.eqb_spec k n) as [<- | Hne]; [| reflexivity].
    rewrite Hbit. reflexivity. }
  unfold wrapU.
  rewrite <- Z.land_ones by lia.
  rewrite Z.land_assoc, <- Z.ldiff_land.
  rewrite <- (Z.sub_nocarry_ldiff _ _ Hdiff).
  rewrite Z.land_ones by lia.
  apply Z.mod_small. pose proof (pow2_pos k ltac:(lia)). lia.
Qed.

(** What a returning [number] has checked. *)
Lemma number_Done (T : IEEE754Traits) (neg : bool) (M E bits : Z) :
  number T neg M E = Done bits ->
  wrapU (integerWidth T) M < wrapU (integerWidth T) (Z.shiftl 1 (mantissaBits T)).
Proof.
  unfold number. intros H.
  apply bind_Done in H. destruct H as [u [Hu _]].
  apply assert_Done in Hu. apply Z.ltb_lt in Hu. exact Hu.
Qed.

(** Whenever the packer returns on a mantissa of the [Mantissa] type, its
    number is packable. *)
Lemma toIEEE754_Done_packable (T : IEEE754Traits) (n : IEEE754Number) (bits : Z) :
  wfTraits T ->
  0 <= mantissa n < 2 ^ mantissaWidth T ->
  toIEEE754 T n = Done bits -> packable T n.
Proof.
  intros Hwf Hrange H.
  destruct (traits_bounds T Hwf) as (Hmb & Heb & HW & Hmw & HmW & Hmr & Hew).
  destruct (traits_powers T Hwf)
    as (Hp1 & Hp2 & Hp3 & Hp4 & Hp5 & Hpm & Hpme & HpW & Hpmw & HpmW & _).
  assert (Hsucc : 2 ^ (mantissaBits T + 1) = 2 * 2 ^ mantissaBits T)
    by (apply pow2_succ; lia).
  unfold toIEEE754 in H.
  destruct ((mantissa n =? 0) || (exponent n <? exponentSubnormalMin T)) eqn:Hzero.
  { apply orb_true_iff in Hzero. destruct Hzero as [Hz | Hz].
    - left. apply Z.eqb_eq in Hz. exact Hz.
    - right; left. apply Z.ltb_lt in Hz. exact Hz. }
  destruct (exponentMax T <? exponent n) eqn:Hinf.
  { right; right; left. apply Z.ltb_lt in Hinf. exact Hinf. }
  right; right; right.
  rewrite Z.shiftl_1_l in H.
  rewrite (wrapU_small _ (2 ^ mantissaBits T)) in H by lia.
  rewrite land_pow2 in H by lia.
  destruct (Z.testbit (mantissa n) (mantissaBits T)) eqn:Hbit.
  - replace (2 ^ mantissaBits T =? 0) with false in H
      by (symmetry; apply Z.eqb_neq; lia).
    cbn [negb] in H.
    apply bind_Done in H. destruct H as [u1 [_ H]].
    apply bind_Done in H. destruct H as [u2 [Hmin H]].
    apply bind_Done in H. destruct H as [biased [_ H]].
    apply bind_Done in H. destruct H as [u3 [_ H]].
    apply assert_Done in Hmin. apply Z.leb_le in Hmin.
    apply number_Done in H.
    destruct (land_clear_bit (mantissa n) (mantissaBits T) (mantissaWidth T)
                ltac:(lia) Hrange Hbit) as [Hclear Hge].
    rewrite Hclear, Z.shiftl_1_l in H.
    rewrite !wrapU_small in H by lia.
    constructor; [lia | exact Hmin | rewrite Hbit; discriminate].
  - rewrite Z.eqb_refl in H. cbn [negb] in H.
    apply bind_Done in H. destruct H as [u1 [Hbase H]].
    apply assert_Done in Hbase. apply Z.eqb_eq in Hbase.
    apply number_Done in H.
    rewrite Z.shiftl_1_l in H.
    rewrite !wrapU_small in H by lia.
    constructor; [lia | unfold exponentMin; unfold exponentSubnormalBase in Hbase; lia |].
    intros _. right. exact Hbase.
Qed.

(** [number] and the packer end in a pattern or in a failed assertion: the
    one [int] sum of the packer is taken between two assertions that keep
    it in range. *)
Lemma number_cases (T : IEEE754Traits) (neg : bool) (M E : Z) :
  (exists bits, number T neg M E = Done bits) \/ number T neg M E = AssertFailed.
Proof.
  unfold number.
  destruct (wrapU (integerWidth T) M <? _); cbn [assert bind]; eauto.
Qed.

Lemma toIEEE754_cases (T : IEEE754Traits) (n : IEEE754Number) :
  wfTraits T ->
  (exists bits, toIEEE754 T n = Done bits) \/ toIEEE754 T n = AssertFailed.
Proof.
  intros Hwf.
  destruct (traits_bounds T Hwf) as (Hmb & Heb & HW & Hmw & HmW & Hmr & Hew).
  destruct (traits_powers T Hwf) as (Hp1 & Hp2 & Hp3 & Hp4 & _).
  unfold toIEEE754, zero, infinity.
  destruct ((mantissa n =? 0) || (exponent n <? exponentSubnormalMin T));
    [apply number_cases |].
  destruct (exponentMax T <? exponent n); [apply number_cases |].
  destruct (negb (Z.land (mantissa n) _ =? 0)).
  - destruct (exponent n <=? exponentMax T) eqn:H1; cbn [assert bind];
      [| right; reflexivity].
    destruct (exponentMin T <=? exponent n) eqn:H2; cbn [assert bind];
      [| right; reflexivity].
    apply Z.leb_le in H1. apply Z.leb_le in H2.
    rewrite (exponentMax_eq T Hwf) in H1. rewrite (exponentMin_eq T) in H2.
    rewrite int_arith_in_range
      by (rewrite (exponentBase_eq T); cbv [INT_MIN INT_MAX intBits];
          change (32 - 1) with 31; lia).
    cbn [bind].
    destruct (negb (exponent n + exponentBase T =? 0)); cbn [assert bind];
      [apply number_cases | right; reflexivity].
  - destruct (exponent n =? exponentSubnormalBase T); cbn [assert bind];
      [apply number_cases | right; reflexivity].
Qed.

(** X5: on a mantissa of the [Mantissa] type the packer returns a pattern
    exactly when the number is zero, under the subnormal floor, above the
    maximum exponent or normalized; on every other number one of its
    assertions fails. *)
Theorem toIEEE754_returns_iff_packable (T : IEEE754Traits) (n : IEEE754Number) :
  wfTraits T ->
  0 <= mantissa n < 2 ^ mantissaWidth T ->
  (packable T n <-> exists bits, toIEEE754 T n = Done bits) /\
  (~ packable T n -> toIEEE754 T n = AssertFailed).
Proof.
  intros Hwf Hrange.
  assert (Hiff : packable T n <-> exists bits, toIEEE754 T n = Done bits).
  { split.
    - intros Hp. eexists. apply toIEEE754_packable; assumption.
    - intros [bits H]. exact (toIEEE754_Done_packable T n bits Hwf Hrange H). }
  split; [exact Hiff |].
  intros Hnot.
  destruct (toIEEE754_cases T n Hwf) as [Hdone | Hfail]; [| exact Hfail].
  exfalso. apply Hnot. apply Hiff. exact Hdone.
Qed.

Lemma toIEEE754_returns_iff_packable_witness :
  0 <= 3 < 2 ^ mantissaWidth Traits_double /\
  ~ packable Traits_double (mkNumber false 3 5) /\
  toIEEE754 Traits_double (mkNumber false 3 5) = AssertFailed.
Proof.
  destruct (toIEEE754_returns_iff_packable Traits_double (mkNumber false 3 5)
              wfTraits_double) as [Hiff Hfail].
  - vm_compute. split; [discriminate | reflexivity].
  - split; [vm_compute; split; [discriminate | reflexivity] |].
    assert (Hnot : ~ packable Traits_double (mkNumber false 3 5)).
    { intros Hp. apply Hiff in Hp. destruct Hp as [bits Hb]. discriminate Hb. }
    split; [exact Hnot | exact (Hfail Hnot)].
Defined.

(** In the case analysis of the packer an exponent field of all ones comes
    with an empty mantissa field. *)
Lemma packedFields_all_ones (T : IEEE754Traits) (n : IEEE754Number) :
  wfTraits T -> packable T n ->
  fst (packedFields T n) = 2 ^ exponentBits T - 1 -> snd (packedFields T n) = 0.
Proof.
  intros Hwf Hpack.
  destruct (traits_bounds T Hwf) as (Hmb & Heb & _).
  destruct (traits_powers T Hwf) as (Hp1 & Hp2 & _).
  unfold packedFields.
  destruct ((mantissa n =? 0) || (exponent n <? exponentSubnormalMin T));
    [reflexivity |].
  destruct (exponentMax T <? exponent n) eqn:Hinf; [reflexivity |].
  apply Z.ltb_ge in Hinf. rewrite (exponentMax_eq T Hwf) in Hinf.
  destruct (Z.testbit (mantissa n) (mantissaBits T)); cbn [fst snd];
    rewrite ?(exponentBase_eq T); lia.
Qed.

(** X6: the packer never returns a NaN: in a pattern it returns, an exponent
    field of all ones has an empty mantissa field. *)
Theorem toIEEE754_never_nan (T : IEEE754Traits) (n : IEEE754Number) (bits : Z) :
  wfTraits T ->
  0 <= mantissa n < 2 ^ mantissaWidth T ->
  toIEEE754 T n = Done bits ->
  exponentField T bits = 2 ^ exponentBits T - 1 -> mantissaField T bits = 0.
Proof.
  intros Hwf Hrange H Hones.
  pose proof (toIEEE754_Done_packable T n bits Hwf Hrange H) as Hpack.
  rewrite (toIEEE754_packable T Hwf n Hpack) in H. injection H as Hbits.
  subst bits.
  destruct (packedFields_range T Hwf n Hpack) as [HE HM].
  destruct (encode_fields T Hwf (negative n) _ _ HE HM) as (_ & Hexp & Hman).
  rewrite Hman.
  apply packedFields_all_ones; [exact Hwf | exact Hpack |].
  rewrite <- Hexp. exact Hones.
Qed.

Lemma toIEEE754_never_nan_witness :
  toIEEE754 Traits_double (mkNumber false 0x10000000000001 2000)
    = Done 0x7FF0000000000000 /\
  mantissaField Traits_double 0x7FF0000000000000 = 0.
Proof.
  assert (H : toIEEE754 Traits_double (mkNumber false 0x10000000000001 2000)
              = Done 0x7FF0000000000000) by (vm_compute; reflexivity).
  assert (Hr : 0 <= mantissa (mkNumber false 0x10000000000001 2000)
               < 2 ^ mantissaWidth Traits_double)
    by (vm_compute; split; [discriminate | reflexivity]).
  assert (He : exponentField Traits_double 0x7FF0000000000000
               = 2 ^ exponentBits Traits_double - 1) by (vm_compute; reflexivity).
  split; [exact H |].
  exact (toIEEE754_never_nan Traits_double _ _ wfTraits_double Hr H He).
Defined.

(** X7: two normalized, nonzero numbers within the exponent range that the
    packer sends to the same pattern are the same number. *)
Theorem toIEEE754_injective (T : IEEE754Traits) (a b : IEEE754Number) (bits : Z) :
  wfTraits T ->
  normalized T a -> normalized T b ->
  mantissa a <> 0 -> mantissa b <> 0 ->
  exponent a <= exponentMax T -> exponent b <= exponentMax T ->
  toIEEE754 T a = Done bits -> toIEEE754 T b = Done bits ->
  a = b.
Proof.
  intros Hwf Hna Hnb Ha0 Hb0 Hamax Hbmax Ha Hb.
  destruct (traits_bounds T Hwf) as (Hmb & Heb & _).
  destruct (traits_powers T Hwf) as (Hp1 & Hp2 & _ & _ & _ & Hpm & _).
  assert (Hpa : packable T a) by (right; right; right; exact Hna).
  assert (Hpb : packable T b) by (right; right; right; exact Hnb).
  rewrite (toIEEE754_packable T Hwf a Hpa) in Ha.
  rewrite (toIEEE754_packable T Hwf b Hpb) in Hb.
  injection Ha as Hea. injection Hb as Heb'.
  destruct (packedFields_range T Hwf a Hpa) as [HEa HMa].
  destruct (packedFields_range T Hwf b Hpb) as [HEb HMb].
  destruct (encode_fields T Hwf (negative a) _ _ HEa HMa) as (Hsa & Hxa & Hma).
  destruct (encode_fields T Hwf (negative b) _ _ HEb HMb) as (Hsb & Hxb & Hmb').
  rewrite Hea in Hsa, Hxa, Hma. rewrite Heb' in Hsb, Hxb, Hmb'.
  assert (Hsign : negative a = negative b).
  { destruct (negative a), (negative b); try reflexivity; lia. }
  assert (Hfields : packedFields T a = packedFields T b).
  { destruct (packedFields T a), (packedFields T b). cbn [fst snd] in *. congruence. }
  clear Hea Heb' Hsa Hsb Hxa Hxb Hma Hmb' HEa HEb HMa HMb.
  destruct Hna as [Hma Hea Hsuba]. destruct Hnb as [Hmb' Heb' Hsubb].
  unfold packedFields in Hfields.
  replace ((mantissa a =? 0) || (exponent a <? exponentSubnormalMin T)) with false
    in Hfields.
  2: { symmetry. apply orb_false_iff. split; [apply Z.eqb_neq; exact Ha0 |].
       apply Z.ltb_ge. unfold exponentSubnormalMin, exponentSubnormalBase, exponentMin in *. lia. }
  replace ((mantissa b =? 0) || (exponent b <? exponentSubnormalMin T)) with false
    in Hfields.
  2: { symmetry. apply orb_false_iff. split; [apply Z.eqb_neq; exact Hb0 |].
       apply Z.ltb_ge. unfold exponentSubnormalMin, exponentSubnormalBase, exponentMin in *. lia. }
  replace (exponentMax T <? exponent a) with false in Hfields
    by (symmetry; apply Z.ltb_ge; exact Hamax).
  replace (exponentMax T <? exponent b) with false in Hfields
    by (symmetry; apply Z.ltb_ge; exact Hbmax).
  rewrite (exponentMin_eq T) in Hea, Heb'.
  assert (Hbase : exponentSubnormalBase T = 2 - 2 ^ (exponentBits T - 1))
    by (unfold exponentSubnormalBase; rewrite (exponentBase_eq T); lia).
  destruct a as [na ma ea], b as [nb mb' eb'].
  cbn [negative mantissa exponent] in *.
  destruct (Z.testbit ma (mantissaBits T)) eqn:Ba;
    destruct (Z.testbit mb' (mantissaBits T)) eqn:Bb;
    injection Hfields; intros;
    rewrite ?(exponentBase_eq T) in *.
  - f_equal; [exact Hsign | lia | lia].
  - exfalso. lia.
  - exfalso. lia.
  - destruct (Hsuba eq_refl) as [? | Hxa]; [contradiction |].
    destruct (Hsubb eq_refl) as [? | Hxb]; [contradiction |].
    f_equal; [exact Hsign | lia | congruence].
Qed.

Lemma toIEEE754_injective_witness :
  toIEEE754 Traits_double (mkNumber false 0x18000000000000 1) = Done 0x4008000000000000 /\
  mkNumber false 0x18000000000000 1 = mkNumber false 0x18000000000000 1.
Proof.
  assert (H : toIEEE754 Traits_double (mkNumber false 0x18000000000000 1)
              = Done 0x4008000000000000) by (vm_compute; reflexivity).
  assert (Hn : normalized Traits_double (mkNumber false 0x18000000000000 1))
    by (constructor; vm_compute; intuition discriminate).
  split; [exact H |].
  apply (toIEEE754_injective Traits_double _ _ 0x4008000000000000
           wfTraits_double Hn Hn);
    try (vm_compute; discriminate); exact H.
Defined.

(** X8: the sign only sets the top bit: the pattern of a negative number is
    the pattern of its opposite plus [2 ^ (mantissaBits + exponentBits)]. *)
Theorem toIEEE754_sign_bit (T : IEEE754Traits) (m e positive : Z) :
  wfTraits T ->
  toIEEE754 T (mkNumber false m e) = Done positive ->
  0 <= m < 2 ^ mantissaWidth T ->
  0 <= positive < 2 ^ (mantissaBits T + exponentBits T) /\
  toIEEE754 T (mkNumber true m e)
    = Done (positive + 2 ^ (mantissaBits T + exponentBits T)).
Proof.
  intros Hwf H Hrange.
  destruct (traits_bounds T Hwf) as (Hmb & Heb & _).
  destruct (traits_powers T Hwf) as (Hp1 & Hp2 & _ & _ & _ & Hpm & Hpme & _).
  pose proof (toIEEE754_Done_packable T (mkNumber false m e) positive Hwf Hrange H)
    as Hpack.
  assert (Hpack' : packable T (mkNumber true m e)).
  { destruct Hpack as [Hp | [Hp | [Hp | [H1 H2 H3]]]];
      [left | right; left | right; right; left | right; right; right];
      try exact Hp.
    constructor; assumption. }
  rewrite (toIEEE754_packable T Hwf _ Hpack) in H.
  rewrite (toIEEE754_packable T Hwf _ Hpack').
  destruct (packedFields_range T Hwf _ Hpack) as [HE HM].
  assert (Hsame : packedFields T (mkNumber true m e) = packedFields T (mkNumber false m e))
    by reflexivity.
  rewrite Hsame.
  injection H as Hpos. subst positive. unfold encode. cbn [negative].
  split; [nia | f_equal; lia].
Qed.

Lemma toIEEE754_sign_bit_witness :
  toIEEE754 Traits_double (mkNumber false 0x10000000000000 0) = Done 0x3FF0000000000000 /\
  toIEEE754 Traits_double (mkNumber true 0x10000000000000 0) = Done 0xBFF0000000000000.
Proof.
  assert (H : toIEEE754 Traits_double (mkNumber false 0x10000000000000 0)
              = Done 0x3FF0000000000000) by (vm_compute; reflexivity).
  split; [exact H |].
  apply (toIEEE754_sign_bit Traits_double _ _ _ wfTraits_double H).
  vm_compute. split; [discriminate | reflexivity].
Defined.

(** ** The sign through the conversion *)

(** X9: [convertTwobase] carries the sign over unchanged, and the mantissa
    and exponent it returns do not depend on the sign. *)
Theorem convertTwobase_sign (T : IEEE754Traits) (fuel : nat) (neg : bool) (m e : Z)
    (r : IEEE754Number) :
  convertTwobase T fuel (mkNumber neg m e) = Done r ->
  negative r = neg /\
  convertTwobase T fuel (mkNumber (negb neg) m e)
    = Done (mkNumber (negb neg) (mantissa r) (exponent r)).
Proof.
  unfold convertTwobase. cbn [negative mantissa exponent].
  intros H.
  apply bind_Done in H. destruct H as [s [Hs H]].
  rewrite Hs. cbn [bind].
  apply bind_Done in H. destruct H as [u [Hu H]].
  rewrite Hu. cbn [bind].
  destruct (varmantissa s =? 0).
  { inversion H; subst. cbn [negative mantissa exponent]. auto. }
  apply bind_Done in H. destruct H as [[v1 p1] [H1 H]]. rewrite H1. cbn [bind].
  apply bind_Done in H. destruct H as [[v2 p2] [H2 H]]. rewrite H2. cbn [bind].
  apply bind_Done in H. destruct H as [two [H3 H]]. rewrite H3. cbn [bind].
  apply bind_Done in H. destruct H as [[v3 two3] [H4 H]]. rewrite H4. cbn [bind].
  inversion H; subst. cbn [negative mantissa exponent]. auto.
Qed.

Lemma convertTwobase_sign_witness :
  convertTwobase Traits_double 64 (mkNumber true 5 0)
    = Done (mkNumber true 0x14000000000000 2) /\
  convertTwobase Traits_double 64 (mkNumber false 5 0)
    = Done (mkNumber false 0x14000000000000 2).
Proof.
  assert (H : convertTwobase Traits_double 64 (mkNumber true 5 0)
              = Done (mkNumber true 0x14000000000000 2)) by (vm_compute; reflexivity).
  split; [exact H |].
  exact (proj2 (convertTwobase_sign Traits_double 64 true 5 0 _ H)).
Defined.

(** ** The lexer: case, bounds and failures *)

Lemma toLower_idempotent (c : Z) : toLower (toLower c) = toLower c.
Proof.
  unfold toLower.
  destruct ((65 <=? c) && (c <=? 90)) eqn:E.
  - apply andb_true_iff in E. destruct E as [E1 E2].
    apply Z.leb_le in E1. apply Z.leb_le in E2.
    replace ((65 <=? c + 97 - 65) && (c + 97 - 65 <=? 90)) with false; [reflexivity |].
    symmetry. apply andb_false_iff. right. apply Z.leb_gt. lia.
  - rewrite E. reflexivity.
Qed.

Lemma equalsLowered_lowered (s str : text) :
  equalsLowered (map toLower s) str = equalsLowered s str.
Proof.
  revert str. induction s as [| c s IH]; intros [| d str]; cbn [map equalsLowered];
    try reflexivity.
  rewrite toLower_idempotent, IH. reflexivity.
Qed.

Lemma equalsLowered_length (s str : text) :
  equalsLowered s str = true -> List.length s = List.length str.
Proof.
  revert str. induction s as [| c s IH]; intros [| d str]; cbn [equalsLowered];
    intros H; try discriminate; [reflexivity |].
  apply andb_true_iff in H. destruct H as [_ H].
  cbn [List.length]. f_equal. apply IH. exact H.
Qed.

(** X10: the comparison with a literal ignores the case of the input, and
    holds only between texts of the same length, with equal characters once
    lowered. *)
Theorem equalsIgnoreCase_insensitive (s : text) (str : string) :
  equalsIgnoreCase (map toLower s) str = equalsIgnoreCase s str /\
  (equalsIgnoreCase s str = true ->
   List.length s = List.length (codes str) /\
   map toLower s = map toLower (codes str)).
Proof.
  unfold equalsIgnoreCase. split; [apply equalsLowered_lowered |].
  intros H. split; [apply equalsLowered_length; exact H |].
  revert H. generalize (codes str) as l.
  induction s as [| c s IH]; intros [| d l]; cbn [equalsLowered map];
    intros H; try discriminate; [reflexivity |].
  apply andb_true_iff in H. destruct H as [Hc H].
  apply Z.eqb_eq in Hc. rewrite Hc. f_equal. apply IH. exact H.
Qed.

Lemma equalsIgnoreCase_insensitive_witness :
  equalsIgnoreCase (codes "nAn") "NaN" = true /\
  map toLower (codes "nAn") = map toLower (codes "NaN").
Proof.
  assert (H : equalsIgnoreCase (codes "nAn") "NaN" = true) by reflexivity.
  split; [exact H |].
  exact (proj2 (proj2 (equalsIgnoreCase_insensitive (codes "nAn") "NaN") H)).
Defined.

(** What a returning round of [parseMantissa] returns: the error, or the
    current index after at least one digit. *)
Lemma parseMantissa_step_Return (T : IEEE754Traits) (i : nat) (c : Z)
    (st : MantissaState) (x : nat * IEEE754Number) :
  parseMantissa_step T i c st = Done (Return x) ->
  x = parseError \/ (digits st = true /\ fst x = i).
Proof.
  unfold parseMantissa_step. intros H.
  destruct (isDigit c).
  { apply bind_Done in H. destruct H as [st' [_ H]]. discriminate. }
  destruct (isSign c).
  { destruct (negb (Nat.eqb i 0)); inversion H; auto. }
  destruct (c =? 46).
  { destruct (stopExponent st); inversion H; auto. }
  destruct (digits st) eqn:Hd; cbn [negb] in H; inversion H; auto.
Qed.

Lemma parseMantissa_from_bounds (T : IEEE754Traits) (rest : text) :
  forall (i : nat) (st : MantissaState) (p : nat) (n : IEEE754Number),
    (i = O -> digits st = false) ->
    parseMantissa_from T i rest st = Done (p, n) ->
    (p, n) = parseError \/ (0 < p /\ i <= p <= i + List.length rest)%nat.
Proof.
  induction rest as [| c rest IH]; intros i st p n Hi H; cbn [parseMantissa_from] in H;
    apply bind_Done in H; destruct H as [r [Hr H]].
  - destruct r as [st' | x]; [discriminate |].
    inversion H; subst x.
    apply parseMantissa_step_Return in Hr. destruct Hr as [Hr | [Hd Hp]]; [auto |].
    right. cbn [fst List.length] in *. subst p.
    destruct i; [rewrite (Hi eq_refl) in Hd; discriminate | lia].
  - destruct r as [st' | x].
    + apply IH in H; [| intros Hf; discriminate].
      destruct H as [H | H]; [auto | right; cbn [List.length]; lia].
    + inversion H; subst x.
      apply parseMantissa_step_Return in Hr. destruct Hr as [Hr | [Hd Hp]]; [auto |].
      right. cbn [fst List.length] in *. subst p.
      destruct i; [rewrite (Hi eq_refl) in Hd; discriminate | lia].
Qed.

Lemma parseExponent_step_Return (T : IEEE754Traits) (i : nat) (c : Z)
    (st : Z * bool) (x : nat * Z) :
  parseExponent_step T i c st = Done (Return x) ->
  x = (O, 0) \/ (fst x = i /\ (st = (0, false) -> snd x = 0)).
Proof.
  unfold parseExponent_step. destruct st as [e neg]. intros H.
  destruct (isDigit c).
  { apply bind_Done in H. destruct H as [limit [_ H]].
    apply bind_Done in H. destruct H as [overflow [_ H]].
    destruct overflow; [inversion H; auto |].
    apply bind_Done in H. destruct H as [e1 [_ H]].
    apply bind_Done in H. destruct H as [e2 [_ H]]. discriminate. }
  destruct (isSign c).
  { destruct (negb (Nat.eqb i 0)); inversion H; auto. }
  destruct neg; cbn [negb] in H.
  - apply bind_Done in H. destruct H as [o [_ H]]. inversion H.
    right. split; [reflexivity |]. intros Hst. discriminate.
  - inversion H. right. split; [reflexivity |].
    intros Hst. inversion Hst. reflexivity.
Qed.

Lemma parseExponent_from_bounds (T : IEEE754Traits) (rest : text) :
  forall (i : nat) (st : Z * bool) (p : nat) (e : Z),
    (i = O -> st = (0, false)) ->
    parseExponent_from T i rest st = Done (p, e) ->
    (p, e) = (O, 0) \/ (0 < p /\ i <= p <= i + List.length rest)%nat.
Proof.
  assert (Hret : forall i st p e,
            (i = O -> st = (0, false)) ->
            (p, e) = (O, 0) \/ (fst (p, e) = i /\ (st = (0, false) -> snd (p, e) = 0)) ->
            (p, e) = (O, 0) \/ (0 < p /\ i <= p <= i + 0)%nat).
  { intros i st p e Hi [H | [Hp He]]; [auto |].
    cbn [fst snd] in *. subst p.
    destruct i; [left; rewrite (He (Hi eq_refl)); reflexivity | right; lia]. }
  induction rest as [| c rest IH]; intros i st p e Hi H; cbn [parseExponent_from] in H;
    apply bind_Done in H; destruct H as [r [Hr H]].
  - destruct r as [st' | x]; [discriminate |].
    inversion H; subst x.
    apply parseExponent_step_Return in Hr.
    exact (Hret i st p e Hi Hr).
  - destruct r as [st' | x].
    + apply IH in H; [| intros Hf; discriminate].
      destruct H as [H | H]; [auto | right; cbn [List.length]; lia].
    + inversion H; subst x.
      apply parseExponent_step_Return in Hr.
      destruct (Hret i st p e Hi Hr) as [H' | H']; [auto | right; cbn [List.length]; lia].
Qed.

(** X11: the lexer never reports more characters than the text holds, and a
    consumed length of zero always comes with the zero triple
    (false, 0, 0). *)
Theorem parseMantissaExponent_bounds (T : IEEE754Traits) (s : text)
    (p : nat) (n : IEEE754Number) :
  parseMantissaExponent T s = Done (p, n) ->
  (p <= List.length s)%nat /\ (p = O -> n = mkNumber false 0 0).
Proof.
  unfold parseMantissaExponent. intros H.
  apply bind_Done in H. destruct H as [[parsed number] [Hm H]].
  apply parseMantissa_from_bounds in Hm; [| reflexivity].
  destruct (Nat.eqb parsed 0) eqn:Hz.
  { inversion H. split; [lia | reflexivity]. }
  apply Nat.eqb_neq in Hz.
  destruct Hm as [Hm | Hm]; [inversion Hm; contradiction |].
  cbn [plus] in Hm.
  destruct ((charAt s parsed =? 101) || (charAt s parsed =? 69)) eqn:He.
  - assert (Hlt : (parsed < List.length s)%nat).
    { destruct (Nat.lt_ge_cases parsed (List.length s)) as [Hlt | Hge]; [exact Hlt |].
      unfold charAt in He. rewrite (nth_overflow s 0 Hge) in He. discriminate. }
    apply bind_Done in H. destruct H as [[pe ee] [Hx H]].
    apply parseExponent_from_bounds in Hx; [| reflexivity].
    destruct (Nat.eqb pe 0) eqn:Hpe.
    { inversion H. split; [lia | reflexivity]. }
    apply Nat.eqb_neq in Hpe.
    destruct Hx as [Hx | Hx]; [inversion Hx; contradiction |].
    apply bind_Done in H. destruct H as [e' [_ H]]. inversion H; subst.
    rewrite length_skipn in Hx. split; lia.
  - inversion H; subst. split; lia.
Qed.

Lemma parseMantissaExponent_bounds_witness :
  parseMantissaExponent Traits_double (codes "1.5e3xyz")
    = Done (5%nat, mkNumber false 15 2) /\
  (5 <= List.length (codes "1.5e3xyz"))%nat.
Proof.
  assert (H : parseMantissaExponent Traits_double (codes "1.5e3xyz")
              = Done (5%nat, mkNumber false 15 2)) by (vm_compute; reflexivity).
  split; [exact H |].
  exact (proj1 (parseMantissaExponent_bounds Traits_double _ _ _ H)).
Defined.

(** ** The lexer on decimal literals below the overflow threshold *)

Lemma digitsValue_nonneg (ds : text) :
  Forall (fun c => isDigit c = true) ds ->
  forall acc, 0 <= acc -> acc <= digitsValue acc ds.
Proof.
  induction 1 as [| c ds Hc _ IH]; intros acc Hacc; [apply Z.le_refl |].
  unfold digitsValue in *. cbn [fold_left].
  unfold isDigit in Hc. apply andb_true_iff in Hc. destruct Hc as [H1 H2].
  apply Z.leb_le in H1. apply Z.leb_le in H2.
  specialize (IH (acc * 10 + (c - 48)) ltac:(lia)). lia.
Qed.

Lemma digitsValue_app (acc : Z) (a b : text) :
  digitsValue acc (a ++ b) = digitsValue (digitsValue acc a) b.
Proof. unfold digitsValue. apply fold_left_app. Qed.

Section Decimal.

Variable T : IEEE754Traits.
Hypothesis Hwf : wfTraits T.

(** One digit that fits: the mantissa takes it, and the exponent goes down
    by one after the point. *)
Lemma parseMantissa_digit_fits (c : Z) (st : MantissaState) :
  isDigit c = true ->
  stopMantissa st = false ->
  0 <= m_mantissa st ->
  m_mantissa st * 10 + (c - 48) <= umax (mantissaWidth T) ->
  (stopExponent st = true -> - 2 ^ (exponentWidth T - 1) < m_exponent st <= 0) ->
  parseMantissa_digit T c st =
    Done (mkMState (m_mantissa st * 10 + (c - 48))
            (if stopExponent st then m_exponent st - 1 else m_exponent st)
            (m_negative st) (stopExponent st) false true).
Proof.
  intros Hc Hstop Hm Hfit He.
  assert (Hd : 48 <= c <= 57).
  { unfold isDigit in Hc. apply andb_true_iff in Hc. destruct Hc as [H1 H2].
    apply Z.leb_le in H1. apply Z.leb_le in H2. lia. }
  destruct (traits_bounds T Hwf) as (Hmb & Heb & HW & Hmw & HmW & Hmr & Hew).
  destruct (traits_powers T Hwf) as (Hp1 & Hp2 & Hp3 & Hp4 & Hp5 & _).
  unfold parseMantissa_digit. rewrite Hstop. cbn [negb orb andb].
  unfold umax in *.
  set (U := 2 ^ mantissaWidth T - 1) in *.
  assert (Hlarge :
    (U / 10 <=? m_mantissa st) &&
    ((U / 10 <? m_mantissa st) ||
     ((m_mantissa st =? U / 10) && ((U - (c - 48)) / 10 <? m_mantissa st))) = false).
  { destruct (U / 10 <=? m_mantissa st) eqn:A; [| reflexivity].
    apply Z.leb_le in A. cbn [andb].
    apply orb_false_iff. split.
    - apply Z.ltb_ge. Z.div_mod_to_equations. lia.
    - apply andb_false_iff. right. apply Z.ltb_ge. Z.div_mod_to_equations. lia. }
  rewrite Hlarge. cbn [negb bind].
  rewrite (wrapU_small _ (m_mantissa st * 10)) by (subst U; lia).
  rewrite wrapU_small by (subst U; lia).
  destruct (stopExponent st); [| reflexivity].
  specialize (He eq_refl).
  unfold eadd.
  rewrite int_arith_in_range
    by (cbv [INT_MIN INT_MAX intBits]; change (32 - 1) with 31; lia).
  cbn [bind].
  rewrite (toExponent_small T Hwf) by lia.
  replace (m_exponent st + -1) with (m_exponent st - 1) by lia.
  reflexivity.
Qed.

(** A run of digits that fits, whatever follows it. *)
Lemma parseMantissa_from_digits (ds : text) :
  Forall (fun c => isDigit c = true) ds ->
  forall (i : nat) (st : MantissaState) (tail : text),
    stopMantissa st = false ->
    0 <= m_mantissa st ->
    digitsValue (m_mantissa st) ds <= umax (mantissaWidth T) ->
    (stopExponent st = true ->
     m_exponent st <= 0 /\
     - 2 ^ (exponentWidth T - 1) + Z.of_nat (List.length ds) <= m_exponent st) ->
    parseMantissa_from T i (ds ++ tail) st =
    parseMantissa_from T (i + List.length ds) tail
      (mkMState (digitsValue (m_mantissa st) ds)
         (if stopExponent st then m_exponent st - Z.of_nat (List.length ds)
          else m_exponent st)
         (m_negative st) (stopExponent st) false
         (match ds with [] => digits st | _ => true end)).
Proof.
  induction 1 as [| c ds Hc Hds IH]; intros i st tail Hstop Hm Hfit Hroom.
  - cbn [app List.length digitsValue fold_left Z.of_nat].
    rewrite Nat.add_0_r, Z.sub_0_r.
    destruct st as [m e neg se sm dg]. cbn in *. subst sm.
    destruct se; reflexivity.
  - assert (Hd : 48 <= c <= 57).
    { unfold isDigit in Hc. apply andb_true_iff in Hc. destruct Hc as [H1 H2].
      apply Z.leb_le in H1. apply Z.leb_le in H2. lia. }
    change (digitsValue (m_mantissa st) (c :: ds))
      with (digitsValue (m_mantissa st * 10 + (c - 48)) ds) in *.
    pose proof (digitsValue_nonneg ds Hds (m_mantissa st * 10 + (c - 48)) ltac:(lia))
      as Hgrow.
    cbn [app parseMantissa_from]. unfold parseMantissa_step. rewrite Hc.
    cbn [List.length] in Hroom. rewrite Nat2Z.inj_succ in Hroom.
    rewrite parseMantissa_digit_fits
      by (try assumption; try lia; intros Hse; specialize (Hroom Hse); lia).
    cbn [bind].
    rewrite IH; cbn [stopMantissa m_mantissa m_exponent stopExponent m_negative digits];
      try reflexivity; try lia;
      try (intros Hse; specialize (Hroom Hse); rewrite Hse; lia).
    cbn [List.length]. rewrite Nat.add_succ_r. cbn [plus].
    rewrite Nat2Z.inj_succ.
    destruct (stopExponent st);
      [replace (m_exponent st - 1 - Z.of_nat (List.length ds))
         with (m_exponent st - Z.succ (Z.of_nat (List.length ds))) by lia |];
      destruct ds; reflexivity.
Qed.

(** The body of a decimal literal that fits: the loop reaches what follows
    the literal with the value of its digits, minus the number of digits
    after the point as exponent, and the sign. *)
Lemma parseMantissa_body (sg : option bool) (intPart : text) (hasDot : bool)
    (fracPart tail : text) :
  Forall (fun c => isDigit c = true) intPart ->
  Forall (fun c => isDigit c = true) fracPart ->
  (hasDot = false -> fracPart = []) ->
  digitsValue 0 (intPart ++ fracPart) <= umax (mantissaWidth T) ->
  Z.of_nat (List.length fracPart) <= 2 ^ (exponentWidth T - 1) ->
  parseMantissa T (decimalText sg intPart hasDot fracPart ++ tail) =
  parseMantissa_from T (List.length (decimalText sg intPart hasDot fracPart)) tail
    (mkMState (digitsValue 0 (intPart ++ fracPart))
       (- Z.of_nat (List.length fracPart)) (isNegativeSign sg) hasDot false
       (match intPart ++ fracPart with [] => false | _ => true end)).
Proof.
  intros Hint Hfrac Hdot Hfit Hroom.
  rewrite digitsValue_app in Hfit.
  pose proof (digitsValue_nonneg intPart Hint 0 ltac:(lia)) as Hv1.
  pose proof (digitsValue_nonneg fracPart Hfrac _ Hv1) as Hv2.
  assert (Hgen : forall (i : nat) (neg : bool),
    parseMantissa_from T i (intPart ++ dotText hasDot ++ fracPart ++ tail)
      (mkMState 0 0 neg false false false) =
    parseMantissa_from T
      (i + List.length (intPart ++ dotText hasDot ++ fracPart)) tail
      (mkMState (digitsValue 0 (intPart ++ fracPart))
         (- Z.of_nat (List.length fracPart)) neg hasDot false
         (match intPart ++ fracPart with [] => false | _ => true end))).
  { intros i neg.
    rewrite (parseMantissa_from_digits intPart Hint)
      by (cbn [stopMantissa m_mantissa stopExponent]; try reflexivity; try lia;
          intros Hf; discriminate).
    cbn [stopMantissa m_mantissa m_exponent stopExponent m_negative digits].
    destruct hasDot.
    - cbn [dotText app parseMantissa_from]. unfold parseMantissa_step.
      change (isDigit 46) with false. change (isSign 46) with false.
      change (46 =? 46) with true.
      cbn [stopExponent m_mantissa m_exponent m_negative stopMantissa digits bind].
      rewrite (parseMantissa_from_digits fracPart Hfrac)
        by (cbn [stopMantissa m_mantissa stopExponent m_exponent];
            try reflexivity; try lia; intros _; lia).
      cbn [stopMantissa m_mantissa m_exponent stopExponent m_negative digits].
      rewrite digitsValue_app.
      rewrite !length_app. cbn [List.length].
      replace (S (i + List.length intPart) + List.length fracPart)%nat
        with (i + (List.length intPart + S (List.length fracPart)))%nat by lia.
      rewrite Z.sub_0_l.
      destruct intPart, fracPart; reflexivity.
    - rewrite (Hdot eq_refl). cbn [dotText app List.length Z.of_nat].
      rewrite !app_nil_r. cbn [digitsValue fold_left].
      reflexivity. }
  unfold parseMantissa, decimalText.
  rewrite <- !app_assoc.
  destruct sg as [[|] |]; cbn [signText app isNegativeSign].
  - cbn [parseMantissa_from]. unfold parseMantissa_step at 1.
    change (isDigit 45) with false. change (isSign 45) with true.
    cbn [Nat.eqb negb bind m_mantissa m_exponent stopExponent stopMantissa digits].
    change (45 =? 45) with true.
    rewrite Hgen. cbn [List.length plus]. reflexivity.
  - cbn [parseMantissa_from]. unfold parseMantissa_step at 1.
    change (isDigit 43) with false. change (isSign 43) with true.
    cbn [Nat.eqb negb bind m_mantissa m_exponent stopExponent stopMantissa digits].
    change (43 =? 45) with false.
    rewrite Hgen. cbn [List.length plus]. reflexivity.
  - rewrite Hgen. cbn [plus]. reflexivity.
Qed.

(** The round on what ends the mantissa. *)
Lemma parseMantissa_from_terminated (i : nat) (tail : text) (st : MantissaState) :
  terminated tail = true ->
  parseMantissa_from T i tail st =
    Done (if digits st
          then (i, mkNumber (m_negative st) (m_mantissa st) (m_exponent st))
          else parseError).
Proof.
  intros Hterm.
  assert (Hstep : forall c, terminator c = true ->
            parseMantissa_step T i c st =
              Done (Return (if digits st
                            then (i, mkNumber (m_negative st) (m_mantissa st) (m_exponent st))
                            else parseError))).
  { intros c Hc. unfold terminator in Hc.
    apply andb_true_iff in Hc. destruct Hc as [Hc H3].
    apply andb_true_iff in Hc. destruct Hc as [H1 H2].
    apply negb_true_iff in H1. apply negb_true_iff in H2. apply negb_true_iff in H3.
    unfold parseMantissa_step. rewrite H1, H2, H3.
    destruct (digits st); reflexivity. }
  destruct tail as [| c rest]; cbn [parseMantissa_from terminated] in *.
  - rewrite (Hstep 0 eq_refl). reflexivity.
  - rewrite (Hstep c Hterm). reflexivity.
Qed.

Lemma decimalText_length (sg : option bool) (intPart : text) (hasDot : bool)
    (fracPart : text) :
  (List.length intPart + List.length fracPart
   <= List.length (decimalText sg intPart hasDot fracPart))%nat.
Proof. unfold decimalText. rewrite !length_app. lia. Qed.

Lemma charAt_app (body tail : text) :
  charAt (body ++ tail) (List.length body) = hd 0 tail.
Proof.
  unfold charAt. rewrite app_nth2 by lia. rewrite Nat.sub_diag.
  destruct tail; reflexivity.
Qed.

Lemma skipn_app_cons (body : text) (c : Z) (rest : text) :
  skipn (S (List.length body)) (body ++ c :: rest) = rest.
Proof. induction body as [| b body IH]; [reflexivity | exact IH]. Qed.

(** X12: a decimal literal whose digits fit the mantissa type and that has
    at most [2 ^ (exponentWidth - 1)] digits after the point (an optional
    sign, digits, an optional point with digits, then the end of the text
    or a character that is no digit, sign, point or exponent mark) is
    consumed whole: the mantissa is the value of all its digits, the
    exponent minus the number of digits after the point, and the sign is
    negative exactly for a leading minus. *)
Theorem parseMantissaExponent_decimal (sg : option bool) (intPart : text)
    (hasDot : bool) (fracPart tail : text) :
  Forall (fun c => isDigit c = true) intPart ->
  Forall (fun c => isDigit c = true) fracPart ->
  (hasDot = false -> fracPart = []) ->
  intPart ++ fracPart <> [] ->
  digitsValue 0 (intPart ++ fracPart) <= umax (mantissaWidth T) ->
  Z.of_nat (List.length fracPart) <= 2 ^ (exponentWidth T - 1) ->
  terminated tail = true -> hd 0 tail <> 101 -> hd 0 tail <> 69 ->
  parseMantissaExponent T (decimalText sg intPart hasDot fracPart ++ tail) =
    Done (List.length (decimalText sg intPart hasDot fracPart),
          mkNumber (isNegativeSign sg) (digitsValue 0 (intPart ++ fracPart))
            (- Z.of_nat (List.length fracPart))).
Proof.
  intros Hint Hfrac Hdot Hne Hfit Hroom Hterm He1 He2.
  unfold parseMantissaExponent.
  rewrite parseMantissa_body by assumption.
  rewrite parseMantissa_from_terminated by exact Hterm.
  cbn [digits m_negative m_mantissa m_exponent].
  pose proof (decimalText_length sg intPart hasDot fracPart) as Hlen.
  assert (Hpos : (0 < List.length intPart + List.length fracPart)%nat).
  { rewrite <- length_app. destruct (intPart ++ fracPart); [contradiction | cbn; lia]. }
  destruct (intPart ++ fracPart) eqn:Hds; [contradiction |].
  cbn [bind].
  replace (Nat.eqb (List.length (decimalText sg intPart hasDot fracPart)) 0) with false
    by (symmetry; apply Nat.eqb_neq; lia).
  rewrite charAt_app.
  replace ((hd 0 tail =? 101) || (hd 0 tail =? 69)) with false; [reflexivity |].
  symmetry. apply orb_false_iff. split; apply Z.eqb_neq; assumption.
Qed.

(** X13: the same literal followed by [e] or [E], an optional sign and
    digits whose value fits the exponent type, is consumed whole, and the
    signed explicit exponent is added to the exponent of the mantissa,
    provided the sum is not below the minimum of the exponent type.  A sign
    with no digit after it counts as the exponent 0. *)
Theorem parseMantissaExponent_scientific (sg : option bool) (intPart : text)
    (hasDot : bool) (fracPart : text) (mark : Z) (esg : option bool) (edigits : text) :
  Forall (fun c => isDigit c = true) intPart ->
  Forall (fun c => isDigit c = true) fracPart ->
  (hasDot = false -> fracPart = []) ->
  intPart ++ fracPart <> [] ->
  digitsValue 0 (intPart ++ fracPart) <= umax (mantissaWidth T) ->
  Z.of_nat (List.length fracPart) <= 2 ^ (exponentWidth T - 1) ->
  mark = 101 \/ mark = 69 ->
  Forall (fun c => isDigit c = true) edigits ->
  signText esg ++ edigits <> [] ->
  digitsValue 0 edigits <= Exponent_max T ->
  - 2 ^ (exponentWidth T - 1)
    <= - Z.of_nat (List.length fracPart)
       + (if isNegativeSign esg then - digitsValue 0 edigits else digitsValue 0 edigits) ->
  parseMantissaExponent T
    (decimalText sg intPart hasDot fracPart ++ mark :: signText esg ++ edigits) =
    Done (List.length
            (decimalText sg intPart hasDot fracPart ++ mark :: signText esg ++ edigits),
          mkNumber (isNegativeSign sg) (digitsValue 0 (intPart ++ fracPart))
            (- Z.of_nat (List.length fracPart)
             + (if isNegativeSign esg then - digitsValue 0 edigits
                else digitsValue 0 edigits))).
Proof.
  intros Hint Hfrac Hdot Hne Hfit Hroom Hmark Hed Hene Hefit Hsum.
  destruct (traits_bounds T Hwf) as (Hmb & Heb & HW & Hmw & HmW & Hmr & Hew).
  destruct (traits_powers T Hwf) as (Hp1 & Hp2 & Hp3 & Hp4 & Hp5 & _).
  pose proof (digitsValue_nonneg edigits Hed 0 ltac:(lia)) as Hev.
  assert (HEmax : Exponent_max T = 2 ^ (exponentWidth T - 1) - 1) by reflexivity.
  unfold parseMantissaExponent.
  rewrite parseMantissa_body by assumption.
  rewrite parseMantissa_from_terminated
    by (destruct Hmark as [-> | ->]; reflexivity).
  cbn [digits m_negative m_mantissa m_exponent].
  pose proof (decimalText_length sg intPart hasDot fracPart) as Hlen.
  assert (Hpos : (0 < List.length intPart + List.length fracPart)%nat).
  { rewrite <- length_app. destruct (intPart ++ fracPart); [contradiction | cbn; lia]. }
  destruct (intPart ++ fracPart) eqn:Hds; [contradiction |].
  cbn [bind].
  replace (Nat.eqb (List.length (decimalText sg intPart hasDot fracPart)) 0) with false
    by (symmetry; apply Nat.eqb_neq; lia).
  rewrite charAt_app. cbn [hd].
  replace ((mark =? 101) || (mark =? 69)) with true
    by (destruct Hmark as [-> | ->]; reflexivity).
  rewrite skipn_app_cons.
  destruct (parseExponent_in_range T Hwf edigits Hed Hefit) as (Hnone & Hplus & Hminus).
  assert (Hexp : parseExponent T (signText esg ++ edigits) =
                 Done (List.length (signText esg ++ edigits),
                       if isNegativeSign esg then - digitsValue 0 edigits
                       else digitsValue 0 edigits)).
  { destruct esg as [[|] |]; cbn [signText app isNegativeSign List.length]; assumption. }
  rewrite Hexp. cbn [bind].
  replace (Nat.eqb (List.length (signText esg ++ edigits)) 0) with false
    by (symmetry; apply Nat.eqb_neq; destruct (signText esg ++ edigits);
        [contradiction | cbn; lia]).
  cbn [exponent negative mantissa].
  unfold eadd.
  rewrite int_arith_in_range
    by (cbv [INT_MIN INT_MAX intBits]; change (32 - 1) with 31;
        destruct (isNegativeSign esg); lia).
  cbn [bind].
  rewrite (toExponent_small T Hwf) by (destruct (isNegativeSign esg); lia).
  do 2 f_equal. rewrite !length_app. cbn [List.length].
  rewrite !length_app. lia.
Qed.

End Decimal.

Lemma parseMantissaExponent_decimal_witness :
  parseMantissaExponent Traits_double (codes "-12.25;")
    = Done (6%nat, mkNumber true 1225 (-2)).
Proof.
  apply (parseMantissaExponent_decimal Traits_double wfTraits_double
           (Some true) (codes "12") true (codes "25") (codes ";"));
    try (repeat constructor; fail); try discriminate;
    try (vm_compute; discriminate); reflexivity.
Defined.

Lemma parseMantissaExponent_scientific_witness :
  parseMantissaExponent Traits_double (codes "1.2e-200")
    = Done (8%nat, mkNumber false 12 (-201)).
Proof.
  apply (parseMantissaExponent_scientific Traits_double wfTraits_double
           None (codes "1") true (codes "2") 101 (Some true) (codes "200"));
    try (repeat constructor; fail); try discriminate;
    try (vm_compute; discriminate); try reflexivity; try (left; reflexivity).
Defined.

(** ** The explicit exponent and the default value *)

(** X15: on an optional sign followed by digits up to the end of the text,
    [parseExponent] returns the signed value of the digits and the whole
    length when the value is at most the maximum of the exponent type, and
    the error (0, 0) otherwise: it never returns a clamped or wrapped
    exponent. *)
Theorem parseExponent_reads_exactly (T : IEEE754Traits) (esg : option bool) (ds : text) :
  wfTraits T ->
  Forall (fun c => isDigit c = true) ds ->
  parseExponent T (signText esg ++ ds) =
    if Exponent_max T <? digitsValue 0 ds then Done (O, 0)
    else Done (List.length (signText esg ++ ds),
               if isNegativeSign esg then - digitsValue 0 ds else digitsValue 0 ds).
Proof.
  intros Hwf Hds.
  destruct (Exponent_max T <? digitsValue 0 ds) eqn:Hover.
  - apply Z.ltb_lt in Hover.
    destruct (parseExponent_overflow_is_error T Hwf ds Hds Hover) as (H0 & H1 & H2).
    destruct esg as [[|] |]; cbn [signText app]; assumption.
  - apply Z.ltb_ge in Hover.
    destruct (parseExponent_in_range T Hwf ds Hds Hover) as (H0 & H1 & H2).
    destruct esg as [[|] |]; cbn [signText app isNegativeSign List.length]; assumption.
Qed.

Lemma parseExponent_reads_exactly_witness :
  parseExponent Traits_float (codes "-32767") = Done (6%nat, -32767) /\
  parseExponent Traits_float (codes "-32768") = Done (O, 0).
Proof.
  split.
  - exact (parseExponent_reads_exactly Traits_float (Some true) (codes "32767")
             wfTraits_float ltac:(repeat constructor)).
  - exact (parseExponent_reads_exactly Traits_float (Some true) (codes "32768")
             wfTraits_float ltac:(repeat constructor)).
Defined.

(** The full conversion on an input that is neither consumed whole nor a
    recognized spelling, and on a recognized spelling. *)
Lemma toAnyDouble_unconsumed (T : IEEE754Traits) (fuel : nat) (s : text)
    (parsed : nat) (number : IEEE754Number) :
  parseMantissaExponent T s = Done (parsed, number) ->
  parsed <> List.length s -> isLiteral s = false ->
  toAnyDouble T fuel s = Done (0, true).
Proof.
  intros Hparse Hne Hlit.
  unfold toAnyDouble. rewrite Hparse. cbn [bind].
  apply Nat.eqb_neq in Hne. rewrite Hne. cbn [negb].
  unfold isLiteral in Hlit.
  apply orb_false_iff in Hlit. destruct Hlit as [Hlit Hnan].
  apply orb_false_iff in Hlit. destruct Hlit as [Hinf Hneg].
  fold (isInfinityLiteral s). fold (isNegativeInfinityLiteral s). fold (isNaNLiteral s).
  rewrite Hinf, Hneg, Hnan. reflexivity.
Qed.

Lemma toAnyDouble_literal (T : IEEE754Traits) (fuel : nat) (s : text) :
  wfTraits T -> isLiteral s = true ->
  toAnyDouble T fuel s = Done (literalPattern T s, false).
Proof.
  intros Hwf Hlit.
  destruct (literal_not_numeric T s Hlit) as [Hparse Hlen].
  unfold toAnyDouble. rewrite Hparse. unfold parseError. cbn [bind].
  rewrite Hlen. cbn [negb].
  unfold literalPattern. unfold isLiteral in Hlit.
  fold (isInfinityLiteral s). fold (isNegativeInfinityLiteral s). fold (isNaNLiteral s).
  destruct (isInfinityLiteral s).
  { rewrite infinity_encode by exact Hwf. reflexivity. }
  destruct (isNegativeInfinityLiteral s).
  { rewrite infinity_encode by exact Hwf. reflexivity. }
  destruct (isNaNLiteral s); [| discriminate].
  rewrite nan_encode by exact Hwf. reflexivity.
Qed.

(** X16: [toDouble(defaultValue)] returns the default value exactly on an
    input that the numeric grammar does not consume whole and that is no
    recognized spelling; on a recognized spelling it returns the infinity or
    the NaN, whatever the default. *)
Theorem toDoubleOr_default (fuel : nat) (s : text) (defaultValue : Z)
    (parsed : nat) (number : IEEE754Number) :
  parseMantissaExponent Traits_double s = Done (parsed, number) ->
  parsed <> List.length s ->
  toDoubleOr fuel s defaultValue =
    Done (if isLiteral s then literalPattern Traits_double s else defaultValue).
Proof.
  intros Hparse Hne.
  unfold toDoubleOr, toDouble.
  destruct (isLiteral s) eqn:Hlit.
  - rewrite (toAnyDouble_literal Traits_double fuel s wfTraits_double Hlit).
    reflexivity.
  - rewrite (toAnyDouble_unconsumed Traits_double fuel s parsed number Hparse Hne Hlit).
    reflexivity.
Qed.

Lemma toDoubleOr_default_witness :
  toDoubleOr 0 (codes "12 apples") 0x4045000000000000 = Done 0x4045000000000000 /\
  toDoubleOr 0 (codes "+INF") 0x4045000000000000 = Done 0x7FF0000000000000.
Proof.
  split.
  - apply (toDoubleOr_default 0 (codes "12 apples") _ 2%nat (mkNumber false 12 0));
      [vm_compute; reflexivity | discriminate].
  - apply (toDoubleOr_default 0 (codes "+INF") _ O (mkNumber false 0 0));
      [vm_compute; reflexivity | discriminate].
Defined.

(** ** Termination of the conversion on exponents that are not negative *)

Section Termination.

Variable T : IEEE754Traits.
Hypothesis Hwf : wfTraits T.

(** The position counter of the normalization fits the exponent type. *)
Hypothesis Hposition : reducedWidth T + mantissaBits T < 2 ^ (exponentWidth T - 2).

Lemma exponentMax_room :
  0 <= exponentMax T /\ exponentMax T + 1 < 2 ^ (exponentWidth T - 1) /\
  exponentMax T + 1 <= 2 ^ 30 /\ 2 ^ (exponentWidth T - 1) <= 2 ^ 31.
Proof.
  destruct (traits_powers T Hwf) as (Hp1 & Hp2 & Hp3 & Hp4 & _).
  rewrite (exponentMax_eq T Hwf).
  change (2 ^ 30) with 1073741824. change (2 ^ 31) with 2147483648 in *. lia.
Qed.

Lemma position_room :
  exponentMax T + 1 + reducedWidth T + mantissaBits T < 2 ^ (exponentWidth T - 1) /\
  reducedWidth T + mantissaBits T < 1073741824.
Proof.
  destruct (traits_bounds T Hwf) as (Hmb & Heb & HW & Hmw & HmW & Hmr & Hew).
  destruct (traits_powers T Hwf) as (Hp1 & Hp2 & Hp3 & Hp4 & _).
  change (2 ^ 31) with 2147483648 in Hp4.
  assert (H : 2 ^ (exponentWidth T - 1) = 2 * 2 ^ (exponentWidth T - 2)).
  { replace (exponentWidth T - 1) with ((exponentWidth T - 2) + 1) by lia.
    apply pow2_succ. lia. }
  rewrite (exponentMax_eq T Hwf). lia.
Qed.

Lemma eadd_exact (a b : Z) :
  - 2 ^ (exponentWidth T - 1) <= a + b < 2 ^ (exponentWidth T - 1) ->
  eadd T a b = Done (a + b).
Proof.
  intros H.
  destruct exponentMax_room as (_ & _ & _ & H31).
  change (2 ^ 31) with 2147483648 in H31.
  unfold eadd.
  rewrite int_arith_in_range
    by (cbv [INT_MIN INT_MAX intBits]; change (32 - 1) with 31;
        change (2 ^ 31) with 2147483648; lia).
  cbn [bind]. rewrite (toExponent_small T Hwf) by exact H. reflexivity.
Qed.

Lemma room_nonneg (x : Z) :
  0 <= umax (reducedWidth T) / wrapU (reducedWidth T) x.
Proof.
  destruct (traits_bounds T Hwf) as (Hmb & Heb & HW & Hmw & HmW & Hmr & Hew).
  assert (Hu : 0 <= umax (reducedWidth T))
    by (unfold umax; pose proof (pow2_pos (reducedWidth T) ltac:(lia)); lia).
  assert (Hw : 0 <= wrapU (reducedWidth T) x)
    by (unfold wrapU; apply Z.mod_pos_bound; apply pow2_pos; lia).
  destruct (Z.eq_dec (wrapU (reducedWidth T) x) 0) as [-> | Hne].
  - rewrite Z.div_0_r. lia.
  - apply Z.div_pos; lia.
Qed.

(** [decreaseTenExponent] ends within as many rounds as its ten-exponent,
    leaving less than [tenFactor] of it. *)
Lemma decreaseTenExponent_terminates (tenFactor twoFactor : Z) :
  0 < tenFactor -> 0 <= twoFactor <= 30 ->
  forall (fuel : nat) (s : ConvState),
    0 <= tenexponent s < 2 ^ (exponentWidth T - 1) ->
    0 <= twoexponent s <= exponentMax T + 1 ->
    (Z.to_nat (tenexponent s) <= fuel)%nat ->
    exists r, decreaseTenExponent T tenFactor twoFactor fuel s = Done r /\
      0 <= tenexponent r < tenFactor /\ tenexponent r <= tenexponent s /\
      0 <= twoexponent r <= exponentMax T + 1 /\
      (varmantissa s = 0 -> varmantissa r = 0 /\ twoexponent r = twoexponent s).
Proof.
  intros Htf Hwfac.
  destruct exponentMax_room as (Hmax0 & Hmax1 & Hmax30 & H31).
  change (2 ^ 30) with 1073741824 in Hmax30. change (2 ^ 31) with 2147483648 in H31.
  induction fuel as [| fuel IH]; intros s Hten Htwo Hfuel.
  - exists s. cbn [decreaseTenExponent].
    replace (tenFactor <=? tenexponent s) with false
      by (symmetry; apply Z.leb_gt; lia).
    split; [reflexivity |]. split; [lia |]. split; [lia |]. split; [lia |]. auto.
  - cbn [decreaseTenExponent].
    destruct (tenFactor <=? tenexponent s) eqn:Hc.
    2: { apply Z.leb_gt in Hc. exists s.
         split; [reflexivity |]. split; [lia |]. split; [lia |]. split; [lia |]. auto. }
    apply Z.leb_le in Hc.
    assert (Hstep : forall v two,
      0 <= two <= exponentMax T + 1 ->
      (varmantissa s = 0 -> v = 0 /\ two = twoexponent s) ->
      exists r,
        (ten' <- eadd T (tenexponent s) (- tenFactor) ;;
         decreaseTenExponent T tenFactor twoFactor fuel
           (mkConv (wrapU (reducedWidth T)
                      (v * power (reducedWidth T) 10 (Z.to_nat tenFactor))) ten' two))
        = Done r /\
        0 <= tenexponent r < tenFactor /\ tenexponent r <= tenexponent s /\
        0 <= twoexponent r <= exponentMax T + 1 /\
        (varmantissa s = 0 -> varmantissa r = 0 /\ twoexponent r = twoexponent s)).
    { intros v two Htwo' Hzero.
      rewrite eadd_exact by lia. cbn [bind].
      destruct (IH (mkConv (wrapU (reducedWidth T)
                              (v * power (reducedWidth T) 10 (Z.to_nat tenFactor)))
                      (tenexponent s + - tenFactor) two))
        as (r & Hr & Hr1 & Hr2 & Hr3 & Hr4);
        cbn [tenexponent twoexponent varmantissa]; try lia.
      exists r. cbn [tenexponent twoexponent varmantissa] in *.
      split; [exact Hr |]. split; [lia |]. split; [lia |]. split; [lia |].
      intros Hz. destruct (Hzero Hz) as [Hv Htw]. subst v two.
      apply Hr4. reflexivity. }
    pose proof (room_nonneg (Z.shiftl 1 twoFactor)) as Hroom.
    destruct (umax (reducedWidth T) / _ <? varmantissa s) eqn:Hov.
    + apply Z.ltb_lt in Hov.
      rewrite int_arith_in_range
        by (cbv [INT_MIN INT_MAX intBits]; change (32 - 1) with 31;
            change (2 ^ 31) with 2147483648; lia).
      cbn [bind].
      destruct (exponentMax T <? twoexponent s + twoFactor) eqn:Hbail.
      * rewrite eadd_exact by lia. cbn [bind].
        eexists. split; [reflexivity |].
        cbn [tenexponent twoexponent varmantissa].
        split; [lia |]. split; [lia |]. split; [lia |].
        intros Hz. exfalso. lia.
      * apply Z.ltb_ge in Hbail.
        rewrite eadd_exact by lia. cbn [bind].
        apply Hstep; [lia |].
        intros Hz. exfalso. lia.
    + apply Hstep; [lia |]. intros Hz. split; [exact Hz | reflexivity].
Qed.

(** The first normalization loop ends within the number of bits to drop,
    plus one. *)
Lemma reduceMantissa_terminates (fuel : nat) :
  forall (k : nat) (v position : Z),
    (k < fuel)%nat ->
    0 <= v < 2 ^ reducedWidth T ->
    v <= 2 ^ (mantissaBits T + 1 + Z.of_nat k) ->
    0 <= position ->
    position + Z.of_nat k + 1 < 2 ^ (exponentWidth T - 1) ->
    exists v' position',
      reduceMantissa T fuel v position = Done (v', position') /\
      position <= position' <= position + Z.of_nat k + 1.
Proof.
  destruct (traits_bounds T Hwf) as (Hmb & Heb & HW & Hmw & HmW & Hmr & Hew).
  assert (Htop : wrapU (reducedWidth T) (Z.shiftl 1 (mantissaBits T + 1))
                 = 2 ^ (mantissaBits T + 1)).
  { rewrite Z.shiftl_1_l. apply wrapU_small.
    split; [apply Z.lt_le_incl, pow2_pos; lia | apply pow2_lt; lia]. }
  assert (Hskip : forall f v position, v < 2 ^ (mantissaBits T + 1) ->
            reduceMantissa T f v position = Done (v, position)).
  { intros f v position Hv. destruct f; cbn [reduceMantissa]; rewrite Htop;
      replace (2 ^ (mantissaBits T + 1) <=? v) with false
        by (symmetry; apply Z.leb_gt; exact Hv); reflexivity. }
  pose proof (pow2_pos (mantissaBits T) ltac:(lia)) as Hpm.
  assert (Hsucc : 2 ^ (mantissaBits T + 1) = 2 * 2 ^ mantissaBits T)
    by (apply pow2_succ; lia).
  induction fuel as [| fuel IH]; intros k v position Hk Hv Hbound Hpos Hroom; [lia |].
  destruct (Z.lt_ge_cases v (2 ^ (mantissaBits T + 1))) as [Hlt | Hge].
  { rewrite Hskip by exact Hlt. exists v, position. split; [reflexivity | lia]. }
  cbn [reduceMantissa]. rewrite Htop.
  replace (2 ^ (mantissaBits T + 1) <=? v) with true
    by (symmetry; apply Z.leb_le; exact Hge).
  rewrite eadd_exact by lia. cbn [bind].
  pose proof (divideBy_2_bounds (reducedWidth T) v ltac:(lia) Hv) as Hd.
  destruct k as [| k].
  - cbn [Z.of_nat] in *. rewrite Z.add_0_r in Hbound.
    assert (Hv' : v = 2 ^ (mantissaBits T + 1)) by lia.
    assert (Hhalf : divideBy (reducedWidth T) v 2 < 2 ^ (mantissaBits T + 1)).
    { rewrite Hv' in Hd |- *. rewrite Hsucc in Hd |- *.
      Z.div_mod_to_equations. lia. }
    rewrite Hskip by exact Hhalf.
    eexists _, _. split; [reflexivity | lia].
  - rewrite Nat2Z.inj_succ in *.
    assert (Hpow : 2 ^ (mantissaBits T + 1 + Z.succ (Z.of_nat k))
                   = 2 * 2 ^ (mantissaBits T + 1 + Z.of_nat k)).
    { replace (mantissaBits T + 1 + Z.succ (Z.of_nat k))
        with ((mantissaBits T + 1 + Z.of_nat k) + 1) by lia.
      apply pow2_succ. lia. }
    pose proof (pow2_pos (mantissaBits T + 1 + Z.of_nat k) ltac:(lia)) as Hpk.
    assert (HR : 2 ^ reducedWidth T = 2 * 2 ^ (reducedWidth T - 1)).
    { replace (reducedWidth T) with ((reducedWidth T - 1) + 1) at 1 by lia.
      apply pow2_succ. lia. }
    destruct (IH k (divideBy (reducedWidth T) v 2) (position + 1))
      as (v' & p' & Hr & Hp); try lia.
    + split; Z.div_mod_to_equations; lia.
    + Z.div_mod_to_equations. lia.
    + exists v', p'. split; [exact Hr | lia].
Qed.

(** The second normalization loop ends within [mantissaBits] rounds. *)
Lemma alignMantissa_terminates (two : Z) (fuel : nat) :
  forall (j : nat) (v position : Z),
    (j <= fuel)%nat ->
    1 <= v < 2 ^ (mantissaBits T + 1) ->
    2 ^ (mantissaBits T - Z.of_nat j) <= v ->
    Z.of_nat j <= mantissaBits T ->
    Z.of_nat j <= position < 2 ^ (exponentWidth T - 1) ->
    - 2147483648 <= two + position < 2147483648 ->
    exists v' position',
      alignMantissa T fuel two v position = Done (v', position') /\
      0 <= position' <= position.
Proof.
  destruct (traits_bounds T Hwf) as (Hmb & Heb & HW & Hmw & HmW & Hmr & Hew).
  assert (Htop : wrapU (mantissaWidth T) (Z.shiftl 1 (mantissaBits T))
                 = 2 ^ mantissaBits T).
  { rewrite Z.shiftl_1_l. apply wrapU_small.
    split; [apply Z.lt_le_incl, pow2_pos; lia | apply pow2_lt; lia]. }
  assert (Hsucc : 2 ^ (mantissaBits T + 1) = 2 * 2 ^ mantissaBits T)
    by (apply pow2_succ; lia).
  assert (HR : 2 ^ (mantissaBits T + 1) < 2 ^ reducedWidth T)
    by (apply pow2_lt; lia).
  induction fuel as [| fuel IH]; intros j v position Hj Hv Hlow Hjm Hpos Hsum;
    cbn [alignMantissa]; rewrite Htop;
    (destruct (v <? 2 ^ mantissaBits T) eqn:Hc;
     [apply Z.ltb_lt in Hc | exists v, position; split; [reflexivity | lia]]);
    (rewrite int_arith_in_range
       by (cbv [INT_MIN INT_MAX intBits]; change (32 - 1) with 31;
           change (2 ^ 31) with 2147483648; lia));
    cbn [bind];
    (destruct (exponentMin T <? two + position) eqn:Hlim;
     [apply Z.ltb_lt in Hlim | exists v, position; split; [reflexivity | lia]]);
    (assert (Hj1 : (1 <= j)%nat);
     [destruct j; [cbn [Z.of_nat] in Hlow; rewrite Z.sub_0_r in Hlow; lia | lia] |]);
    [lia |].
  rewrite eadd_exact by lia. cbn [bind].
  rewrite wrapU_small by lia.
  destruct j as [| j]; [lia |].
  rewrite Nat2Z.inj_succ in *.
  assert (Hdouble : 2 ^ (mantissaBits T - Z.of_nat j) <= v * 2).
  { replace (mantissaBits T - Z.succ (Z.of_nat j))
      with (mantissaBits T - Z.of_nat j - 1) in Hlow by lia.
    replace (mantissaBits T - Z.of_nat j)
      with ((mantissaBits T - Z.of_nat j - 1) + 1) by lia.
    rewrite pow2_succ by lia. lia. }
  assert (Hmin : - 2147483648 <= exponentMin T).
  { rewrite (exponentMin_eq T).
    destruct (traits_powers T Hwf) as (Hp1 & Hp2 & Hp3 & Hp4 & _).
    change (2 ^ 31) with 2147483648 in Hp4. lia. }
  assert (Hnext : exists v' p',
            alignMantissa T fuel two (v * 2) (position + -1) = Done (v', p') /\
            0 <= p' <= position + -1) by (apply (IH j); lia).
  destruct Hnext as (v' & p' & Hr & Hp).
  exists v', p'. split; [exact Hr | lia].
Qed.

(** The third normalization loop is not entered from an exponent of at
    least [exponentMin]. *)
Lemma raiseExponent_skip (fuel : nat) (v two : Z) :
  exponentMin T <= two -> raiseExponent T fuel v two = Done (v, two).
Proof.
  intros H. apply Z.ltb_ge in H.
  destruct fuel; cbn [raiseExponent]; rewrite H; reflexivity.
Qed.

(** The normalization of a nonzero mantissa with a two-exponent that is not
    negative ends. *)
Lemma normalization_terminates (fuel : nat) (neg : bool) (v two : Z) :
  (Z.to_nat (reducedWidth T) <= fuel)%nat ->
  1 <= v < 2 ^ reducedWidth T ->
  0 <= two <= exponentMax T + 1 ->
  exists r,
    ('(v1, position1) <- reduceMantissa T fuel v (mantissaBits T) ;;
     '(v2, position2) <- alignMantissa T fuel two v1 position1 ;;
     two' <- eadd T two position2 ;;
     '(v3, two3) <- raiseExponent T fuel v2 two' ;;
     Done (mkNumber neg (wrapU (mantissaWidth T) v3) two3)) = Done r.
Proof.
  intros Hfuel Hv Htwo.
  destruct (traits_bounds T Hwf) as (Hmb & Heb & HW & Hmw & HmW & Hmr & Hew).
  destruct exponentMax_room as (Hmax0 & Hmax1 & Hmax30 & H31).
  destruct position_room as (Hpr1 & Hpr2).
  change (2 ^ 30) with 1073741824 in Hmax30. change (2 ^ 31) with 2147483648 in H31.
  assert (Hmin0 : exponentMin T <= 0).
  { rewrite (exponentMin_eq T). destruct (traits_powers T Hwf) as (Hp1 & _). lia. }
  set (k := Z.to_nat (reducedWidth T - mantissaBits T - 1)).
  destruct (reduceMantissa_terminates fuel k v (mantissaBits T))
    as (v1 & p1 & H1 & Hp1); subst k; try lia.
  { rewrite Z2Nat.id by lia.
    replace (mantissaBits T + 1 + (reducedWidth T - mantissaBits T - 1))
      with (reducedWidth T) by lia. lia. }
  rewrite Z2Nat.id in Hp1 by lia.
  rewrite H1. cbn [bind].
  pose proof (reduceMantissa_spec T Hwf fuel v (mantissaBits T) v1 p1 ltac:(lia) H1)
    as [Hv1 Hcase].
  assert (Hsucc : 2 ^ (mantissaBits T + 1) = 2 * 2 ^ mantissaBits T)
    by (apply pow2_succ; lia).
  assert (Halign : exists v2 p2,
            alignMantissa T fuel two v1 p1 = Done (v2, p2) /\ 0 <= p2 <= p1).
  { destruct Hcase as [[-> ->] | Hge].
    - apply (alignMantissa_terminates two fuel (Z.to_nat (mantissaBits T)));
        rewrite ?Z2Nat.id by lia; try lia.
      rewrite Z.sub_diag. change (2 ^ 0) with 1. lia.
    - apply (alignMantissa_terminates two fuel O); cbn [Z.of_nat]; try lia.
      rewrite Z.sub_0_r. lia. }
  destruct Halign as (v2 & p2 & H2 & Hp2).
  rewrite H2. cbn [bind].
  rewrite eadd_exact by lia. cbn [bind].
  rewrite raiseExponent_skip by lia. cbn [bind].
  eexists. reflexivity.
Qed.

(** X17: a zero mantissa with an exponent that is not negative is converted
    to the zero of its sign, within as many rounds as the exponent. *)
Theorem convertTwobase_zero_mantissa (fuel : nat) (neg : bool) (e : Z) :
  0 <= e < 2 ^ (exponentWidth T - 1) ->
  (Z.to_nat e <= fuel)%nat ->
  convertTwobase T fuel (mkNumber neg 0 e) = Done (mkNumber neg 0 0).
Proof.
  intros He Hfuel.
  destruct exponentMax_room as (Hmax0 & Hmax1 & _).
  unfold convertTwobase. cbn [mantissa exponent negative tenexponent].
  change (wrapU (reducedWidth T) 0) with 0.
  assert (Hs : exists s,
    (if 0 <? e
     then s1 <- decreaseTenExponent T 9 30 fuel (mkConv 0 e 0) ;;
          s2 <- decreaseTenExponent T 6 20 fuel s1 ;;
          s3 <- decreaseTenExponent T 3 10 fuel s2 ;;
          decreaseTenExponent T 1 4 fuel s3
     else if e <? 0 then
          s1 <- increaseTenExponent T 9 30 fuel (mkConv 0 e 0) ;;
          s2 <- increaseTenExponent T 6 20 fuel s1 ;;
          s3 <- increaseTenExponent T 3 10 fuel s2 ;;
          increaseTenExponent T 1 4 fuel s3
     else Done (mkConv 0 e 0)) = Done s /\
    tenexponent s = 0 /\ varmantissa s = 0).
  { destruct (0 <? e) eqn:Hpos.
    - destruct (decreaseTenExponent_terminates 9 30 ltac:(lia) ltac:(lia) fuel
                  (mkConv 0 e 0)) as (s1 & H1 & Ht1 & Hle1 & Htw1 & Hz1);
        cbn [tenexponent twoexponent varmantissa] in *; try lia.
      destruct (Hz1 eq_refl) as [Hv1 Hw1].
      destruct (decreaseTenExponent_terminates 6 20 ltac:(lia) ltac:(lia) fuel s1)
        as (s2 & H2 & Ht2 & Hle2 & Htw2 & Hz2); try lia.
      destruct (Hz2 Hv1) as [Hv2 Hw2].
      destruct (decreaseTenExponent_terminates 3 10 ltac:(lia) ltac:(lia) fuel s2)
        as (s3 & H3 & Ht3 & Hle3 & Htw3 & Hz3); try lia.
      destruct (Hz3 Hv2) as [Hv3 Hw3].
      destruct (decreaseTenExponent_terminates 1 4 ltac:(lia) ltac:(lia) fuel s3)
        as (s4 & H4 & Ht4 & Hle4 & Htw4 & Hz4); try lia.
      destruct (Hz4 Hv3) as [Hv4 Hw4].
      exists s4. rewrite H1. cbn [bind]. rewrite H2. cbn [bind].
      rewrite H3. cbn [bind]. rewrite H4.
      split; [reflexivity | split; [lia | exact Hv4]].
    - replace (e <? 0) with false by (symmetry; apply Z.ltb_ge; lia).
      apply Z.ltb_ge in Hpos.
      exists (mkConv 0 e 0). cbn [tenexponent varmantissa].
      split; [reflexivity | split; [lia | reflexivity]]. }
  destruct Hs as (s & Hs & Hten & Hv).
  rewrite Hs. cbn [bind]. rewrite Hten, Hv. reflexivity.
Qed.

(** X18: on every decimal number with an exponent that is not negative the
    whole conversion ends and returns a bit pattern, as soon as the fuel
    covers the exponent and the width of the extended mantissa. *)
Theorem convertTwobase_terminates_nonnegative (fuel : nat) (d : IEEE754Number) :
  0 <= exponent d < 2 ^ (exponentWidth T - 1) ->
  (Z.to_nat (exponent d) <= fuel)%nat ->
  (Z.to_nat (reducedWidth T) <= fuel)%nat ->
  exists r bits,
    convertTwobase T fuel d = Done r /\ normalized T r /\ toIEEE754 T r = Done bits.
Proof.
  intros He Hfuel HfuelR.
  destruct exponentMax_room as (Hmax0 & Hmax1 & _).
  assert (Hconv : exists r, convertTwobase T fuel d = Done r).
  { unfold convertTwobase.
    set (s0 := mkConv (wrapU (reducedWidth T) (mantissa d)) (exponent d) 0).
    assert (Hs0 : inRange T s0).
    { split; cbn [s0 varmantissa twoexponent]; [apply (wrapU_range T Hwf) | lia]. }
    assert (Hs : exists s,
      (if 0 <? tenexponent s0
       then s1 <- decreaseTenExponent T 9 30 fuel s0 ;;
            s2 <- decreaseTenExponent T 6 20 fuel s1 ;;
            s3 <- decreaseTenExponent T 3 10 fuel s2 ;;
            decreaseTenExponent T 1 4 fuel s3
       else if tenexponent s0 <? 0 then
            s1 <- increaseTenExponent T 9 30 fuel s0 ;;
            s2 <- increaseTenExponent T 6 20 fuel s1 ;;
            s3 <- increaseTenExponent T 3 10 fuel s2 ;;
            increaseTenExponent T 1 4 fuel s3
       else Done s0) = Done s /\
      tenexponent s = 0 /\ inRange T s /\ 0 <= twoexponent s <= exponentMax T + 1).
    { cbn [s0 tenexponent].
      destruct (0 <? exponent d) eqn:Hpos.
      - destruct (decreaseTenExponent_terminates 9 30 ltac:(lia) ltac:(lia) fuel s0)
          as (s1 & H1 & Ht1 & Hle1 & Htw1 & _);
          cbn [s0 tenexponent twoexponent varmantissa] in *; try lia.
        destruct (decreaseTenExponent_terminates 6 20 ltac:(lia) ltac:(lia) fuel s1)
          as (s2 & H2 & Ht2 & Hle2 & Htw2 & _); try lia.
        destruct (decreaseTenExponent_terminates 3 10 ltac:(lia) ltac:(lia) fuel s2)
          as (s3 & H3 & Ht3 & Hle3 & Htw3 & _); try lia.
        destruct (decreaseTenExponent_terminates 1 4 ltac:(lia) ltac:(lia) fuel s3)
          as (s4 & H4 & Ht4 & Hle4 & Htw4 & _); try lia.
        exists s4. rewrite H1. cbn [bind]. rewrite H2. cbn [bind].
        rewrite H3. cbn [bind]. rewrite H4.
        split; [reflexivity |]. split; [lia |]. split; [| lia].
        eauto using decreaseTenExponent_range.
      - replace (exponent d <? 0) with false by (symmetry; apply Z.ltb_ge; lia).
        apply Z.ltb_ge in Hpos.
        exists s0. cbn [s0 tenexponent twoexponent].
        split; [reflexivity |]. split; [lia |]. split; [exact Hs0 | lia]. }
    destruct Hs as (s & Hs & Hten & [Hv _] & Htwo).
    rewrite Hs. cbn [bind]. rewrite Hten. cbn [Z.eqb assert bind].
    destruct (varmantissa s =? 0) eqn:Hz; [eexists; reflexivity |].
    apply Z.eqb_neq in Hz.
    apply normalization_terminates; [exact HfuelR | lia | exact Htwo]. }
  destruct Hconv as [r Hr].
  pose proof (convertTwobase_returns_normalized T Hwf fuel d r Hr) as Hn.
  exists r. eexists. split; [exact Hr |]. split; [exact Hn |].
  apply (toIEEE754_packable T Hwf). right; right; right. exact Hn.
Qed.

End Termination.

(** ** Termination of the conversion on negative exponents *)

Lemma int_arith_cases (z : Z) : int_arith z = Done z \/ int_arith z = Undefined.
Proof. unfold int_arith. destruct (_ && _); auto. Qed.

(** Above the rounding case [divideBy] never goes below the quotient. *)
Lemma divideBy_ge_floor (w n d : Z) :
  0 <= n < 2 ^ w -> 2 <= d -> n / d <= divideBy w n d.
Proof.
  intros Hn Hd. unfold divideBy.
  destruct (n mod d =? d / 2) eqn:Hhalf; cbn [negb]; [| lia].
  apply Z.eqb_eq in Hhalf.
  destruct (negb (Z.land (n / d) 1 =? 0)); [| lia].
  rewrite wrapU_small by (Z.div_mod_to_equations; nia). lia.
Qed.

Section NegativeExponent.

Variable T : IEEE754Traits.
Hypothesis Hwf : wfTraits T.
Hypothesis Hposition : reducedWidth T + mantissaBits T < 2 ^ (exponentWidth T - 2).

(** The extended mantissa has room for the largest factor pair, [<9, 30>]. *)
Hypothesis Hreduced : 60 <= reducedWidth T.

(** An [int] expression on [Exponent] operands can overflow only when
    [Exponent] is as wide as [int]. *)
Lemma int_arith_sum (z : Z) :
  - 2 * 2 ^ (exponentWidth T - 1) <= z < 2 * 2 ^ (exponentWidth T - 1) ->
  int_arith z = Done z \/ (int_arith z = Undefined /\ exponentWidth T = 32).
Proof.
  intros Hz.
  destruct (traits_bounds T Hwf) as (Hmb & Heb & HW & Hmw & HmW & Hmr & Hew).
  destruct (Z.eq_dec (exponentWidth T) 32) as [E | E].
  - destruct (int_arith_cases z); auto.
  - left. apply int_arith_in_range.
    assert (H30 : 2 ^ (exponentWidth T - 1) <= 2 ^ 30) by (apply pow2_le; lia).
    cbv [INT_MIN INT_MAX intBits]. change (32 - 1) with 31.
    change (2 ^ 31) with 2147483648. change (2 ^ 30) with 1073741824 in H30. lia.
Qed.

Lemma eadd_sum (a b : Z) :
  - 2 * 2 ^ (exponentWidth T - 1) <= a + b < 2 * 2 ^ (exponentWidth T - 1) ->
  (eadd T a b = Done (toExponent T (a + b))) \/
  (eadd T a b = Undefined /\ exponentWidth T = 32).
Proof.
  intros H. unfold eadd.
  destruct (int_arith_sum (a + b) H) as [-> | [-> E]]; cbn [bind]; auto.
Qed.

Lemma room_eq (twoFactor : Z) :
  0 <= twoFactor < reducedWidth T ->
  wrapU (reducedWidth T) (Z.shiftl 1 twoFactor) = 2 ^ twoFactor /\
  umax (reducedWidth T) / 2 ^ twoFactor = 2 ^ (reducedWidth T - twoFactor) - 1 /\
  2 ^ reducedWidth T = 2 ^ (reducedWidth T - twoFactor) * 2 ^ twoFactor.
Proof.
  intros H.
  assert (Hs : 2 ^ reducedWidth T = 2 ^ (reducedWidth T - twoFactor) * 2 ^ twoFactor).
  { rewrite <- Z.pow_add_r by lia. f_equal. lia. }
  pose proof (pow2_pos twoFactor ltac:(lia)) as Hp.
  pose proof (pow2_pos (reducedWidth T - twoFactor) ltac:(lia)) as Hq.
  split; [| split; [| exact Hs]].
  - rewrite Z.shiftl_1_l. apply wrapU_small. split; [lia | apply pow2_lt; lia].
  - unfold umax. rewrite Hs. symmetry.
    apply (Z.div_unique_pos _ _ _ (2 ^ twoFactor - 1)); lia.
Qed.

(** The constant of the underflow test is an [int]. *)
Lemma floor_fits :
  int_arith (exponentSubnormalMin T - reducedWidth T)
  = Done (exponentSubnormalMin T - reducedWidth T) /\
  - 2 ^ (exponentWidth T - 1) <= exponentSubnormalMin T - reducedWidth T <= 0.
Proof.
  destruct (traits_bounds T Hwf) as (Hmb & Heb & HW & Hmw & HmW & Hmr & Hew).
  destruct (traits_powers T Hwf) as (Hp1 & Hp2 & Hp3 & Hp4 & _).
  change (2 ^ 31) with 2147483648 in Hp4.
  assert (H : 2 ^ (exponentWidth T - 1) = 2 * 2 ^ (exponentWidth T - 2)).
  { replace (exponentWidth T - 1) with ((exponentWidth T - 2) + 1) by lia.
    apply pow2_succ. lia. }
  assert (Hb : 2 ^ (exponentBits T - 1) <= 2 ^ (exponentWidth T - 2))
    by (apply pow2_le; lia).
  assert (Hr : - 2 ^ (exponentWidth T - 1)
               <= exponentSubnormalMin T - reducedWidth T <= 0).
  { unfold exponentSubnormalMin, exponentSubnormalBase.
    rewrite (exponentBase_eq T). lia. }
  split; [| exact Hr].
  apply int_arith_in_range.
  cbv [INT_MIN INT_MAX intBits]. change (32 - 1) with 31.
  change (2 ^ 31) with 2147483648. lia.
Qed.

(** On a nonzero mantissa the inner loop of [increaseTenExponent] ends: each
    round multiplies the mantissa by [2 ^ twoFactor], without wrapping. *)
Lemma increaseRoom_ends (twoFactor : Z) :
  1 <= twoFactor -> 2 * twoFactor <= reducedWidth T ->
  forall (fuel j : nat) (v two : Z),
    (j <= fuel)%nat ->
    1 <= v < 2 ^ reducedWidth T ->
    2 ^ (reducedWidth T - Z.of_nat j) <= v ->
    Z.of_nat j <= reducedWidth T ->
    - 2 ^ (exponentWidth T - 1) <= two < 2 ^ (exponentWidth T - 1) ->
    (exists v' two',
       increaseRoom T twoFactor fuel v two = Done (Fallthrough v' two') /\
       2 ^ (reducedWidth T - twoFactor) <= v' < 2 ^ reducedWidth T /\
       - 2 ^ (exponentWidth T - 1) <= two' < 2 ^ (exponentWidth T - 1)) \/
    (increaseRoom T twoFactor fuel v two = Undefined /\ exponentWidth T = 32).
Proof.
  intros Hf1 Hf2.
  destruct (traits_bounds T Hwf) as (Hmb & Heb & HW & Hmw & HmW & Hmr & Hew).
  destruct (traits_powers T Hwf) as (Hp1 & Hp2 & Hp3 & Hp4 & _).
  destruct (room_eq twoFactor ltac:(lia)) as (Hmult & Hroom & Hsplit).
  destruct floor_fits as (Hfloor & Hfr).
  assert (H2 : 2 <= 2 ^ twoFactor)
    by (change 2 with (2 ^ 1) at 1; apply pow2_le; lia).
  assert (Hquarter : 2 ^ (exponentWidth T - 1) = 2 * 2 ^ (exponentWidth T - 2)).
  { replace (exponentWidth T - 1) with ((exponentWidth T - 2) + 1) by lia.
    apply pow2_succ. lia. }
  induction fuel as [| fuel IH]; intros j v two Hj Hv Hlow HjR Htwo.
  - cbn [increaseRoom]. rewrite Hmult, Hroom.
    destruct (v <=? 2 ^ (reducedWidth T - twoFactor) - 1) eqn:Hc.
    + apply Z.leb_le in Hc. exfalso.
      assert (j = O) by lia. subst j. cbn [Z.of_nat] in Hlow.
      rewrite Z.sub_0_r in Hlow. lia.
    + apply Z.leb_gt in Hc. left. exists v, two.
      split; [reflexivity |]. split; [lia | exact Htwo].
  - rewrite increaseRoom_unfold. rewrite Hmult, Hroom.
    destruct (v <=? 2 ^ (reducedWidth T - twoFactor) - 1) eqn:Hc.
    2: { apply Z.leb_gt in Hc. left. exists v, two.
         split; [reflexivity |]. split; [lia | exact Htwo]. }
    apply Z.leb_le in Hc.
    rewrite Hfloor. cbn [bind].
    destruct (int_arith_sum (exponentSubnormalMin T - reducedWidth T + two) ltac:(lia))
      as [Hb | [Hb E]]; rewrite Hb; cbn [bind]; [| right; auto].
    rewrite (underflow_test_never_holds T two _ _ ltac:(lia) Hfloor Hb).
    destruct (eadd_sum two (- twoFactor) ltac:(lia)) as [He | [He E]];
      rewrite He; cbn [bind]; [| right; auto].
    rewrite wrapU_small by nia.
    destruct j as [| j].
    { exfalso. cbn [Z.of_nat] in Hlow. rewrite Z.sub_0_r in Hlow. lia. }
    rewrite Nat2Z.inj_succ in *.
    assert (Hgrow : 2 ^ (reducedWidth T - Z.of_nat j) <= v * 2 ^ twoFactor).
    { replace (reducedWidth T - Z.of_nat j)
        with ((reducedWidth T - Z.succ (Z.of_nat j)) + 1) by lia.
      rewrite pow2_succ by lia. nia. }
    apply (IH j); try lia.
    + nia.
    + apply (toExponent_range T Hwf).
Qed.

(** [increaseTenExponent] on a nonzero mantissa ends, and the mantissa it
    leaves is again nonzero. *)
Lemma increaseTenExponent_ends (tenFactor twoFactor : Z) :
  0 < tenFactor -> 1 <= twoFactor -> 2 * twoFactor <= reducedWidth T ->
  10 ^ tenFactor <= 2 ^ twoFactor ->
  forall (fuel : nat) (s : ConvState),
    1 <= varmantissa s < 2 ^ reducedWidth T ->
    - 2 ^ (exponentWidth T - 1) <= twoexponent s < 2 ^ (exponentWidth T - 1) ->
    - 2 ^ (exponentWidth T - 1) <= tenexponent s <= 0 ->
    (Z.to_nat (- tenexponent s) + Z.to_nat (reducedWidth T) <= fuel)%nat ->
    (exists r,
       increaseTenExponent T tenFactor twoFactor fuel s = Done r /\
       1 <= varmantissa r < 2 ^ reducedWidth T /\
       - 2 ^ (exponentWidth T - 1) <= twoexponent r < 2 ^ (exponentWidth T - 1) /\
       - tenFactor < tenexponent r <= 0 /\ tenexponent s <= tenexponent r) \/
    (increaseTenExponent T tenFactor twoFactor fuel s = Undefined /\
     exponentWidth T = 32).
Proof.
  intros Htf Hf1 Hf2 Hten.
  destruct (traits_bounds T Hwf) as (Hmb & Heb & HW & Hmw & HmW & Hmr & Hew).
  destruct (room_eq twoFactor ltac:(lia)) as (Hmult & Hroom & Hsplit).
  assert (H10 : 10 <= 10 ^ tenFactor).
  { change 10 with (10 ^ 1) at 1. apply Z.pow_le_mono_r; lia. }
  assert (Hwide : 2 ^ twoFactor <= 2 ^ (reducedWidth T - twoFactor))
    by (apply pow2_le; lia).
  assert (Hlt : 2 ^ twoFactor < 2 ^ reducedWidth T) by (apply pow2_lt; lia).
  assert (Hpow : power (reducedWidth T) 10 (Z.to_nat tenFactor) = 10 ^ tenFactor).
  { rewrite power_mod by lia. rewrite Z2Nat.id by lia.
    apply Z.mod_small. lia. }
  induction fuel as [| fuel IH]; intros s Hv Htwo Hexp Hfuel; [lia |].
  rewrite increaseTenExponent_unfold.
  destruct (tenexponent s <=? - tenFactor) eqn:Hc.
  2: { apply Z.leb_gt in Hc. left. exists s. split; [reflexivity |]. lia. }
  apply Z.leb_le in Hc.
  destruct (increaseRoom_ends twoFactor Hf1 Hf2 (S fuel) (Z.to_nat (reducedWidth T))
              (varmantissa s) (twoexponent s))
    as [(v' & two' & Hr & Hv' & Htwo') | [Hr E]];
    try lia; try assumption.
  { rewrite Z2Nat.id by lia. rewrite Z.sub_diag. change (2 ^ 0) with 1. lia. }
  2: { right. rewrite Hr. cbn [bind]. auto. }
  rewrite Hr. cbn [bind].
  rewrite (eadd_exact T Hwf) by lia. cbn [bind].
  rewrite Hpow.
  pose proof (divideBy_ge_floor (reducedWidth T) v' (10 ^ tenFactor) ltac:(lia) ltac:(lia))
    as Hge.
  pose proof (divideBy_range (reducedWidth T) v' (10 ^ tenFactor)
                ltac:(lia) ltac:(lia) ltac:(lia)) as Hrange.
  assert (Hone : 1 <= v' / 10 ^ tenFactor)
    by (apply Z.div_le_lower_bound; lia).
  destruct (IH (mkConv (divideBy (reducedWidth T) v' (10 ^ tenFactor))
                  (tenexponent s + tenFactor) two'))
    as [(r & Hd & Hrv & Hrtwo & Hrten & Hle) | [Hd E]];
    cbn [varmantissa twoexponent tenexponent] in *; try lia.
  - left. exists r. split; [exact Hd |]. lia.
  - right. auto.
Qed.

(** The second normalization loop ends within [mantissaBits] rounds. *)
Lemma alignMantissa_ends (two : Z) (fuel : nat) :
  - 2 ^ (exponentWidth T - 1) <= two < 2 ^ (exponentWidth T - 1) ->
  forall (j : nat) (v position : Z),
    (j <= fuel)%nat ->
    1 <= v < 2 ^ (mantissaBits T + 1) ->
    2 ^ (mantissaBits T - Z.of_nat j) <= v ->
    Z.of_nat j <= mantissaBits T ->
    Z.of_nat j <= position < 2 ^ (exponentWidth T - 1) ->
    (exists v' position',
       alignMantissa T fuel two v position = Done (v', position') /\
       0 <= position' <= position) \/
    (alignMantissa T fuel two v position = Undefined /\ exponentWidth T = 32).
Proof.
  intros Htwo.
  destruct (traits_bounds T Hwf) as (Hmb & Heb & HW & Hmw & HmW & Hmr & Hew).
  assert (Htop : wrapU (mantissaWidth T) (Z.shiftl 1 (mantissaBits T))
                 = 2 ^ mantissaBits T).
  { rewrite Z.shiftl_1_l. apply wrapU_small.
    split; [apply Z.lt_le_incl, pow2_pos; lia | apply pow2_lt; lia]. }
  assert (Hsucc : 2 ^ (mantissaBits T + 1) = 2 * 2 ^ mantissaBits T)
    by (apply pow2_succ; lia).
  assert (HR : 2 ^ (mantissaBits T + 1) < 2 ^ reducedWidth T)
    by (apply pow2_lt; lia).
  induction fuel as [| fuel IH]; intros j v position Hj Hv Hlow Hjm Hpos;
    cbn [alignMantissa]; rewrite Htop;
    (destruct (v <? 2 ^ mantissaBits T) eqn:Hc;
     [apply Z.ltb_lt in Hc | left; exists v, position; split; [reflexivity | lia]]);
    (destruct (int_arith_sum (two + position) ltac:(lia)) as [Hi | [Hi E]];
     rewrite Hi; cbn [bind]; [| right; auto]);
    (destruct (exponentMin T <? two + position) eqn:Hlim;
     [apply Z.ltb_lt in Hlim
     | left; exists v, position; split; [reflexivity | lia]]);
    (assert (Hj1 : (1 <= j)%nat);
     [destruct j; [cbn [Z.of_nat] in Hlow; rewrite Z.sub_0_r in Hlow; lia | lia] |]);
    [lia |].
  rewrite (eadd_exact T Hwf) by lia. cbn [bind].
  rewrite wrapU_small by lia.
  destruct j as [| j]; [lia |].
  rewrite Nat2Z.inj_succ in *.
  assert (Hdouble : 2 ^ (mantissaBits T - Z.of_nat j) <= v * 2).
  { replace (mantissaBits T - Z.succ (Z.of_nat j))
      with (mantissaBits T - Z.of_nat j - 1) in Hlow by lia.
    replace (mantissaBits T - Z.of_nat j)
      with ((mantissaBits T - Z.of_nat j - 1) + 1) by lia.
    rewrite pow2_succ by lia. lia. }
  destruct (IH j (v * 2) (position + -1)) as [(v' & p' & Hr & Hp) | [Hr E]];
    try lia.
  - left. exists v', p'. split; [exact Hr | lia].
  - right. auto.
Qed.

(** The third normalization loop ends within the distance to [exponentMin]. *)
Lemma raiseExponent_terminates (fuel : nat) :
  forall (v two : Z),
    - 2 ^ (exponentWidth T - 1) <= two ->
    (Z.to_nat (exponentMin T - two) <= fuel)%nat ->
    exists v' two', raiseExponent T fuel v two = Done (v', two').
Proof.
  destruct (exponentMax_room T Hwf) as (Hmax0 & Hmax1 & _).
  assert (Hmin : exponentMin T <= 0).
  { rewrite (exponentMin_eq T). destruct (traits_powers T Hwf) as (Hp1 & _). lia. }
  induction fuel as [| fuel IH]; intros v two Hlow Hfuel.
  - exists v, two. apply (raiseExponent_skip T). lia.
  - cbn [raiseExponent].
    destruct (two <? exponentMin T) eqn:Hc; [| eexists _, _; reflexivity].
    apply Z.ltb_lt in Hc.
    rewrite (eadd_exact T Hwf) by lia. cbn [bind].
    apply IH; lia.
Qed.

(** X19: on a nonzero mantissa with a negative exponent the conversion ends
    as soon as the fuel covers the range of [Exponent] and the width of the
    extended mantissa. It returns a normalized number; it can run into a
    signed overflow only when [Exponent] is as wide as [int]. *)
Theorem convertTwobase_ends_negative (fuel : nat) (d : IEEE754Number) :
  0 < mantissa d < 2 ^ reducedWidth T ->
  - 2 ^ (exponentWidth T - 1) <= exponent d < 0 ->
  (Z.to_nat (2 ^ (exponentWidth T - 1)) + Z.to_nat (reducedWidth T) <= fuel)%nat ->
  (exists r, convertTwobase T fuel d = Done r /\ normalized T r) \/
  (convertTwobase T fuel d = Undefined /\ exponentWidth T = 32).
Proof.
  intros Hm He Hfuel.
  destruct (traits_bounds T Hwf) as (Hmb & Heb & HW & Hmw & HmW & Hmr & Hew).
  destruct (exponentMax_room T Hwf) as (Hmax0 & Hmax1 & _).
  destruct (position_room T Hwf Hposition) as (Hpr1 & Hpr2).
  pose proof (pow2_pos (exponentWidth T - 1) ltac:(lia)) as Hpe.
  assert (Hmin0 : exponentMin T <= 0).
  { rewrite (exponentMin_eq T). destruct (traits_powers T Hwf) as (Hp1 & _). lia. }
  assert (Hends : (exists r, convertTwobase T fuel d = Done r) \/
                  (convertTwobase T fuel d = Undefined /\ exponentWidth T = 32)).
  { unfold convertTwobase. cbn [tenexponent].
    replace (0 <? exponent d) with false by (symmetry; apply Z.ltb_ge; lia).
    replace (exponent d <? 0) with true by (symmetry; apply Z.ltb_lt; lia).
    rewrite wrapU_small by lia.
    destruct (increaseTenExponent_ends 9 30 ltac:(lia) ltac:(lia) ltac:(lia)
                ltac:(vm_compute; discriminate) fuel
                (mkConv (mantissa d) (exponent d) 0))
      as [(s1 & H1 & Hv1 & Htw1 & Ht1 & Hle1) | [H1 E]];
      cbn [varmantissa twoexponent tenexponent] in *; try lia.
    2: { right. rewrite H1. cbn [bind]. auto. }
    rewrite H1. cbn [bind].
    destruct (increaseTenExponent_ends 6 20 ltac:(lia) ltac:(lia) ltac:(lia)
                ltac:(vm_compute; discriminate) fuel s1)
      as [(s2 & H2 & Hv2 & Htw2 & Ht2 & Hle2) | [H2 E]]; try lia.
    2: { right. rewrite H2. cbn [bind]. auto. }
    rewrite H2. cbn [bind].
    destruct (increaseTenExponent_ends 3 10 ltac:(lia) ltac:(lia) ltac:(lia)
                ltac:(vm_compute; discriminate) fuel s2)
      as [(s3 & H3 & Hv3 & Htw3 & Ht3 & Hle3) | [H3 E]]; try lia.
    2: { right. rewrite H3. cbn [bind]. auto. }
    rewrite H3. cbn [bind].
    destruct (increaseTenExponent_ends 1 4 ltac:(lia) ltac:(lia) ltac:(lia)
                ltac:(vm_compute; discriminate) fuel s3)
      as [(s & H4 & Hv & Htw & Ht & Hle) | [H4 E]]; try lia.
    2: { right. rewrite H4. cbn [bind]. auto. }
    rewrite H4. cbn [bind].
    replace (tenexponent s) with 0 by lia. cbn [Z.eqb assert bind].
    replace (varmantissa s =? 0) with false by (symmetry; apply Z.eqb_neq; lia).
    set (k := Z.to_nat (reducedWidth T - mantissaBits T - 1)).
    destruct (reduceMantissa_terminates T Hwf fuel k (varmantissa s) (mantissaBits T))
      as (v1 & p1 & Hr1 & Hp1); subst k; try lia.
    { rewrite Z2Nat.id by lia.
      replace (mantissaBits T + 1 + (reducedWidth T - mantissaBits T - 1))
        with (reducedWidth T) by lia. lia. }
    rewrite Z2Nat.id in Hp1 by lia.
    rewrite Hr1. cbn [bind].
    pose proof (reduceMantissa_spec T Hwf fuel (varmantissa s) (mantissaBits T) v1 p1
                  ltac:(lia) Hr1) as [Hv1' Hcase].
    assert (Hsucc : 2 ^ (mantissaBits T + 1) = 2 * 2 ^ mantissaBits T)
      by (apply pow2_succ; lia).
    assert (Halign : (exists v2 p2,
              alignMantissa T fuel (twoexponent s) v1 p1 = Done (v2, p2) /\
              0 <= p2 <= p1) \/
            (alignMantissa T fuel (twoexponent s) v1 p1 = Undefined /\
             exponentWidth T = 32)).
    { destruct Hcase as [[-> ->] | Hge].
      - apply (alignMantissa_ends (twoexponent s) fuel Htw
                 (Z.to_nat (mantissaBits T)));
          rewrite ?Z2Nat.id by lia; try lia.
        rewrite Z.sub_diag. change (2 ^ 0) with 1. lia.
      - apply (alignMantissa_ends (twoexponent s) fuel Htw O);
          cbn [Z.of_nat]; try lia.
        rewrite Z.sub_0_r. lia. }
    destruct Halign as [(v2 & p2 & Hr2 & Hp2) | [Hr2 E]].
    2: { right. rewrite Hr2. cbn [bind]. auto. }
    rewrite Hr2. cbn [bind].
    destruct (eadd_sum (twoexponent s) p2 ltac:(lia)) as [Hadd | [Hadd E]];
      rewrite Hadd; cbn [bind]; [| right; auto].
    pose proof (toExponent_range T Hwf (twoexponent s + p2)) as Hrange.
    destruct (raiseExponent_terminates fuel v2 (toExponent T (twoexponent s + p2)))
      as (v3 & two3 & Hr3); try lia.
    rewrite Hr3. cbn [bind]. left. eexists. reflexivity. }
  destruct Hends as [[r Hr] | Hu]; [left | right; exact Hu].
  exists r. split; [exact Hr |].
  exact (convertTwobase_returns_normalized T Hwf fuel d r Hr).
Qed.

End NegativeExponent.

Lemma position_double :
  reducedWidth Traits_double + mantissaBits Traits_double
  < 2 ^ (exponentWidth Traits_double - 2).
Proof. vm_compute. reflexivity. Qed.

Lemma position_float :
  reducedWidth Traits_float + mantissaBits Traits_float
  < 2 ^ (exponentWidth Traits_float - 2).
Proof. vm_compute. reflexivity. Qed.

Lemma convertTwobase_zero_mantissa_witness :
  convertTwobase Traits_double 5 (mkNumber true 0 5) = Done (mkNumber true 0 0).
Proof.
  apply (convertTwobase_zero_mantissa Traits_double wfTraits_double 5 true 5).
  - vm_compute. split; [discriminate | reflexivity].
  - vm_compute. lia.
Defined.

Lemma convertTwobase_terminates_nonnegative_witness :
  exists r bits,
    convertTwobase Traits_double 128 (mkNumber false 5 3) = Done r /\
    normalized Traits_double r /\ toIEEE754 Traits_double r = Done bits.
Proof.
  apply (convertTwobase_terminates_nonnegative Traits_double wfTraits_double
           position_double 128 (mkNumber false 5 3)).
  - vm_compute. split; [discriminate | reflexivity].
  - vm_compute. lia.
  - vm_compute. lia.
Defined.

Lemma convertTwobase_ends_negative_witness :
  (exists r,
     convertTwobase Traits_float (Z.to_nat 40000) (mkNumber false 5 (-3)) = Done r /\
     normalized Traits_float r) \/
  (convertTwobase Traits_float (Z.to_nat 40000) (mkNumber false 5 (-3)) = Undefined /\
   exponentWidth Traits_float = 32).
Proof.
  apply (convertTwobase_ends_negative Traits_float wfTraits_float position_float
           ltac:(vm_compute; discriminate)
           (Z.to_nat 40000) (mkNumber false 5 (-3))).
  - vm_compute. split; reflexivity.
  - vm_compute. split; [discriminate | reflexivity].
  - change (exponentWidth Traits_float - 1) with 15.
    change (reducedWidth Traits_float) with 64.
    change (2 ^ 15) with 32768. lia.
Defined.

(** ** C7: the mantissa overflow boundary of the lexer *)

(** No power of two is a multiple of five. *)
Lemma pow2_mod5 (k : nat) : 2 ^ Z.of_nat k mod 5 <> 0.
Proof.
  induction k as [| k IH].
  - discriminate.
  - rewrite Nat2Z.inj_succ, Z.pow_succ_r by lia.
    Z.div_mod_to_equations. lia.
Qed.

(** Rounding to even on one decimal digit. *)
Lemma roundHalfEven_digit (m digit : Z) :
  0 <= digit <= 9 ->
  roundHalfEven (m * 10 + digit) 10 =
    if (5 <? digit) || ((digit =? 5) && negb (Z.even m)) then m + 1 else m.
Proof.
  intros Hd. unfold roundHalfEven.
  replace ((m * 10 + digit) / 10) with m by (Z.div_mod_to_equations; lia).
  replace ((m * 10 + digit) mod 10) with digit by (Z.div_mod_to_equations; lia).
  destruct (2 * digit <? 10) eqn:A.
  - apply Z.ltb_lt in A.
    replace (5 <? digit) with false by (symmetry; apply Z.ltb_ge; lia).
    replace (digit =? 5) with false by (symmetry; apply Z.eqb_neq; lia).
    reflexivity.
  - apply Z.ltb_ge in A.
    destruct (10 <? 2 * digit) eqn:B.
    + apply Z.ltb_lt in B.
      replace (5 <? digit) with true by (symmetry; apply Z.ltb_lt; lia).
      reflexivity.
    + apply Z.ltb_ge in B.
      replace (5 <? digit) with false by (symmetry; apply Z.ltb_ge; lia).
      replace (digit =? 5) with true by (symmetry; apply Z.eqb_eq; lia).
      cbn [orb andb]. destruct (Z.even m); reflexivity.
Qed.

Section OverflowBoundary.

Variable T : IEEE754Traits.
Hypothesis Hwf : wfTraits T.

(** The carry of the lexer out of the largest mantissa is the rounding of
    [2 ^ mantissaWidth / 10]. *)
Lemma carry_rounds (U : Z) :
  U = umax (mantissaWidth T) ->
  (if 5 <=? U mod 10 + 1 then wrapU (mantissaWidth T) (U / 10 + 1) else U / 10)
  = roundHalfEven (U + 1) 10.
Proof.
  intros ->.
  destruct (traits_bounds T Hwf) as (Hmb & Heb & HW & Hmw & HmW & Hmr & Hew).
  pose proof (pow2_mod5 (Z.to_nat (mantissaWidth T))) as H5.
  rewrite Z2Nat.id in H5 by lia.
  assert (H2 : 2 <= 2 ^ mantissaWidth T).
  { change 2 with (2 ^ 1) at 1. apply pow2_le. lia. }
  unfold umax, roundHalfEven.
  replace (2 ^ mantissaWidth T - 1 + 1) with (2 ^ mantissaWidth T) by lia.
  set (P := 2 ^ mantissaWidth T) in *.
  assert (Heven : P mod 2 = 0).
  { subst P. replace (mantissaWidth T) with ((mantissaWidth T - 1) + 1) by lia.
    rewrite pow2_succ by lia. rewrite Z.mul_comm. apply Z.mod_mul. lia. }
  assert (Hq : (P - 1) / 10 = P / 10) by (Z.div_mod_to_equations; lia).
  assert (Hr : (P - 1) mod 10 + 1 = P mod 10) by (Z.div_mod_to_equations; lia).
  rewrite Hq, Hr.
  assert (Hne5 : P mod 10 <> 5) by (Z.div_mod_to_equations; lia).
  destruct (5 <=? P mod 10) eqn:A.
  - apply Z.leb_le in A.
    replace (2 * (P mod 10) <? 10) with false by (symmetry; apply Z.ltb_ge; lia).
    replace (10 <? 2 * (P mod 10)) with true by (symmetry; apply Z.ltb_lt; lia).
    apply wrapU_small. fold P. Z.div_mod_to_equations. lia.
  - apply Z.leb_gt in A.
    replace (2 * (P mod 10) <? 10) with true by (symmetry; apply Z.ltb_lt; lia).
    reflexivity.
Qed.

(** The first digit that does not fit: it is dropped, the exponent goes up
    by one, and the mantissa kept is rounded to even on the dropped digit. *)
Lemma parseMantissa_digit_dropped (c : Z) (st : MantissaState) :
  isDigit c = true ->
  stopMantissa st = false ->
  stopExponent st = false ->
  0 <= m_mantissa st <= umax (mantissaWidth T) ->
  umax (mantissaWidth T) < m_mantissa st * 10 + (c - 48) ->
  - 2 ^ (exponentWidth T - 1) <= m_exponent st ->
  m_exponent st + 2 < 2 ^ (exponentWidth T - 1) ->
  parseMantissa_digit T c st =
    let q := roundHalfEven (m_mantissa st * 10 + (c - 48)) 10 in
    Done (if q <=? umax (mantissaWidth T)
          then mkMState q (m_exponent st + 1) (m_negative st) false true true
          else mkMState (roundHalfEven q 10) (m_exponent st + 2)
                 (m_negative st) false true true).
Proof.
  intros Hc Hstop Hse Hm Hover Hlow Hhigh.
  assert (Hd : 48 <= c <= 57).
  { unfold isDigit in Hc. apply andb_true_iff in Hc. destruct Hc as [H1 H2].
    apply Z.leb_le in H1. apply Z.leb_le in H2. lia. }
  destruct (traits_bounds T Hwf) as (Hmb & Heb & HW & Hmw & HmW & Hmr & Hew).
  cbv zeta.
  rewrite roundHalfEven_digit by lia.
  unfold parseMantissa_digit. rewrite Hstop, Hse. cbn [negb orb andb].
  set (U := umax (mantissaWidth T)) in *.
  assert (HU : U = 2 ^ mantissaWidth T - 1) by reflexivity.
  assert (Hlarge :
    (U / 10 <=? m_mantissa st) &&
    ((U / 10 <? m_mantissa st) ||
     ((m_mantissa st =? U / 10) && ((U - (c - 48)) / 10 <? m_mantissa st))) = true).
  { replace (U / 10 <=? m_mantissa st) with true
      by (symmetry; apply Z.leb_le; Z.div_mod_to_equations; lia).
    cbn [andb].
    destruct (U / 10 <? m_mantissa st) eqn:A; [reflexivity |].
    apply Z.ltb_ge in A. cbn [orb].
    replace (m_mantissa st =? U / 10) with true
      by (symmetry; apply Z.eqb_eq; Z.div_mod_to_equations; lia).
    cbn [andb]. apply Z.ltb_lt. Z.div_mod_to_equations. lia. }
  rewrite Hlarge. cbn [negb andb].
  rewrite (eadd_exact T Hwf) by lia. cbn [bind].
  rewrite land_1_even.
  destruct ((5 <? c - 48) || ((c - 48 =? 5) && negb (Z.even (m_mantissa st)))) eqn:Hup.
  - destruct (Z.eq_dec (m_mantissa st) U) as [Htop | Hbelow].
    + rewrite Htop.
      replace (wrapU (mantissaWidth T) (U + 1) =? 0) with true.
      2: { symmetry. apply Z.eqb_eq. unfold wrapU. rewrite HU.
           replace (2 ^ mantissaWidth T - 1 + 1) with (2 ^ mantissaWidth T) by lia.
           apply Z.mod_same. pose proof (pow2_pos (mantissaWidth T) ltac:(lia)). lia. }
      rewrite (eadd_exact T Hwf) by lia. cbn [bind].
      replace (U + 1 <=? U) with false by (symmetry; apply Z.leb_gt; lia).
      rewrite (carry_rounds U eq_refl).
      do 2 f_equal. lia.
    + rewrite wrapU_small by lia.
      replace (m_mantissa st + 1 =? 0) with false by (symmetry; apply Z.eqb_neq; lia).
      cbn [bind].
      replace (m_mantissa st + 1 <=? U) with true by (symmetry; apply Z.leb_le; lia).
      reflexivity.
  - cbn [bind].
    replace (m_mantissa st <=? U) with true by (symmetry; apply Z.leb_le; lia).
    reflexivity.
Qed.

(** C7: at the overflow boundary of the mantissa the lexer rounds half to
    even.  2^64 - 1 is parsed exactly, with exponent 0; on 2^64 the
    twentieth digit is dropped, the exponent becomes 1 and the nineteen
    digits kept are rounded up, to 1844674407370955162.  In general, when
    the digits [kept] fit the mantissa type and the next digit [c] does not
    fit any more, and [c] ends the digits, the mantissa returned is the
    value of [kept ++ [c]] divided by ten and rounded half to even, with
    exponent 1; when that rounding itself leaves the mantissa type, it is
    divided by ten and rounded once more, with exponent 2. *)
Theorem parseMantissaExponent_overflow_boundary (sg : option bool) (kept : text)
    (c : Z) (tail : text) :
  Forall (fun c => isDigit c = true) kept ->
  isDigit c = true ->
  digitsValue 0 kept <= umax (mantissaWidth T) ->
  umax (mantissaWidth T) < digitsValue 0 (kept ++ [c]) ->
  terminated tail = true -> hd 0 tail <> 101 -> hd 0 tail <> 69 ->
  (parseMantissaExponent Traits_double (codes "18446744073709551615")
     = Done (20%nat, mkNumber false 18446744073709551615 0) /\
   umax (mantissaWidth Traits_double) = 18446744073709551615 /\
   parseMantissaExponent Traits_double (codes "18446744073709551616")
     = Done (20%nat, mkNumber false 1844674407370955162 1)) /\
  parseMantissaExponent T (signText sg ++ kept ++ c :: tail) =
    let q := roundHalfEven (digitsValue 0 (kept ++ [c])) 10 in
    Done (List.length (signText sg ++ kept ++ [c]),
          if q <=? umax (mantissaWidth T)
          then mkNumber (isNegativeSign sg) q 1
          else mkNumber (isNegativeSign sg) (roundHalfEven q 10) 2).
Proof.
  intros Hkept Hc Hfit Hover Hterm He1 He2.
  split; [repeat split; vm_compute; reflexivity |].
  destruct (traits_bounds T Hwf) as (Hmb & Heb & HW & Hmw & HmW & Hmr & Hew).
  destruct (traits_powers T Hwf) as (Hp1 & Hp2 & Hp3 & Hp4 & Hp5 & _).
  pose proof (digitsValue_nonneg kept Hkept 0 ltac:(lia)) as Hv.
  rewrite digitsValue_app in Hover |- *.
  change (digitsValue (digitsValue 0 kept) [c])
    with (digitsValue 0 kept * 10 + (c - 48)) in *.
  cbv zeta.
  replace (signText sg ++ kept ++ c :: tail)
    with (decimalText sg kept false [] ++ c :: tail)
    by (unfold decimalText; cbn [dotText app]; rewrite app_nil_r, <- app_assoc;
        reflexivity).
  replace (List.length (signText sg ++ kept ++ [c]))
    with (S (List.length (decimalText sg kept false [])))
    by (unfold decimalText; cbn [dotText app]; rewrite app_nil_r, !length_app;
        cbn [List.length]; lia).
  unfold parseMantissaExponent.
  rewrite (parseMantissa_body T Hwf)
    by (try assumption; try constructor; try reflexivity;
        rewrite ?app_nil_r; cbn [List.length Z.of_nat]; lia).
  rewrite app_nil_r. cbn [List.length Z.of_nat Z.opp].
  cbn [parseMantissa_from]. unfold parseMantissa_step. rewrite Hc.
  rewrite parseMantissa_digit_dropped
    by (cbn [stopMantissa stopExponent m_mantissa m_exponent];
        try reflexivity; try assumption; lia).
  cbv zeta. cbn [m_mantissa m_exponent m_negative bind].
  set (q := roundHalfEven (digitsValue 0 kept * 10 + (c - 48)) 10).
  assert (Hend : forall st, digits st = true ->
            parseMantissa_from T (S (List.length (decimalText sg kept false [])))
              tail st
            = Done (S (List.length (decimalText sg kept false [])),
                    mkNumber (m_negative st) (m_mantissa st) (m_exponent st))).
  { intros st Hdig. rewrite (parseMantissa_from_terminated T) by exact Hterm.
    rewrite Hdig. reflexivity. }
  assert (Hchar : charAt (decimalText sg kept false [] ++ c :: tail)
                    (S (List.length (decimalText sg kept false []))) = hd 0 tail).
  { replace (decimalText sg kept false [] ++ c :: tail)
      with ((decimalText sg kept false [] ++ [c]) ++ tail)
      by (rewrite <- app_assoc; reflexivity).
    replace (S (List.length (decimalText sg kept false [])))
      with (List.length (decimalText sg kept false [] ++ [c]))
      by (rewrite length_app; cbn [List.length]; lia).
    apply charAt_app. }
  destruct (q <=? umax (mantissaWidth T));
    cbn [bind]; rewrite Hend by reflexivity; cbn [bind Nat.eqb];
    rewrite Hchar;
    (replace ((hd 0 tail =? 101) || (hd 0 tail =? 69)) with false
       by (symmetry; apply orb_false_iff; split; apply Z.eqb_neq; assumption));
    cbn [m_negative m_mantissa m_exponent]; reflexivity.
Qed.

End OverflowBoundary.

Lemma parseMantissaExponent_overflow_boundary_witness :
  (parseMantissaExponent Traits_double (codes "18446744073709551615")
     = Done (20%nat, mkNumber false 18446744073709551615 0) /\
   umax (mantissaWidth Traits_double) = 18446744073709551615 /\
   parseMantissaExponent Traits_double (codes "18446744073709551616")
     = Done (20%nat, mkNumber false 1844674407370955162 1)) /\
  parseMantissaExponent Traits_double (codes "100000000000000011105")
    = Done (21%nat, mkNumber false 10000000000000001110 1).
Proof.
  apply (parseMantissaExponent_overflow_boundary Traits_double wfTraits_double
           None (codes "10000000000000001110") 53 []);
    try (repeat constructor; fail); try discriminate;
    try (vm_compute; discriminate); reflexivity.
Defined.

(** ** The lexer on any run of digits *)

Section AnyDigits.

Variable T : IEEE754Traits.
Hypothesis Hwf : wfTraits T.

(** The mantissa stays in the [Mantissa] type. *)
Lemma parseMantissa_digit_range (c : Z) (st st' : MantissaState) :
  0 <= m_mantissa st < 2 ^ mantissaWidth T ->
  parseMantissa_digit T c st = Done st' ->
  0 <= m_mantissa st' < 2 ^ mantissaWidth T.
Proof.
  intros Hm H.
  destruct (traits_bounds T Hwf) as (Hmb & Heb & HW & Hmw & HmW & Hmr & Hew).
  pose proof (pow2_pos (mantissaWidth T) ltac:(lia)) as Hp.
  assert (Hwrap : forall z, 0 <= wrapU (mantissaWidth T) z < 2 ^ mantissaWidth T)
    by (intros z; unfold wrapU; apply Z.mod_pos_bound; exact Hp).
  assert (Hten : 0 <= umax (mantissaWidth T) / 10 < 2 ^ mantissaWidth T)
    by (unfold umax; Z.div_mod_to_equations; lia).
  unfold parseMantissa_digit in H. cbv zeta in H.
  apply bind_Done in H. destruct H as [[m1 e1] [H1 H]].
  apply bind_Done in H. destruct H as [e2 [_ H]].
  injection H as <-. cbn [m_mantissa].
  destruct (negb _) in H1.
  - injection H1 as <- _. apply Hwrap.
  - apply bind_Done in H1. destruct H1 as [e' [_ H1]].
    destruct (_ && _) in H1.
    + destruct (_ =? 0) in H1.
      * apply bind_Done in H1. destruct H1 as [e'' [_ H1]].
        injection H1 as <- _. destruct (5 <=? _); [apply Hwrap | exact Hten].
      * injection H1 as <- _. apply Hwrap.
    + injection H1 as <- _. exact Hm.
Qed.

Lemma parseMantissa_step_range (i : nat) (c : Z) (st st' : MantissaState) :
  0 <= m_mantissa st < 2 ^ mantissaWidth T ->
  parseMantissa_step T i c st = Done (Continue st') ->
  0 <= m_mantissa st' < 2 ^ mantissaWidth T.
Proof.
  intros Hm H. unfold parseMantissa_step in H.
  destruct (isDigit c).
  { apply bind_Done in H. destruct H as [st1 [H1 H]]. injection H as <-.
    exact (parseMantissa_digit_range c st st1 Hm H1). }
  destruct (isSign c).
  { destruct (negb (Nat.eqb i 0)); [discriminate |].
    injection H as <-. exact Hm. }
  destruct (c =? 46).
  { destruct (stopExponent st); [discriminate |]. injection H as <-. exact Hm. }
  destruct (negb (digits st)); discriminate.
Qed.

Lemma parseMantissa_step_returns (i : nat) (c : Z) (st : MantissaState)
    (p : nat) (n : IEEE754Number) :
  0 <= m_mantissa st < 2 ^ mantissaWidth T ->
  parseMantissa_step T i c st = Done (Return (p, n)) ->
  0 <= mantissa n < 2 ^ mantissaWidth T.
Proof.
  intros Hm H.
  assert (Herr : 0 <= mantissa (snd parseError) < 2 ^ mantissaWidth T).
  { cbn. destruct (traits_bounds T Hwf) as (Hmb & Heb & HW & Hmw & HmW & Hmr & Hew).
    pose proof (pow2_pos (mantissaWidth T) ltac:(lia)). lia. }
  unfold parseMantissa_step in H.
  destruct (isDigit c).
  { apply bind_Done in H. destruct H as [st1 [H1 H]]. discriminate. }
  destruct (isSign c).
  { destruct (negb (Nat.eqb i 0)); [| discriminate].
    injection H as <- <-. exact Herr. }
  destruct (c =? 46).
  { destruct (stopExponent st); [| discriminate]. injection H as <- <-. exact Herr. }
  destruct (negb (digits st)); injection H as <- <-; [exact Herr | exact Hm].
Qed.

Lemma parseMantissa_from_range (rest : text) :
  forall (i : nat) (st : MantissaState) (p : nat) (n : IEEE754Number),
    0 <= m_mantissa st < 2 ^ mantissaWidth T ->
    parseMantissa_from T i rest st = Done (p, n) ->
    0 <= mantissa n < 2 ^ mantissaWidth T.
Proof.
  induction rest as [| c rest IH]; intros i st p n Hm H;
    cbn [parseMantissa_from] in H;
    apply bind_Done in H; destruct H as [r [Hr H]];
    destruct r as [st' | x]; try discriminate.
  - injection H as ->. exact (parseMantissa_step_returns i 0 st p n Hm Hr).
  - apply (IH _ _ _ _ (parseMantissa_step_range i c st st' Hm Hr) H).
  - injection H as ->. exact (parseMantissa_step_returns i c st p n Hm Hr).
Qed.

(** Every number the lexer returns has its mantissa in the [Mantissa] type. *)
Lemma parseMantissaExponent_range (s : text) (p : nat) (n : IEEE754Number) :
  parseMantissaExponent T s = Done (p, n) ->
  0 <= mantissa n < 2 ^ mantissaWidth T.
Proof.
  intros H.
  destruct (traits_bounds T Hwf) as (Hmb & Heb & HW & Hmw & HmW & Hmr & Hew).
  pose proof (pow2_pos (mantissaWidth T) ltac:(lia)) as Hp.
  unfold parseMantissaExponent in H.
  apply bind_Done in H. destruct H as [[parsed number] [Hm H]].
  apply parseMantissa_from_range in Hm; [| cbn [m_mantissa]; lia].
  destruct (Nat.eqb parsed 0); [injection H as _ <-; cbn; lia |].
  destruct (_ || _).
  - apply bind_Done in H. destruct H as [[pe ee] [_ H]].
    destruct (Nat.eqb pe 0); [injection H as _ <-; cbn; lia |].
    apply bind_Done in H. destruct H as [e' [_ H]].
    injection H as _ <-. exact Hm.
  - injection H as _ <-. exact Hm.
Qed.

(** One digit, whatever the state: the scan goes on, with the flags as they
    were and the exponent moved by at most two. *)
Lemma parseMantissa_digit_any (c : Z) (st : MantissaState) :
  - 2 ^ (exponentWidth T - 1) < m_exponent st ->
  m_exponent st + 2 < 2 ^ (exponentWidth T - 1) ->
  exists st',
    parseMantissa_digit T c st = Done st' /\
    stopExponent st' = stopExponent st /\
    m_negative st' = m_negative st /\
    digits st' = true /\
    m_exponent st - 1 <= m_exponent st' <= m_exponent st + 2.
Proof.
  intros Hlow Hhigh.
  unfold parseMantissa_digit. cbv zeta.
  match goal with
  | |- context [negb (stopMantissa st) && ?a && ?b] =>
      generalize (negb (stopMantissa st) && a && b)
  end.
  intros large.
  assert (Hlast : forall m1 e1 sm,
    m_exponent st <= e1 <= m_exponent st + 2 ->
    exists st',
      (exponent2 <- (if stopExponent st then eadd T e1 (- 1) else Done e1) ;;
       Done (mkMState m1 exponent2 (m_negative st) (stopExponent st) sm true))
      = Done st' /\
      stopExponent st' = stopExponent st /\
      m_negative st' = m_negative st /\
      digits st' = true /\
      m_exponent st - 1 <= m_exponent st' <= m_exponent st + 2).
  { intros m1 e1 sm He1.
    destruct (stopExponent st) eqn:Hse.
    - rewrite (eadd_exact T Hwf) by lia. cbn [bind].
      eexists. split; [reflexivity |].
      cbn [stopExponent m_negative digits m_exponent]. repeat split; lia.
    - cbn [bind]. eexists. split; [reflexivity |].
      cbn [stopExponent m_negative digits m_exponent]. repeat split; lia. }
  destruct (negb (stopMantissa st || large)).
  - cbn [bind]. apply Hlast. lia.
  - rewrite (eadd_exact T Hwf) by lia. cbn [bind].
    destruct (large && _).
    + destruct (_ =? 0).
      * rewrite (eadd_exact T Hwf) by lia. cbn [bind]. apply Hlast. lia.
      * cbn [bind]. apply Hlast. lia.
    + cbn [bind]. apply Hlast. lia.
Qed.

(** A run of digits, whatever their value. *)
Lemma parseMantissa_from_run (ds : text) :
  Forall (fun c => isDigit c = true) ds ->
  forall (i : nat) (st : MantissaState) (tail : text),
    - 2 ^ (exponentWidth T - 1) + Z.of_nat (List.length ds) < m_exponent st ->
    m_exponent st + 2 * Z.of_nat (List.length ds) < 2 ^ (exponentWidth T - 1) ->
    exists st',
      parseMantissa_from T i (ds ++ tail) st
        = parseMantissa_from T (i + List.length ds) tail st' /\
      stopExponent st' = stopExponent st /\
      m_negative st' = m_negative st /\
      digits st' = (match ds with [] => digits st | _ => true end) /\
      m_exponent st - Z.of_nat (List.length ds) <= m_exponent st'
        <= m_exponent st + 2 * Z.of_nat (List.length ds).
Proof.
  induction 1 as [| c ds Hc Hds IH]; intros i st tail Hlow Hhigh.
  - exists st. cbn [app List.length Z.of_nat]. rewrite Nat.add_0_r.
    repeat split; lia.
  - cbn [List.length] in *. rewrite Nat2Z.inj_succ in *.
    destruct (parseMantissa_digit_any c st ltac:(lia) ltac:(lia))
      as (st1 & H1 & Hse & Hneg & Hdig & He).
    destruct (IH (S i) st1 tail ltac:(lia) ltac:(lia))
      as (st' & H' & Hse' & Hneg' & Hdig' & He').
    exists st'. cbn [app parseMantissa_from]. unfold parseMantissa_step.
    rewrite Hc, H1. cbn [bind]. rewrite H'.
    rewrite Nat.add_succ_r. cbn [plus].
    split; [reflexivity |]. split; [congruence |]. split; [congruence |].
    split; [rewrite Hdig'; destruct ds; [exact Hdig | reflexivity] | lia].
Qed.

(** The scan of any decimal literal reaches what follows it. *)
Lemma parseMantissa_reaches (sg : option bool) (intPart : text) (hasDot : bool)
    (fracPart tail : text) :
  Forall (fun c => isDigit c = true) intPart ->
  Forall (fun c => isDigit c = true) fracPart ->
  (hasDot = false -> fracPart = []) ->
  2 * Z.of_nat (List.length (intPart ++ fracPart)) < 2 ^ (exponentWidth T - 1) ->
  exists st',
    parseMantissa T (decimalText sg intPart hasDot fracPart ++ tail)
      = parseMantissa_from T (List.length (decimalText sg intPart hasDot fracPart))
          tail st' /\
    stopExponent st' = hasDot /\
    digits st' = (match intPart ++ fracPart with [] => false | _ => true end).
Proof.
  intros Hint Hfrac Hdot Hlen.
  rewrite length_app, Nat2Z.inj_add in Hlen.
  assert (Hgen : forall (i : nat) (neg : bool),
    exists st',
      parseMantissa_from T i (intPart ++ dotText hasDot ++ fracPart ++ tail)
        (mkMState 0 0 neg false false false)
      = parseMantissa_from T
          (i + List.length (intPart ++ dotText hasDot ++ fracPart)) tail st' /\
      stopExponent st' = hasDot /\
      digits st' = (match intPart ++ fracPart with [] => false | _ => true end)).
  { intros i neg.
    destruct (parseMantissa_from_run intPart Hint i
                (mkMState 0 0 neg false false false)
                (dotText hasDot ++ fracPart ++ tail))
      as (st1 & H1 & Hse1 & _ & Hdig1 & He1);
      cbn [m_exponent stopExponent digits] in *; try lia.
    rewrite H1.
    destruct hasDot.
    - cbn [dotText app parseMantissa_from]. unfold parseMantissa_step.
      change (isDigit 46) with false. change (isSign 46) with false.
      change (46 =? 46) with true. rewrite Hse1. cbn [bind].
      destruct (parseMantissa_from_run fracPart Hfrac (S (i + List.length intPart))
                  (mkMState (m_mantissa st1) (m_exponent st1) (m_negative st1)
                     true (stopMantissa st1) (digits st1)) tail)
        as (st2 & H2 & Hse2 & _ & Hdig2 & _);
        cbn [m_exponent stopExponent digits] in *; try lia.
      exists st2. rewrite H2.
      rewrite !length_app. cbn [List.length].
      replace (S (i + List.length intPart) + List.length fracPart)%nat
        with (i + (List.length intPart + S (List.length fracPart)))%nat by lia.
      split; [reflexivity |]. split; [exact Hse2 |].
      rewrite Hdig2, Hdig1. destruct intPart, fracPart; reflexivity.
    - rewrite (Hdot eq_refl). cbn [dotText app]. rewrite !app_nil_r.
      exists st1. split; [reflexivity |]. split; [exact Hse1 |].
      rewrite Hdig1. destruct intPart; reflexivity. }
  unfold parseMantissa, decimalText.
  rewrite <- !app_assoc.
  destruct sg as [[|] |]; cbn [signText app].
  - cbn [parseMantissa_from]. unfold parseMantissa_step at 1.
    change (isDigit 45) with false. change (isSign 45) with true.
    cbn [Nat.eqb negb bind m_mantissa m_exponent stopExponent stopMantissa digits].
    destruct (Hgen 1%nat (45 =? 45)) as (st' & H & Hse & Hdig).
    exists st'. rewrite H. cbn [List.length plus]. auto.
  - cbn [parseMantissa_from]. unfold parseMantissa_step at 1.
    change (isDigit 43) with false. change (isSign 43) with true.
    cbn [Nat.eqb negb bind m_mantissa m_exponent stopExponent stopMantissa digits].
    destruct (Hgen 1%nat (43 =? 45)) as (st' & H & Hse & Hdig).
    exists st'. rewrite H. cbn [List.length plus]. auto.
  - destruct (Hgen O false) as (st' & H & Hse & Hdig).
    exists st'. rewrite H. cbn [plus]. auto.
Qed.

(** X14: the lexer does not stop at a misplaced character, it fails: after
    any digits, of fewer than [2 ^ (exponentWidth - 2)] characters, a sign
    anywhere after the first character, a second decimal point, or the end
    of a literal with no digit at all give the consumed length 0. *)
Theorem parseMantissaExponent_malformed (sg : option bool) (intPart : text)
    (hasDot : bool) (fracPart : text) (c : Z) (rest : text) :
  Forall (fun c => isDigit c = true) intPart ->
  Forall (fun c => isDigit c = true) fracPart ->
  (hasDot = false -> fracPart = []) ->
  2 * Z.of_nat (List.length (intPart ++ fracPart)) < 2 ^ (exponentWidth T - 1) ->
  (isSign c = true /\ decimalText sg intPart hasDot fracPart <> [])
  \/ (c = 46 /\ hasDot = true)
  \/ (terminator c = true /\ intPart ++ fracPart = []) ->
  parseMantissaExponent T (decimalText sg intPart hasDot fracPart ++ c :: rest)
    = Done parseError.
Proof.
  intros Hint Hfrac Hdot Hlen Hcase.
  unfold parseMantissaExponent.
  destruct (parseMantissa_reaches sg intPart hasDot fracPart (c :: rest)
              Hint Hfrac Hdot Hlen) as (st & H & Hse & Hdig).
  rewrite H.
  destruct Hcase as [[Hs Hne] | [[-> Hd] | [Hc Hnil]]].
  - cbn [parseMantissa_from]. unfold parseMantissa_step.
    assert (Hdigit : isDigit c = false).
    { unfold isSign in Hs. apply orb_true_iff in Hs.
      destruct Hs as [Hs | Hs]; apply Z.eqb_eq in Hs; subst c; reflexivity. }
    rewrite Hdigit, Hs.
    replace (Nat.eqb (List.length (decimalText sg intPart hasDot fracPart)) 0) with false
      by (symmetry; apply Nat.eqb_neq;
          destruct (decimalText sg intPart hasDot fracPart); [contradiction | cbn; lia]).
    reflexivity.
  - subst hasDot. cbn [parseMantissa_from]. unfold parseMantissa_step.
    change (isDigit 46) with false. change (isSign 46) with false.
    change (46 =? 46) with true. rewrite Hse. reflexivity.
  - rewrite (parseMantissa_from_terminated T) by exact Hc.
    rewrite Hdig, Hnil. reflexivity.
Qed.

End AnyDigits.

Lemma parseMantissaExponent_malformed_witness :
  parseMantissaExponent Traits_double (codes "12-3") = Done parseError /\
  parseMantissaExponent Traits_double (codes "99999999999999999999999.9.") = Done parseError /\
  parseMantissaExponent Traits_double (codes "-.x") = Done parseError.
Proof.
  split; [| split].
  - apply (parseMantissaExponent_malformed Traits_double wfTraits_double
             None (codes "12") false [] 45 (codes "3"));
      try (repeat constructor; fail); try discriminate;
      try (vm_compute; reflexivity);
      try (left; split; [reflexivity | discriminate]).
  - apply (parseMantissaExponent_malformed Traits_double wfTraits_double
             None (codes "99999999999999999999999") true (codes "9") 46 []);
      try (repeat constructor; fail); try discriminate;
      try (vm_compute; reflexivity);
      try (right; left; split; reflexivity).
  - apply (parseMantissaExponent_malformed Traits_double wfTraits_double
             (Some true) [] true [] 120 []);
      try (repeat constructor; fail); try discriminate;
      try (vm_compute; reflexivity);
      try (right; right; split; reflexivity).
Defined.

(** ** C4: magnitudes under the minimal subnormal *)

(** [divideBy] goes at most one above the quotient. *)
Lemma divideBy_le_next (w n d : Z) :
  0 <= n < 2 ^ w -> 2 <= d -> divideBy w n d <= n / d + 1.
Proof.
  intros Hn Hd. unfold divideBy.
  destruct (n mod d =? d / 2) eqn:Hhalf; cbn [negb]; [| lia].
  apply Z.eqb_eq in Hhalf.
  destruct (negb (Z.land (n / d) 1 =? 0)); [| lia].
  rewrite wrapU_small by (Z.div_mod_to_equations; nia). lia.
Qed.

(** One division by [D] of the extended mantissa costs the upper bound a
    relative error of at most [1 / Q]. *)
Lemma track_upper (v1 X Q A c a D f tf : Z) :
  0 < Q -> 0 < X -> 0 <= A -> 0 < D -> Q <= f -> f * D <= v1 ->
  0 <= a <= f + 1 -> v1 * X * Q <= A * c -> 0 <= c <= 2 * Q -> 1 <= tf ->
  a * (X * D) * Q <= A * (c + 2 * tf).
Proof.
  intros HQ HX HA HD Hf Hfd Ha HU Hc Htf.
  assert (H0 : a * Q <= f * (Q + 1)) by nia.
  assert (H1 : a * D * Q <= v1 * (Q + 1)).
  { apply Z.le_trans with (f * D * (Q + 1)); [| nia].
    replace (a * D * Q) with (a * Q * D) by ring.
    replace (f * D * (Q + 1)) with (f * (Q + 1) * D) by ring.
    apply Z.mul_le_mono_nonneg_r; lia. }
  assert (H2 : a * D * Q * (X * Q) <= v1 * (Q + 1) * (X * Q)).
  { apply Z.mul_le_mono_nonneg_r; [nia | exact H1]. }
  assert (H3 : v1 * X * Q * (Q + 1) <= A * c * (Q + 1)).
  { apply Z.mul_le_mono_nonneg_r; [lia | exact HU]. }
  assert (H4 : A * (c * (Q + 1)) <= A * ((c + 2 * tf) * Q)).
  { apply Z.mul_le_mono_nonneg_l; [exact HA | nia]. }
  apply (Z.mul_le_mono_pos_r _ _ Q HQ).
  replace (a * (X * D) * Q * Q) with (a * D * Q * (X * Q)) by ring.
  replace (v1 * (Q + 1) * (X * Q)) with (v1 * X * Q * (Q + 1)) in H2 by ring.
  replace (A * c * (Q + 1)) with (A * (c * (Q + 1))) in H3 by ring.
  replace (A * (c + 2 * tf) * Q) with (A * ((c + 2 * tf) * Q)) by ring.
  lia.
Qed.

(** The same division, seen from below. *)
Lemma track_lower (Y W v v1 Z4 f D P4 a : Z) :
  Y <= v * Z4 -> v1 = v * W -> 0 < W -> 0 < Z4 -> 2 <= f ->
  v1 < (f + 1) * D -> 0 < D -> 3 * D <= 2 * P4 -> f <= a ->
  Y * W <= a * (Z4 * P4).
Proof.
  intros HL Hv1 HW HZ Hf Hlt HD HP Ha.
  assert (H1 : Y * W <= v1 * Z4).
  { subst v1. replace (v * W * Z4) with (v * Z4 * W) by ring.
    apply Z.mul_le_mono_nonneg_r; lia. }
  assert (H2 : v1 <= f * P4) by nia.
  assert (H3 : v1 * Z4 <= f * P4 * Z4)
    by (apply Z.mul_le_mono_nonneg_r; lia).
  assert (H4 : f * (P4 * Z4) <= a * (P4 * Z4))
    by (apply Z.mul_le_mono_nonneg_r; [nia | exact Ha]).
  replace (a * (Z4 * P4)) with (a * (P4 * Z4)) by ring.
  replace (f * P4 * Z4) with (f * (P4 * Z4)) in H3 by ring.
  lia.
Qed.

(** At or below [2 ^ -1075], half the minimal subnormal, the mantissa left
    by the first normalization loop sits at least 54 bits under the minimum
    exponent, or 53 bits under it with hardly more than its leading bit. *)
Lemma threshold_gap (v v1 m K N t : Z) :
  0 <= K <= 2 ^ 28 -> 0 <= N -> 0 <= t -> 0 <= m ->
  v * 10 ^ K * 2 ^ 68 <= m * 2 ^ N * (2 ^ 68 + 2 * K) ->
  m * 2 ^ 1075 <= 10 ^ K ->
  2 ^ t * v1 <= v + 2 ^ t - 1 ->
  2 ^ 52 <= v1 ->
  t + 1128 <= N \/ (N = t + 1127 /\ v1 <= 2 ^ 52 + 2 ^ 13).
Proof.
  intros HK HN Ht Hm HU Hmag Hval Hv1.
  assert (H29 : 2 ^ 68 + 2 * K <= 2 ^ 68 + 2 ^ 29).
  { change (2 ^ 29) with (2 * 2 ^ 28). lia. }
  pose proof (pow2_pos t Ht) as Hpt.
  pose proof (pow2_pos N HN) as HpN.
  pose proof (Z.pow_pos_nonneg 10 K ltac:(lia) ltac:(lia)) as HX.
  assert (Hconst : 2 ^ 1126 * (2 ^ 68 + 2 ^ 29) < (2 ^ 52 - 1) * (2 ^ 68 * 2 ^ 1075))
    by (vm_compute; reflexivity).
  assert (Hedge : forall x, (x - 1) * (2 ^ 68 * 2 ^ 1075) < 2 ^ 1127 * (2 ^ 68 + 2 ^ 29) ->
            x <= 2 ^ 52 + 2 ^ 13).
  { intros x Hx.
    destruct (Z.le_gt_cases x (2 ^ 52 + 2 ^ 13)) as [H | H]; [exact H | exfalso].
    assert (H' : (2 ^ 52 + 2 ^ 13) * (2 ^ 68 * 2 ^ 1075)
                 <= (x - 1) * (2 ^ 68 * 2 ^ 1075)).
    { apply Z.mul_le_mono_nonneg_r; [vm_compute; discriminate | lia]. }
    assert (Hc : 2 ^ 1127 * (2 ^ 68 + 2 ^ 29)
                 <= (2 ^ 52 + 2 ^ 13) * (2 ^ 68 * 2 ^ 1075))
      by (vm_compute; discriminate).
    lia. }
  set (C := 2 ^ 1075) in *. set (Q := 2 ^ 68) in *.
  set (Q' := 2 ^ 68 + 2 ^ 29) in *.
  set (X := 10 ^ K) in *. set (Y := 2 ^ N) in *. set (P := 2 ^ t) in *.
  assert (HQ : 0 < Q) by (subst Q; apply pow2_pos; lia).
  assert (HC : 0 < C) by (subst C; apply pow2_pos; lia).
  assert (HQ' : 0 < Q') by (subst Q'; vm_compute; reflexivity).
  assert (S1 : v * (Q * C) * X <= Y * (Q + 2 * K) * X).
  { apply Z.le_trans with (m * Y * (Q + 2 * K) * C).
    - replace (v * (Q * C) * X) with (v * X * Q * C) by ring.
      apply Z.mul_le_mono_nonneg_r; lia.
    - replace (m * Y * (Q + 2 * K) * C) with (m * C * (Y * (Q + 2 * K))) by ring.
      replace (Y * (Q + 2 * K) * X) with (X * (Y * (Q + 2 * K))) by ring.
      apply Z.mul_le_mono_nonneg_r; [| exact Hmag].
      apply Z.mul_nonneg_nonneg; lia. }
  assert (S2 : v * (Q * C) <= Y * Q').
  { apply Z.le_trans with (Y * (Q + 2 * K)).
    - apply (Z.mul_le_mono_pos_r _ _ X HX). exact S1.
    - apply Z.mul_le_mono_nonneg_l; [lia | subst Q'; exact H29]. }
  assert (S3 : P * (v1 - 1) < v).
  { rewrite Z.mul_sub_distr_l, Z.mul_1_r. lia. }
  assert (S4 : P * ((v1 - 1) * (Q * C)) < Y * Q').
  { apply Z.lt_le_trans with (v * (Q * C)); [| exact S2].
    replace (P * ((v1 - 1) * (Q * C))) with (P * (v1 - 1) * (Q * C)) by ring.
    apply Z.mul_lt_mono_pos_r; [apply Z.mul_pos_pos; lia | exact S3]. }
  destruct (Z.le_gt_cases (t + 1128) N) as [Hfar | Hnear]; [left; exact Hfar |].
  right.
  destruct (Z.le_gt_cases N (t + 1126)) as [Hlow | Hhigh].
  - exfalso.
    assert (HY : Y <= P * 2 ^ 1126).
    { subst Y P. rewrite <- Z.pow_add_r by lia. apply pow2_le. lia. }
    assert (S5 : P * ((v1 - 1) * (Q * C)) < P * (2 ^ 1126 * Q')).
    { apply Z.lt_le_trans with (Y * Q'); [exact S4 |].
      replace (P * (2 ^ 1126 * Q')) with (P * 2 ^ 1126 * Q') by ring.
      apply Z.mul_le_mono_nonneg_r; lia. }
    apply Z.mul_lt_mono_pos_l in S5; [| exact Hpt].
    assert (S6 : (2 ^ 52 - 1) * (Q * C) <= (v1 - 1) * (Q * C)).
    { apply Z.mul_le_mono_nonneg_r; [apply Z.mul_nonneg_nonneg; lia | lia]. }
    lia.
  - assert (HNeq : N = t + 1127) by lia.
    split; [exact HNeq |].
    apply Hedge.
    assert (HY : Y = P * 2 ^ 1127).
    { subst Y P. rewrite <- Z.pow_add_r by lia. f_equal. exact HNeq. }
    rewrite HY in S4.
    replace (P * 2 ^ 1127 * Q') with (P * (2 ^ 1127 * Q')) in S4 by ring.
    apply Z.mul_lt_mono_pos_l in S4; [exact S4 | exact Hpt].
Qed.

(** Halving one more than a power of two is a tie, and goes to the even
    side. *)
Lemma halve_next_to_power (w x j : Z) :
  2 <= j -> 0 <= x <= 2 ^ j + 1 -> x < 2 ^ w -> 1 <= w ->
  divideBy w x 2 <= 2 ^ (j - 1).
Proof.
  intros Hj Hx Hw Hw1.
  assert (Hp : 2 ^ j = 2 * 2 ^ (j - 1)).
  { replace j with ((j - 1) + 1) at 1 by lia. apply pow2_succ. lia. }
  assert (Hp' : 2 ^ (j - 1) = 2 * 2 ^ (j - 2)).
  { replace (j - 1) with ((j - 2) + 1) at 1 by lia. apply pow2_succ. lia. }
  pose proof (pow2_pos (j - 2) ltac:(lia)) as Hpos.
  destruct (Z.eq_dec x (2 ^ j + 1)) as [-> | Hne].
  - unfold divideBy.
    replace ((2 ^ j + 1) / 2) with (2 ^ (j - 1)) by (Z.div_mod_to_equations; lia).
    rewrite land_1_even.
    replace (Z.even (2 ^ (j - 1))) with true
      by (symmetry; rewrite Hp'; rewrite Z.even_mul; reflexivity).
    cbn [negb]. destruct (negb _); lia.
  - pose proof (divideBy_2_bounds w x Hw1 ltac:(lia)) as Hd.
    Z.div_mod_to_equations. lia.
Qed.

Section SmallMagnitude.

Variable T : IEEE754Traits.
Hypothesis Hwf : wfTraits T.
Hypothesis Hposition : reducedWidth T + mantissaBits T < 2 ^ (exponentWidth T - 2).
Hypothesis Hreduced : 64 <= reducedWidth T.

(** The decimal number the conversion starts from. *)
Variable m e : Z.
Hypothesis Hm : 1 <= m < 2 ^ reducedWidth T.
Hypothesis Hdeep :
  4 * (- e) + 32 * reducedWidth T - (exponentSubnormalMin T - reducedWidth T)
  <= 2 ^ (exponentWidth T - 1).
Hypothesis Hslack : 2 * (- e) <= 2 ^ (reducedWidth T - 60).

(** The inner loop of [increaseTenExponent] multiplies the mantissa by a
    power of [2 ^ twoFactor] and takes as much off the two-exponent. *)
Lemma increaseRoom_exact (twoFactor : Z) :
  1 <= twoFactor -> 2 * twoFactor <= reducedWidth T ->
  forall (fuel j : nat) (v two : Z),
    (j <= fuel)%nat ->
    1 <= v < 2 ^ reducedWidth T ->
    2 ^ (reducedWidth T - Z.of_nat j) <= v ->
    Z.of_nat j <= reducedWidth T ->
    - 2 ^ (exponentWidth T - 1) - (exponentSubnormalMin T - reducedWidth T)
      + twoFactor * Z.of_nat j <= two ->
    two <= 0 ->
    exists k, 0 <= k /\
      increaseRoom T twoFactor fuel v two
        = Done (Fallthrough (v * 2 ^ (twoFactor * k)) (two - twoFactor * k)) /\
      2 ^ (reducedWidth T - twoFactor) <= v * 2 ^ (twoFactor * k)
        < 2 ^ reducedWidth T.
Proof.
  intros Hf1 Hf2.
  destruct (traits_bounds T Hwf) as (Hmb & Heb & HW & Hmw & HmW & Hmr & Hew).
  destruct (traits_powers T Hwf) as (Hp1 & Hp2 & Hp3 & Hp4 & _).
  change (2 ^ 31) with 2147483648 in Hp4.
  destruct (room_eq T twoFactor ltac:(lia)) as (Hmult & Hroom & Hsplit).
  destruct (floor_fits T Hwf Hposition ltac:(lia)) as (Hfloor & Hfr).
  assert (H2 : 2 <= 2 ^ twoFactor)
    by (change 2 with (2 ^ 1) at 1; apply pow2_le; lia).
  induction fuel as [| fuel IH]; intros j v two Hj Hv Hlow HjR Htwo Htwo0.
  - cbn [increaseRoom]. rewrite Hmult, Hroom.
    destruct (v <=? 2 ^ (reducedWidth T - twoFactor) - 1) eqn:Hc.
    + apply Z.leb_le in Hc. exfalso.
      assert (j = O) by lia. subst j. cbn [Z.of_nat] in Hlow.
      rewrite Z.sub_0_r in Hlow. lia.
    + apply Z.leb_gt in Hc. exists 0.
      rewrite Z.mul_0_r, Z.pow_0_r, Z.mul_1_r, Z.sub_0_r.
      split; [lia |]. split; [reflexivity | lia].
  - rewrite increaseRoom_unfold. rewrite Hmult, Hroom.
    destruct (v <=? 2 ^ (reducedWidth T - twoFactor) - 1) eqn:Hc.
    2: { apply Z.leb_gt in Hc. exists 0.
         rewrite Z.mul_0_r, Z.pow_0_r, Z.mul_1_r, Z.sub_0_r.
         split; [lia |]. split; [reflexivity | lia]. }
    apply Z.leb_le in Hc.
    rewrite Hfloor. cbn [bind].
    destruct j as [| j].
    { exfalso. cbn [Z.of_nat] in Hlow. rewrite Z.sub_0_r in Hlow. lia. }
    rewrite Nat2Z.inj_succ in *.
    assert (Hprod : 0 <= twoFactor * Z.of_nat j) by nia.
    assert (Hb : int_arith (exponentSubnormalMin T - reducedWidth T + two)
                 = Done (exponentSubnormalMin T - reducedWidth T + two)).
    { apply int_arith_in_range.
      cbv [INT_MIN INT_MAX intBits]. change (32 - 1) with 31.
      change (2 ^ 31) with 2147483648. lia. }
    rewrite Hb. cbn [bind].
    rewrite (underflow_test_never_holds T two _ _ ltac:(lia) Hfloor Hb).
    rewrite (eadd_exact T Hwf) by lia. cbn [bind].
    pose proof (pow2_pos (reducedWidth T - twoFactor) ltac:(lia)) as Hpr.
    assert (Hfit : v * 2 ^ twoFactor < 2 ^ reducedWidth T).
    { rewrite Hsplit. apply Z.mul_lt_mono_pos_r; lia. }
    rewrite wrapU_small by (split; [apply Z.mul_nonneg_nonneg; lia | exact Hfit]).
    assert (Hgrow : 2 ^ (reducedWidth T - Z.of_nat j) <= v * 2 ^ twoFactor).
    { replace (reducedWidth T - Z.of_nat j)
        with ((reducedWidth T - Z.succ (Z.of_nat j)) + 1) by lia.
      rewrite pow2_succ by lia.
      apply Z.le_trans with (2 * v); [lia |].
      rewrite (Z.mul_comm v). apply Z.mul_le_mono_nonneg_r; lia. }
    assert (Hone : 1 <= v * 2 ^ twoFactor).
    { apply Z.le_trans with (v * 1); [lia |].
      apply Z.mul_le_mono_nonneg_l; lia. }
    destruct (IH j (v * 2 ^ twoFactor) (two + - twoFactor))
      as (k & Hk & Hr & Hrange); try lia.
    exists (k + 1). split; [lia |].
    replace (twoFactor * (k + 1)) with (twoFactor + twoFactor * k) by lia.
    rewrite Z.pow_add_r by (try lia; apply Z.mul_nonneg_nonneg; lia).
    rewrite Z.mul_assoc.
    replace (two - (twoFactor + twoFactor * k))
      with (two + - twoFactor - twoFactor * k) by lia.
    split; [exact Hr | exact Hrange].
Qed.

(** One loop of [increaseTenExponent] keeps track of the decimal number. *)
Lemma increaseTenExponent_tracks (tenFactor twoFactor : Z) :
  0 < tenFactor -> 1 <= twoFactor <= 30 ->
  10 ^ tenFactor <= 2 ^ twoFactor ->
  3 * 10 ^ tenFactor <= 2 * 2 ^ (4 * tenFactor) ->
  forall (fuel : nat) (s : ConvState),
    tracks T m e s ->
    (Z.to_nat (- tenexponent s) + Z.to_nat (reducedWidth T) <= fuel)%nat ->
    exists r, increaseTenExponent T tenFactor twoFactor fuel s = Done r /\
      tracks T m e r /\ - tenFactor < tenexponent r.
Proof.
  intros Htf Hwfac Hten H16.
  destruct (traits_bounds T Hwf) as (Hmb & Heb & HW & Hmw & HmW & Hmr & Hew).
  destruct (room_eq T twoFactor ltac:(lia)) as (Hmult & Hroom & Hsplit).
  destruct (floor_fits T Hwf Hposition ltac:(lia)) as (Hfloor & Hfr).
  set (Q := 2 ^ (reducedWidth T - 60)) in *.
  set (D := 10 ^ tenFactor) in *.
  assert (HQ16 : 16 <= Q).
  { change 16 with (2 ^ 4). apply pow2_le. lia. }
  assert (H10 : 10 <= D).
  { change 10 with (10 ^ 1) at 1. apply Z.pow_le_mono_r; lia. }
  assert (Hlt : 2 ^ twoFactor < 2 ^ reducedWidth T) by (apply pow2_lt; lia).
  assert (Hpow : power (reducedWidth T) 10 (Z.to_nat tenFactor) = D).
  { rewrite power_mod by lia. rewrite Z2Nat.id by lia.
    apply Z.mod_small. subst D. lia. }
  assert (HQw : Q <= 2 ^ (reducedWidth T - 2 * twoFactor))
    by (apply pow2_le; lia).
  assert (Hhalf : 2 ^ (reducedWidth T - twoFactor)
                  = 2 ^ twoFactor * 2 ^ (reducedWidth T - 2 * twoFactor)).
  { rewrite <- Z.pow_add_r by lia. f_equal. lia. }
  induction fuel as [| fuel IH]; intros s Htr Hfuel; [lia |].
  rewrite increaseTenExponent_unfold.
  destruct (tenexponent s <=? - tenFactor) eqn:Hc.
  2: { apply Z.leb_gt in Hc. exists s. split; [reflexivity |].
       split; [exact Htr | exact Hc]. }
  apply Z.leb_le in Hc.
  destruct Htr as (Hexp & HN & Hv & HU & HL & HQv).
  fold Q in HU, HQv.
  set (K := tenexponent s - e) in *.
  set (N := - twoexponent s) in *.
  assert (HK : 0 <= K <= - e) by (subst K; lia).
  pose proof (pow2_pos (4 * K) ltac:(lia)) as HZ4.
  pose proof (pow2_pos N HN) as HY.
  assert (HNlt : N < reducedWidth T + 4 * K).
  { destruct (Z.lt_ge_cases N (reducedWidth T + 4 * K)) as [H | H]; [exact H |].
    exfalso.
    assert (H' : 2 ^ (reducedWidth T + 4 * K) <= 2 ^ N) by (apply pow2_le; lia).
    rewrite Z.pow_add_r in H' by lia.
    assert (varmantissa s * 2 ^ (4 * K) < 2 ^ reducedWidth T * 2 ^ (4 * K))
      by (apply Z.mul_lt_mono_pos_r; lia).
    lia. }
  assert (Hprod : twoFactor * reducedWidth T <= 30 * reducedWidth T)
    by (apply Z.mul_le_mono_nonneg_r; lia).
  destruct (increaseRoom_exact twoFactor ltac:(lia) ltac:(lia) (S fuel)
              (Z.to_nat (reducedWidth T)) (varmantissa s) (twoexponent s))
    as (k & Hk & Hr & Hrange); try lia.
  { rewrite Z2Nat.id by lia. rewrite Z.sub_diag. change (2 ^ 0) with 1. lia. }
  rewrite Hr. cbn [bind].
  rewrite (eadd_exact T Hwf)
    by (pose proof (pow2_pos (exponentWidth T - 1) ltac:(lia)); lia).
  cbn [bind]. rewrite Hpow.
  set (v1 := varmantissa s * 2 ^ (twoFactor * k)) in *.
  assert (Hwk : 0 <= twoFactor * k) by (apply Z.mul_nonneg_nonneg; lia).
  pose proof (pow2_pos (twoFactor * k) Hwk) as HWpos.
  pose proof (divideBy_ge_floor (reducedWidth T) v1 D ltac:(lia) ltac:(lia)) as Hge.
  pose proof (divideBy_le_next (reducedWidth T) v1 D ltac:(lia) ltac:(lia)) as Hle.
  pose proof (divideBy_range (reducedWidth T) v1 D ltac:(lia) ltac:(lia) ltac:(lia))
    as Hdr.
  assert (HfQ : Q <= v1 / D).
  { apply Z.div_le_lower_bound; [lia |].
    apply Z.le_trans with (2 ^ twoFactor * 2 ^ (reducedWidth T - 2 * twoFactor));
      [| lia].
    apply Z.mul_le_mono_nonneg; lia. }
  assert (Hfd : v1 / D * D <= v1 < (v1 / D + 1) * D).
  { pose proof (Z.mul_div_le v1 D ltac:(lia)).
    pose proof (Z.mul_succ_div_gt v1 D ltac:(lia)).
    rewrite !(Z.mul_comm _ D). unfold Z.succ in *. lia. }
  apply IH; cbn [tenexponent]; [| lia].
  unfold tracks. cbn [tenexponent twoexponent varmantissa]. fold Q.
  replace (tenexponent s + tenFactor - e) with (K + tenFactor) by (subst K; lia).
  replace (- (twoexponent s - twoFactor * k)) with (N + twoFactor * k)
    by (subst N; lia).
  split; [lia |]. split; [lia |]. split; [lia |].
  rewrite !Z.pow_add_r by lia.
  replace (4 * (K + tenFactor)) with (4 * K + 4 * tenFactor) by lia.
  rewrite Z.pow_add_r by lia.
  pose proof (Z.pow_pos_nonneg 10 K ltac:(lia) ltac:(lia)) as HX.
  split; [| split; [| right; lia]].
  - fold D.
    replace (Q + 2 * (K + tenFactor)) with ((Q + 2 * K) + 2 * tenFactor) by lia.
    replace (m * (2 ^ N * 2 ^ (twoFactor * k)) * (Q + 2 * K + 2 * tenFactor))
      with (m * 2 ^ N * 2 ^ (twoFactor * k) * (Q + 2 * K + 2 * tenFactor)) by ring.
    assert (HA : 0 <= m * 2 ^ N * 2 ^ (twoFactor * k))
      by (apply Z.mul_nonneg_nonneg; [apply Z.mul_nonneg_nonneg |]; lia).
    assert (HU1 : v1 * 10 ^ K * Q
                  <= m * 2 ^ N * 2 ^ (twoFactor * k) * (Q + 2 * K)).
    { subst v1.
      replace (varmantissa s * 2 ^ (twoFactor * k) * 10 ^ K * Q)
        with (varmantissa s * 10 ^ K * Q * 2 ^ (twoFactor * k)) by ring.
      replace (m * 2 ^ N * 2 ^ (twoFactor * k) * (Q + 2 * K))
        with (m * 2 ^ N * (Q + 2 * K) * 2 ^ (twoFactor * k)) by ring.
      apply Z.mul_le_mono_nonneg_r; lia. }
    apply (track_upper v1 (10 ^ K) Q (m * 2 ^ N * 2 ^ (twoFactor * k)) (Q + 2 * K)
             _ D (v1 / D) tenFactor); try assumption; lia.
  - apply (track_lower (2 ^ N) (2 ^ (twoFactor * k)) (varmantissa s) v1
             (2 ^ (4 * K)) (v1 / D) D (2 ^ (4 * tenFactor)));
      try reflexivity; lia.
Qed.

(** The four loops of [convertTwobase] on a negative exponent. *)
Lemma increase_loops_track (fuel : nat) :
  e <= 0 ->
  (Z.to_nat (- e) + Z.to_nat (reducedWidth T) <= fuel)%nat ->
  exists s,
    (s1 <- increaseTenExponent T 9 30 fuel (mkConv m e 0) ;;
     s2 <- increaseTenExponent T 6 20 fuel s1 ;;
     s3 <- increaseTenExponent T 3 10 fuel s2 ;;
     increaseTenExponent T 1 4 fuel s3) = Done s /\
    tracks T m e s /\ tenexponent s = 0.
Proof.
  intros He Hfuel.
  assert (H0 : tracks T m e (mkConv m e 0)).
  { unfold tracks. cbn [tenexponent twoexponent varmantissa].
    rewrite Z.sub_diag. cbn [Z.opp]. rewrite !Z.mul_0_r, !Z.pow_0_r.
    repeat split; first [lia | left; reflexivity]. }
  assert (Hstep : forall tenFactor twoFactor s,
            0 < tenFactor -> 1 <= twoFactor <= 30 ->
            10 ^ tenFactor <= 2 ^ twoFactor ->
            3 * 10 ^ tenFactor <= 2 * 2 ^ (4 * tenFactor) ->
            tracks T m e s ->
            exists r, increaseTenExponent T tenFactor twoFactor fuel s = Done r /\
              tracks T m e r /\ - tenFactor < tenexponent r).
  { intros tenFactor twoFactor s H1 H2 H3 H4 Hs.
    apply increaseTenExponent_tracks; try assumption.
    destruct Hs as (Hexp & _). lia. }
  destruct (Hstep 9 30 _ ltac:(lia) ltac:(lia) ltac:(vm_compute; discriminate)
              ltac:(vm_compute; discriminate) H0) as (s1 & E1 & T1 & _).
  destruct (Hstep 6 20 _ ltac:(lia) ltac:(lia) ltac:(vm_compute; discriminate)
              ltac:(vm_compute; discriminate) T1) as (s2 & E2 & T2 & _).
  destruct (Hstep 3 10 _ ltac:(lia) ltac:(lia) ltac:(vm_compute; discriminate)
              ltac:(vm_compute; discriminate) T2) as (s3 & E3 & T3 & _).
  destruct (Hstep 1 4 _ ltac:(lia) ltac:(lia) ltac:(vm_compute; discriminate)
              ltac:(vm_compute; discriminate) T3) as (s4 & E4 & T4 & Hlast).
  exists s4. rewrite E1. cbn [bind]. rewrite E2. cbn [bind].
  rewrite E3. cbn [bind]. rewrite E4.
  split; [reflexivity |]. split; [exact T4 |].
  destruct T4 as (Hexp & _). lia.
Qed.

(** The first normalization loop halves the mantissa [t] times, with at
    most a half lost or won each time. *)
Lemma reduceMantissa_value (fuel : nat) :
  forall (k : nat) (v position : Z),
    (k < fuel)%nat ->
    0 <= v < 2 ^ reducedWidth T ->
    v <= 2 ^ (mantissaBits T + 1 + Z.of_nat k) ->
    0 <= position ->
    position + Z.of_nat k + 1 < 2 ^ (exponentWidth T - 1) ->
    exists v' t, 0 <= t /\
      reduceMantissa T fuel v position = Done (v', position + t) /\
      2 ^ t * v' <= v + 2 ^ t - 1.
Proof.
  destruct (traits_bounds T Hwf) as (Hmb & Heb & HW & Hmw & HmW & Hmr & Hew).
  assert (Htop : wrapU (reducedWidth T) (Z.shiftl 1 (mantissaBits T + 1))
                 = 2 ^ (mantissaBits T + 1)).
  { rewrite Z.shiftl_1_l. apply wrapU_small.
    split; [apply Z.lt_le_incl, pow2_pos; lia | apply pow2_lt; lia]. }
  assert (Hskip : forall f v position, v < 2 ^ (mantissaBits T + 1) ->
            reduceMantissa T f v position = Done (v, position)).
  { intros f v position Hv. destruct f; cbn [reduceMantissa]; rewrite Htop;
      replace (2 ^ (mantissaBits T + 1) <=? v) with false
        by (symmetry; apply Z.leb_gt; exact Hv); reflexivity. }
  pose proof (pow2_pos (mantissaBits T) ltac:(lia)) as Hpm.
  assert (Hsucc : 2 ^ (mantissaBits T + 1) = 2 * 2 ^ mantissaBits T)
    by (apply pow2_succ; lia).
  induction fuel as [| fuel IH]; intros k v position Hk Hv Hbound Hpos Hroom; [lia |].
  destruct (Z.lt_ge_cases v (2 ^ (mantissaBits T + 1))) as [Hlt | Hge].
  { rewrite Hskip by exact Hlt. exists v, 0.
    rewrite Z.add_0_r, Z.pow_0_r. split; [lia |]. split; [reflexivity | lia]. }
  cbn [reduceMantissa]. rewrite Htop.
  replace (2 ^ (mantissaBits T + 1) <=? v) with true
    by (symmetry; apply Z.leb_le; exact Hge).
  rewrite (eadd_exact T Hwf) by lia. cbn [bind].
  pose proof (divideBy_2_bounds (reducedWidth T) v ltac:(lia) Hv) as Hd.
  assert (Hd2 : 2 * divideBy (reducedWidth T) v 2 <= v + 1)
    by (Z.div_mod_to_equations; lia).
  destruct k as [| k].
  - cbn [Z.of_nat] in *. rewrite Z.add_0_r in Hbound.
    assert (Hv' : v = 2 ^ (mantissaBits T + 1)) by lia.
    assert (Hhalf : divideBy (reducedWidth T) v 2 < 2 ^ (mantissaBits T + 1)).
    { rewrite Hv' in Hd |- *. rewrite Hsucc in Hd |- *.
      Z.div_mod_to_equations. lia. }
    rewrite Hskip by exact Hhalf.
    exists (divideBy (reducedWidth T) v 2), 1.
    split; [lia |]. split; [reflexivity |].
    change (2 ^ 1) with 2. lia.
  - rewrite Nat2Z.inj_succ in *.
    assert (Hpow : 2 ^ (mantissaBits T + 1 + Z.succ (Z.of_nat k))
                   = 2 * 2 ^ (mantissaBits T + 1 + Z.of_nat k)).
    { replace (mantissaBits T + 1 + Z.succ (Z.of_nat k))
        with ((mantissaBits T + 1 + Z.of_nat k) + 1) by lia.
      apply pow2_succ. lia. }
    pose proof (pow2_pos (mantissaBits T + 1 + Z.of_nat k) ltac:(lia)) as Hpk.
    assert (HR : 2 ^ reducedWidth T = 2 * 2 ^ (reducedWidth T - 1)).
    { replace (reducedWidth T) with ((reducedWidth T - 1) + 1) at 1 by lia.
      apply pow2_succ. lia. }
    destruct (IH k (divideBy (reducedWidth T) v 2) (position + 1))
      as (v' & t & Ht & Hr & Hval); try lia.
    + split; Z.div_mod_to_equations; lia.
    + exists v', (t + 1). split; [lia |].
      replace (position + (t + 1)) with (position + 1 + t) by lia.
      split; [exact Hr |].
      rewrite pow2_succ by lia.
      pose proof (pow2_pos t Ht). lia.
Qed.

(** The second normalization loop is not entered once the leading bit is
    in place. *)
Lemma alignMantissa_skip (fuel : nat) (two v position : Z) :
  2 ^ mantissaBits T <= v ->
  alignMantissa T fuel two v position = Done (v, position).
Proof.
  intros Hv.
  destruct (traits_bounds T Hwf) as (Hmb & Heb & HW & Hmw & HmW & Hmr & Hew).
  assert (Htop : wrapU (mantissaWidth T) (Z.shiftl 1 (mantissaBits T))
                 = 2 ^ mantissaBits T).
  { rewrite Z.shiftl_1_l. apply wrapU_small.
    split; [apply Z.lt_le_incl, pow2_pos; lia | apply pow2_lt; lia]. }
  destruct fuel; cbn [alignMantissa]; rewrite Htop;
    replace (v <? 2 ^ mantissaBits T) with false
      by (symmetry; apply Z.ltb_ge; exact Hv); reflexivity.
Qed.

(** The third normalization loop halves the mantissa once per step up to
    the minimum exponent: a mantissa of at most [2 ^ (h - 1)] is gone after
    [h] halvings, the last one rounding the half to the even 0. *)
Lemma raiseExponent_vanishes (fuel : nat) :
  forall (h : nat) (v two : Z),
    (h <= fuel)%nat ->
    0 <= v < 2 ^ reducedWidth T ->
    2 * v <= 2 ^ Z.of_nat h ->
    exponentMin T - two = Z.of_nat h ->
    - 2 ^ (exponentWidth T - 1) <= two ->
    raiseExponent T fuel v two = Done (0, exponentMin T).
Proof.
  destruct (traits_bounds T Hwf) as (Hmb & Heb & HW & Hmw & HmW & Hmr & Hew).
  destruct (exponentMax_room T Hwf) as (Hmax0 & Hmax1 & _).
  assert (Hmin : exponentMin T <= 0).
  { rewrite (exponentMin_eq T). destruct (traits_powers T Hwf) as (Hp1 & _). lia. }
  assert (Hzero : forall f v two, 2 * v <= 1 -> 0 <= v -> exponentMin T - two = 0 ->
            raiseExponent T f v two = Done (0, exponentMin T)).
  { intros f v two Hv Hv0 Htwo.
    rewrite (raiseExponent_skip T) by lia.
    replace v with 0 by lia. replace two with (exponentMin T) by lia. reflexivity. }
  induction fuel as [| fuel IH]; intros h v two Hh Hv Hval Htwo Hlow.
  - assert (h = O) by lia. subst h. apply Hzero; cbn [Z.of_nat] in *; lia.
  - destruct h as [| h]; [apply Hzero; cbn [Z.of_nat] in *; lia |].
    rewrite Nat2Z.inj_succ in *.
    rewrite Z.pow_succ_r in Hval by lia.
    cbn [raiseExponent].
    replace (two <? exponentMin T) with true by (symmetry; apply Z.ltb_lt; lia).
    rewrite (eadd_exact T Hwf) by lia. cbn [bind].
    pose proof (divideBy_2_bounds (reducedWidth T) v ltac:(lia) Hv) as Hd.
    pose proof (divideBy_range (reducedWidth T) v 2 ltac:(lia) Hv ltac:(lia)) as Hr.
    apply (IH h); try lia.
    destruct h as [| h].
    + cbn [Z.of_nat] in *. change (2 ^ 0) with 1 in *.
      assert (Hcases : v = 0 \/ v = 1) by lia.
      destruct Hcases as [-> | ->]; vm_compute; discriminate.
    + rewrite Nat2Z.inj_succ in *. rewrite Z.pow_succ_r in * by lia.
      pose proof (pow2_pos (Z.of_nat h) ltac:(lia)) as Hp.
      Z.div_mod_to_equations. lia.
Qed.

(** One round of the third normalization loop. *)
Lemma raiseExponent_round (fuel : nat) (v two : Z) :
  two < exponentMin T -> - 2 ^ (exponentWidth T - 1) <= two ->
  raiseExponent T (S fuel) v two
    = raiseExponent T fuel (divideBy (reducedWidth T) v 2) (two + 1).
Proof.
  intros Hlt Hlow.
  destruct (exponentMax_room T Hwf) as (Hmax0 & Hmax1 & _).
  assert (Hmin : exponentMin T <= 0).
  { rewrite (exponentMin_eq T). destruct (traits_powers T Hwf) as (Hp1 & _). lia. }
  cbn [raiseExponent].
  replace (two <? exponentMin T) with true by (symmetry; apply Z.ltb_lt; lia).
  rewrite (eadd_exact T Hwf) by lia. reflexivity.
Qed.

(** [k] rounds of it halve the mantissa [k] times, with at most a half won
    each time. *)
Lemma raiseExponent_steps (k : nat) :
  forall (fuel : nat) (v two : Z),
    (k <= fuel)%nat ->
    0 <= v < 2 ^ reducedWidth T ->
    two + Z.of_nat k <= exponentMin T ->
    - 2 ^ (exponentWidth T - 1) <= two ->
    exists v',
      raiseExponent T fuel v two
        = raiseExponent T (fuel - k) v' (two + Z.of_nat k) /\
      0 <= v' < 2 ^ reducedWidth T /\
      2 ^ Z.of_nat k * v' <= v + 2 ^ Z.of_nat k - 1.
Proof.
  destruct (traits_bounds T Hwf) as (Hmb & Heb & HW & Hmw & HmW & Hmr & Hew).
  induction k as [| k IH]; intros fuel v two Hk Hv Htwo Hlow.
  - exists v. cbn [Z.of_nat]. rewrite Nat.sub_0_r, Z.add_0_r, Z.pow_0_r.
    split; [reflexivity |]. split; [exact Hv | lia].
  - destruct fuel as [| fuel]; [lia |].
    rewrite Nat2Z.inj_succ in *.
    rewrite raiseExponent_round by lia.
    pose proof (divideBy_2_bounds (reducedWidth T) v ltac:(lia) Hv) as Hd.
    pose proof (divideBy_range (reducedWidth T) v 2 ltac:(lia) Hv ltac:(lia)) as Hr.
    assert (Hd2 : 2 * divideBy (reducedWidth T) v 2 <= v + 1)
      by (Z.div_mod_to_equations; lia).
    destruct (IH fuel (divideBy (reducedWidth T) v 2) (two + 1))
      as (v' & Hsteps & Hv' & Hval); try lia.
    exists v'. rewrite Hsteps. cbn [Nat.sub].
    replace (two + 1 + Z.of_nat k) with (two + Z.succ (Z.of_nat k)) by lia.
    split; [reflexivity |]. split; [exact Hv' |].
    rewrite Z.pow_succ_r by lia.
    pose proof (pow2_pos (Z.of_nat k) ltac:(lia)). lia.
Qed.

End SmallMagnitude.

(** A decimal number with a nonzero mantissa and magnitude at most
    [2 ^ -1075], half the minimal subnormal, is converted to the zero of
    its sign. *)
Lemma convertTwobase_small_magnitude (fuel : nat) (neg : bool) (m e : Z) :
  0 < m < 2 ^ 64 ->
  - 2 ^ 28 <= e ->
  m * 2 ^ 1075 <= 10 ^ (- e) ->
  (Z.to_nat (4 * (- e) + 256) <= fuel)%nat ->
  convertTwobase Traits_double fuel (mkNumber neg m e)
    = Done (mkNumber neg 0 (-1022)).
Proof.
  intros Hm Hlow Hmag Hfuel.
  assert (He : e < 0).
  { destruct (Z.lt_ge_cases e 0) as [H | H]; [exact H | exfalso].
    assert (H1 : 10 ^ (- e) <= 1).
    { destruct (Z.eq_dec e 0) as [-> | Hne]; [cbn; lia |].
      rewrite Z.pow_neg_r by lia. lia. }
    assert (H2 : 1 < 2 ^ 1075) by (vm_compute; reflexivity).
    nia. }
  change (2 ^ 28) with 268435456 in Hlow.
  assert (HmR : 1 <= m < 2 ^ reducedWidth Traits_double).
  { change (reducedWidth Traits_double) with 128.
    assert (2 ^ 64 < 2 ^ 128) by (vm_compute; reflexivity). lia. }
  assert (H64 : 64 <= reducedWidth Traits_double) by (vm_compute; discriminate).
  assert (Hdeep : 4 * (- e) + 32 * reducedWidth Traits_double
                  - (exponentSubnormalMin Traits_double - reducedWidth Traits_double)
                  <= 2 ^ (exponentWidth Traits_double - 1)).
  { change (reducedWidth Traits_double) with 128.
    change (exponentSubnormalMin Traits_double) with (-1074).
    change (2 ^ (exponentWidth Traits_double - 1)) with 2147483648. lia. }
  assert (Hslack : 2 * (- e) <= 2 ^ (reducedWidth Traits_double - 60)).
  { change (2 ^ (reducedWidth Traits_double - 60)) with 295147905179352825856. lia. }
  destruct (increase_loops_track Traits_double wfTraits_double position_double H64
              m e HmR Hdeep Hslack fuel ltac:(lia))
    as (s & Hs & Htr & Hten).
  { change (reducedWidth Traits_double) with 128. lia. }
  unfold convertTwobase. cbn [mantissa exponent negative tenexponent].
  replace (0 <? e) with false by (symmetry; apply Z.ltb_ge; lia).
  replace (e <? 0) with true by (symmetry; apply Z.ltb_lt; lia).
  rewrite wrapU_small by lia.
  rewrite Hs. cbn [bind]. rewrite Hten. cbn [Z.eqb assert bind].
  destruct Htr as (_ & HN & Hv & HU & HL & HQ).
  rewrite Hten in HU, HL, HQ.
  replace (0 - e) with (- e) in HU, HL, HQ by lia.
  change (reducedWidth Traits_double) with 128 in *.
  change (128 - 60) with 68 in *.
  set (N := - twoexponent s) in *.
  destruct HQ as [HQ | HQ]; [lia |].
  assert (H68 : 2 ^ 53 < 2 ^ 68) by (vm_compute; reflexivity).
  replace (varmantissa s =? 0) with false by (symmetry; apply Z.eqb_neq; lia).
  assert (HNlt : N < 128 + 4 * (- e)).
  { destruct (Z.lt_ge_cases N (128 + 4 * (- e))) as [H | H]; [exact H | exfalso].
    assert (H' : 2 ^ (128 + 4 * (- e)) <= 2 ^ N) by (apply pow2_le; lia).
    rewrite Z.pow_add_r in H' by lia.
    pose proof (pow2_pos (4 * (- e)) ltac:(lia)) as Hp.
    assert (varmantissa s * 2 ^ (4 * (- e)) < 2 ^ 128 * 2 ^ (4 * (- e)))
      by (apply Z.mul_lt_mono_pos_r; lia).
    lia. }
  assert (Hk : (75 < fuel)%nat) by lia.
  assert (Hfull : varmantissa s
                  <= 2 ^ (mantissaBits Traits_double + 1 + Z.of_nat 75)).
  { change (mantissaBits Traits_double + 1 + Z.of_nat 75) with 128. lia. }
  assert (Hp0 : 0 <= mantissaBits Traits_double) by (vm_compute; discriminate).
  assert (Hp1 : mantissaBits Traits_double + Z.of_nat 75 + 1
                < 2 ^ (exponentWidth Traits_double - 1))
    by (vm_compute; reflexivity).
  destruct (reduceMantissa_value Traits_double wfTraits_double H64 fuel 75
              (varmantissa s) (mantissaBits Traits_double) Hk
              (conj (Z.le_trans 0 1 _ Z.le_0_1 (proj1 Hv)) (proj2 Hv)) Hfull Hp0 Hp1)
    as (v1 & t & Ht & Hr1 & Hval).
  clear Hk Hfull Hp0 Hp1.
  rewrite Hr1. cbn [bind].
  pose proof (reduceMantissa_spec Traits_double wfTraits_double fuel (varmantissa s)
                (mantissaBits Traits_double) v1 _
                (conj (Z.le_trans 0 1 _ Z.le_0_1 (proj1 Hv)) (proj2 Hv)) Hr1)
    as [Hv1 Hcase].
  change (mantissaBits Traits_double) with 52 in *.
  change (52 + 1) with 53 in *.
  assert (Hv52 : 2 ^ 52 <= v1).
  { destruct Hcase as [[Heq _] | H]; [exfalso; lia | exact H]. }
  rewrite (alignMantissa_skip Traits_double wfTraits_double) by exact Hv52.
  cbn [bind].
  pose proof (pow2_pos t Ht) as Hpt.
  assert (G1 : 0 <= - e <= 2 ^ 28) by (change (2 ^ 28) with 268435456; lia).
  assert (G2 : 0 <= m) by lia.
  pose proof (threshold_gap (varmantissa s) v1 m (- e) N t G1 HN Ht G2 HU Hmag
                Hval Hv52) as Hgap.
  assert (Htwo : twoexponent s = - N) by (subst N; lia).
  assert (H128 : 2 ^ 53 < 2 ^ 128) by (vm_compute; reflexivity).
  rewrite (eadd_exact Traits_double wfTraits_double)
    by (change (2 ^ (exponentWidth Traits_double - 1)) with 2147483648; lia).
  cbn [bind].
  destruct Hgap as [Hfar | [Hedge Hv1']].
  - rewrite (raiseExponent_vanishes Traits_double wfTraits_double H64 fuel
               (Z.to_nat (N - t - 1074)) v1 (twoexponent s + (52 + t))).
    + cbn [bind]. reflexivity.
    + lia.
    + change (reducedWidth Traits_double) with 128. lia.
    + rewrite Z2Nat.id by lia.
      assert (H54 : 2 ^ 54 <= 2 ^ (N - t - 1074)) by (apply pow2_le; lia).
      change (2 ^ 54) with (2 * 2 ^ 53) in H54. lia.
    + rewrite Z2Nat.id by lia.
      change (exponentMin Traits_double) with (-1022). lia.
    + change (2 ^ (exponentWidth Traits_double - 1)) with 2147483648. lia.
  - replace (twoexponent s + (52 + t)) with (-1075) by lia.
    destruct (raiseExponent_steps Traits_double wfTraits_double H64 14%nat fuel v1 (-1075))
      as (v14 & Hsteps & Hr14 & Hb14).
    { lia. }
    { change (reducedWidth Traits_double) with 128. lia. }
    { vm_compute. discriminate. }
    { vm_compute. discriminate. }
    rewrite Hsteps.
    change (-1075 + Z.of_nat 14) with (-1061).
    change (2 ^ Z.of_nat 14) with 16384 in Hb14.
    change (reducedWidth Traits_double) with 128 in Hr14.
    change (2 ^ 52) with 4503599627370496 in Hv1'.
    change (2 ^ 13) with 8192 in Hv1'.
    assert (Hv14 : v14 <= 2 ^ 38 + 1).
    { change (2 ^ 38) with 274877906944. lia. }
    replace (fuel - 14)%nat with (S (fuel - 15)) by lia.
    rewrite (raiseExponent_round Traits_double wfTraits_double H64)
      by (vm_compute; first [reflexivity | discriminate]).
    change (-1061 + 1) with (-1060).
    pose proof (halve_next_to_power (reducedWidth Traits_double) v14 38
                  ltac:(lia) ltac:(lia)
                  ltac:(change (reducedWidth Traits_double) with 128; lia)
                  ltac:(vm_compute; discriminate)) as Hv15.
    change (38 - 1) with 37 in Hv15.
    pose proof (divideBy_range (reducedWidth Traits_double) v14 2
                  ltac:(vm_compute; discriminate)
                  ltac:(change (reducedWidth Traits_double) with 128; lia)
                  ltac:(lia)) as Hr15.
    rewrite (raiseExponent_vanishes Traits_double wfTraits_double H64 (fuel - 15)
               38%nat (divideBy (reducedWidth Traits_double) v14 2) (-1060)).
    + cbn [bind]. reflexivity.
    + lia.
    + exact Hr15.
    + change (2 ^ Z.of_nat 38) with (2 * 2 ^ 37). lia.
    + vm_compute. reflexivity.
    + vm_compute. discriminate.
Qed.

(** Between half the minimal subnormal and the minimal subnormal the
    result depends on the literal. *)
Lemma between_literals :
  toIEEE754Double 256 "2.5E-324" = Done 0x0 /\
  toIEEE754Double 256 "3E-324" = Done 0x0 /\
  toIEEE754Double 256 "3.8E-324" = Done 0x1.
Proof. repeat split; vm_compute; reflexivity. Qed.

(** C4 (amended): the literal of the minimal positive subnormal double,
    [2 ^ -1074], is converted to the pattern 0x1 (mantissa 1 at exponent
    -1022).  Every literal that the lexer consumes whole into a nonzero
    mantissa [m] and an exponent [e] of at least [- 2 ^ 28], and whose
    magnitude [m * 10 ^ e] is at most [2 ^ -1075], half the minimal
    subnormal, is converted to the zero of its sign, 0x0 when it is
    positive: the conversion ends within [4 * (- e) + 256] rounds of each
    loop, and no error is reported. *)
Theorem minimal_subnormal_threshold (fuel : nat) (s : text) (neg : bool) (m e : Z) :
  parseMantissaExponent Traits_double s = Done (List.length s, mkNumber neg m e) ->
  0 < m ->
  - 2 ^ 28 <= e ->
  m * 2 ^ 1075 <= 10 ^ (- e) ->
  (Z.to_nat (4 * (- e) + 256) <= fuel)%nat ->
  ((b <- (d <- toMantissaExponent "4.9406564584124654E-324" ;;
          convertTwobase Traits_double 256 d) ;; Done (mantissa b, exponent b))
     = Done (1, -1022) /\
   toIEEE754Double 256 "4.9406564584124654E-324" = Done 0x1) /\
  convertTwobase Traits_double fuel (mkNumber neg m e)
    = Done (mkNumber neg 0 (-1022)) /\
  toDouble fuel s = Done (if neg then 2 ^ 63 else 0, false).
Proof.
  intros Hparse Hm Hlow Hmag Hfuel.
  split; [split; vm_compute; reflexivity |].
  pose proof (parseMantissaExponent_range Traits_double wfTraits_double s _ _ Hparse)
    as Hrange.
  cbn [mantissa] in Hrange. change (mantissaWidth Traits_double) with 64 in Hrange.
  assert (Hconv : convertTwobase Traits_double fuel (mkNumber neg m e)
                  = Done (mkNumber neg 0 (-1022)))
    by (apply convertTwobase_small_magnitude; try assumption; lia).
  split; [exact Hconv |].
  unfold toDouble, toAnyDouble. rewrite Hparse. cbn [bind].
  rewrite Nat.eqb_refl. cbn [negb]. rewrite Hconv. cbn [bind].
  destruct neg; reflexivity.
Qed.

Lemma minimal_subnormal_threshold_witness :
  ((b <- (d <- toMantissaExponent "4.9406564584124654E-324" ;;
          convertTwobase Traits_double 256 d) ;; Done (mantissa b, exponent b))
     = Done (1, -1022) /\
   toIEEE754Double 256 "4.9406564584124654E-324" = Done 0x1) /\
  convertTwobase Traits_double 1700 (mkNumber false 24703282292062327 (-340))
    = Done (mkNumber false 0 (-1022)) /\
  toDouble 1700 (codes "2.4703282292062327E-324") = Done (0, false).
Proof.
  apply (minimal_subnormal_threshold 1700 (codes "2.4703282292062327E-324")
           false 24703282292062327 (-340)).
  - vm_compute. reflexivity.
  - reflexivity.
  - vm_compute. discriminate.
  - vm_compute. discriminate.
  - vm_compute. lia.
Defined.
